(** * Career-Cortex: the extraction-and-ingestion pipeline

    A shallow embedding of the scrapers ([yc_scraper.py],
    [wellfound_scraper.py], [job_agent.py]), of the job extractor
    ([extractor.py]) and of the resume parser ([resume_parser.py]),
    followed by the properties of the specification that concern them.

    Conventions.
    - A Python [str] is a [string] holding its UTF-8 bytes, so that the
      literals are the source's own.  A character is a byte that is not a
      continuation byte, with the continuation bytes that follow it: [len]
      counts the characters, [list] and [json.dumps] go character by
      character.  Exact-match operations ([replace], [in], [==],
      [startswith], [count]) compare bytes.  Whitespace ([strip], [split])
      is what [str.isspace] holds for, in ASCII and beyond.  [lower],
      [upper] and the digits of [\d] follow tables of the interpreter that
      are not written out here: they are the parameters of the class
      [PyStr.Unicode], with what Python guarantees of them.  [title] is
      written out for ASCII text, and is applied to the keywords of the
      taxonomy, which are ASCII.
    - Code that can raise returns a [result]; [try]/[except] is [try_except].
    - What the environment decides (the PDF reader, the inference backend,
      the browser, storage faults) is an explicit argument. *)

From Stdlib Require Import ZArith Lia List Ascii String DecimalString Bool.
From stdpp Require Import base list gmap strings.

(* [set_solver] clears hypotheses that its own steps have already used. *)
Set Warnings "-clear-no-such-hyp".

(** ** Exceptions *)

Inductive exn :=
| AttributeError
| TypeError
| KeyError
| JSONDecodeError
| ConnectionError
| PdfReadError
| StaleElement
| MySQLError (errno : Z).

Inductive result (A : Type) :=
| Ok (a : A)
| Raise (e : exn).
Arguments Ok {A} a.
Arguments Raise {A} e.

#[global] Instance result_ret : MRet result := @Ok.
#[global] Instance result_bind : MBind result :=
  λ A B k m, match m with Ok a => k a | Raise e => Raise e end.

(** [try: body except Exception as e: handler e] *)
Definition try_except {A} (body : result A) (handler : exn → result A) : result A :=
  match body with
  | Ok a => Ok a
  | Raise e => handler e
  end.

(** [try: body except mysql.connector.Error as err: handler err.errno];
    any other exception goes through. *)
Definition try_except_mysql {A} (body : result A) (handler : Z → result A) : result A :=
  match body with
  | Raise (MySQLError errno) => handler errno
  | other => other
  end.

(** ** Python's [str] operations *)

Module PyStr.

(** *** Characters

    A character is the run of bytes that encodes it: a byte that is not a
    continuation byte, followed by continuation bytes. *)

Definition is_continuation (c : ascii) : bool :=
  let n := N_of_ascii c in ((128 <=? n) && (n <? 192))%N.

Definition is_ascii_char (c : ascii) : bool := (N_of_ascii c <? 128)%N.

(** Every character of [s] is an ASCII character. *)
Fixpoint is_ascii (s : string) : bool :=
  match s with
  | EmptyString => true
  | String c r => is_ascii_char c && is_ascii r
  end.

(** [chr(cp)] *)
Definition chr (cp : N) : string :=
  let byte (n : N) (r : string) := String (ascii_of_N n) r in
  (if cp <? 128 then byte cp EmptyString
   else if cp <? 2048 then byte (192 + cp / 64) (byte (128 + cp mod 64) EmptyString)
   else if cp <? 65536 then
     byte (224 + cp / 4096) (byte (128 + (cp / 64) mod 64) (byte (128 + cp mod 64) EmptyString))
   else
     byte (240 + cp / 262144)
       (byte (128 + (cp / 4096) mod 64)
          (byte (128 + (cp / 64) mod 64) (byte (128 + cp mod 64) EmptyString))))%N.

(** [len(s)]: the number of characters, one for each byte that is not a
    continuation byte. *)
Fixpoint len (s : string) : nat :=
  match s with
  | EmptyString => 0
  | String c r => (if is_continuation c then 0 else 1) + len r
  end.

Definition nonempty (s : string) : bool :=
  match s with EmptyString => false | String _ _ => true end.

(** [list(s)]: the characters of [s], each a string of its own; [ch] holds
    the bytes read of the character that is being read. *)
Fixpoint chars_go (ch : string) (s : string) : list string :=
  match s with
  | EmptyString => if nonempty ch then [ch] else []
  | String c r =>
    if is_continuation c then chars_go (ch +:+ String c EmptyString) r
    else if nonempty ch then ch :: chars_go (String c EmptyString) r
    else chars_go (String c EmptyString) r
  end.
Definition chars (s : string) : list string := chars_go EmptyString s.

(** *** Case, on ASCII text *)

Definition lower_char (c : ascii) : ascii :=
  let n := N_of_ascii c in
  if ((65 <=? n) && (n <=? 90))%N then ascii_of_N (n + 32) else c.

Definition is_ascii_lower (c : ascii) : bool :=
  let n := N_of_ascii c in ((97 <=? n) && (n <=? 122))%N.

Definition is_ascii_upper (c : ascii) : bool :=
  let n := N_of_ascii c in ((65 <=? n) && (n <=? 90))%N.

Definition upper_char (c : ascii) : ascii :=
  if is_ascii_lower c then ascii_of_N (N_of_ascii c - 32) else c.

Definition is_digit (c : ascii) : bool :=
  let n := N_of_ascii c in ((48 <=? n) && (n <=? 57))%N.

(** [s.lower()] and [s.upper()] of an ASCII text *)
Fixpoint ascii_lower (s : string) : string :=
  match s with
  | EmptyString => EmptyString
  | String c r => String (lower_char c) (ascii_lower r)
  end.

Fixpoint ascii_upper (s : string) : string :=
  match s with
  | EmptyString => EmptyString
  | String c r => String (upper_char c) (ascii_upper r)
  end.

(** [re.search(r"\d", s)] on an ASCII text *)
Fixpoint ascii_has_digit (s : string) : bool :=
  match s with
  | EmptyString => false
  | String c r => is_digit c || ascii_has_digit r
  end.

(** [s.title()] of an ASCII text, as the keywords of the taxonomy are: a
    letter that follows a cased letter is lowered, any other letter is
    capitalised. *)
Fixpoint title_go (previous_is_cased : bool) (s : string) : string :=
  match s with
  | EmptyString => EmptyString
  | String c r =>
    if is_ascii_lower c then
      String (if previous_is_cased then c else upper_char c) (title_go true r)
    else if is_ascii_upper c then
      String (if previous_is_cased then lower_char c else c) (title_go true r)
    else String c (title_go false r)
  end.
Definition title (s : string) : string := title_go false s.

(** *** What the interpreter's tables decide

    [str.lower], [str.upper] and the digits of [\d] follow the Unicode
    tables of the interpreter.  They are taken as given, with what Python
    guarantees of them: on ASCII text they are the functions above; a
    lowered text is empty only when the text is; and where the lowered form
    of a part of a text is ASCII, the lowered text has it at that place
    (the one mapping that looks at the neighbours of a character, the one
    of the capital sigma, gives no ASCII character). *)
Class Unicode := {
  lower : string → string;
  upper : string → string;
  has_digit : string → bool;
  lower_ascii : ∀ s, is_ascii s = true → lower s = ascii_lower s;
  lower_nonempty : ∀ s, nonempty (lower s) = nonempty s;
  lower_part : ∀ a w b, is_ascii (lower w) = true →
    ∃ a' b', lower (a +:+ w +:+ b) = a' +:+ lower w +:+ b';
  upper_ascii : ∀ s, is_ascii s = true → upper s = ascii_upper s;
  has_digit_ascii : ∀ s, is_ascii s = true → has_digit s = ascii_has_digit s
}.

(** *** Operations that compare bytes

    They are Python's on every text: the encoding of a character is
    neither the start nor a part of the encoding of another one. *)

(** [sep.join(l)] *)
Definition join (sep : string) (l : list string) : string := String.concat sep l.

(** [sub in s] *)
Fixpoint contains (sub s : string) : bool :=
  String.prefix sub s ||
  match s with
  | EmptyString => false
  | String _ r => contains sub r
  end.

(** [s.replace(old, new)]: the occurrences of [old] are found from left to
    right, each search starting after the previous match. *)
Fixpoint replace_go (old new : string) (skip : nat) (s : string) : string :=
  match s with
  | EmptyString => EmptyString
  | String c r =>
    match skip with
    | S k => replace_go old new k r
    | O =>
      if String.prefix old s
      then new +:+ replace_go old new (String.length old - 1) r
      else String c (replace_go old new 0 r)
    end
  end.

(** With an empty [old], Python puts [new] before every character and at
    the end. *)
Fixpoint interleave (new : string) (s : string) : string :=
  match s with
  | EmptyString => new
  | String c r =>
    if is_continuation c then String c (interleave new r)
    else new +:+ String c (interleave new r)
  end.

Definition replace (old new s : string) : string :=
  if nonempty old then replace_go old new 0 s else interleave new s.

(** [s.count(c)] for a one-character [c] *)
Fixpoint count_char (c : ascii) (s : string) : nat :=
  match s with
  | EmptyString => 0
  | String d r => (if Ascii.eqb c d then 1 else 0) + count_char c r
  end.

(** [s.split(c)[0]] for a one-character [c] *)
Fixpoint split_first (c : ascii) (s : string) : string :=
  match s with
  | EmptyString => EmptyString
  | String d r => if Ascii.eqb c d then EmptyString else String d (split_first c r)
  end.

(** [str(n)], as an f-string prints a length *)
Definition str_of_nat (n : nat) : string := NilZero.string_of_uint (Nat.to_uint n).

(** [any(k in s for k in keys)] *)
Definition any_in (keys : list string) (s : string) : bool :=
  existsb (λ k, contains k s) keys.

(** *** Whitespace *)

(** The characters for which [str.isspace] holds: those of ASCII, and the
    others. *)
Definition ascii_spaces : list string :=
  map chr [9; 10; 11; 12; 13; 28; 29; 30; 31; 32]%N.

Definition unicode_spaces : list string :=
  map chr [133; 160; 5760; 8192; 8193; 8194; 8195; 8196; 8197; 8198; 8199; 8200; 8201; 8202;
           8232; 8233; 8239; 8287; 12288]%N.

Definition whitespace : list string := ascii_spaces ++ unicode_spaces.

(** A byte that is an ASCII whitespace character. *)
Definition is_ascii_space (c : ascii) : bool :=
  let n := N_of_ascii c in
  ((9 <=? n) && (n <=? 13) || (28 <=? n) && (n <=? 32))%N.

(** The number of bytes of the whitespace character that [s] starts with,
    [0] when it starts with none. *)
Definition space_width (s : string) : nat :=
  match find (λ x, String.prefix x s) whitespace with
  | Some x => String.length x
  | None => 0
  end.

(** [s.lstrip()]; [skip] bytes of a whitespace character are still to be
    dropped. *)
Fixpoint lstrip_go (skip : nat) (s : string) : string :=
  match s with
  | EmptyString => EmptyString
  | String c r =>
    match skip with
    | S k => lstrip_go k r
    | O =>
      match space_width s with
      | S k => lstrip_go k r
      | O => s
      end
    end
  end.
Definition lstrip (s : string) : string := lstrip_go 0 s.

(** [s] has whitespace characters only. *)
Definition all_space (s : string) : bool := negb (nonempty (lstrip s)).

(** [s.rstrip()]: the text up to the place from which only whitespace
    follows. *)
Fixpoint rstrip (s : string) : string :=
  match s with
  | EmptyString => EmptyString
  | String c r => if all_space s then EmptyString else String c (rstrip r)
  end.

Definition newline : string := String (ascii_of_N 10) EmptyString.

(** [s.strip()] *)
Definition strip (s : string) : string := rstrip (lstrip s).

(** [s.startswith(p)] and [s.endswith(p)] *)
Definition startswith (p s : string) : bool := String.prefix p s.

Fixpoint endswith (p s : string) : bool :=
  String.eqb p s ||
  match s with
  | EmptyString => false
  | String _ r => endswith p r
  end.

(** [s.split()]: the maximal runs of characters that are not whitespace.
    [split_go] cuts at the whitespace characters of ASCII; the other
    whitespace characters are first rewritten to a space, which changes no
    word. *)
Fixpoint split_go (word : string) (s : string) : list string :=
  match s with
  | EmptyString => if nonempty word then [word] else []
  | String c r =>
    if is_ascii_space c then
      if nonempty word then word :: split_go EmptyString r else split_go EmptyString r
    else split_go (word +:+ String c EmptyString) r
  end.

Fixpoint spaces_to_ascii (spaces : list string) (s : string) : string :=
  match spaces with
  | [] => s
  | x :: rest => spaces_to_ascii rest (replace x " " s)
  end.

Definition split (s : string) : list string :=
  split_go EmptyString (spaces_to_ascii unicode_spaces s).

End PyStr.

(** ** The values [json.loads] returns

    Numbers are integers here: the schemas of the two prompts have no
    fractional field. *)

#[warnings="-register-all"]
Inductive pyval :=
| PNone
| PBool (b : bool)
| PInt (z : Z)
| PStr (s : string)
| PList (l : list pyval)
| PDict (d : list (string * pyval)).

Module Json.

(** [d.get(key, default)] on the items of a dict *)
Fixpoint get (d : list (string * pyval)) (key : string) (default : pyval) : pyval :=
  match d with
  | [] => default
  | (k, v) :: rest => if String.eqb k key then v else get rest key default
  end.

(** [x.get(key, default)] on any value: only a dict has the method. *)
Definition get_attr (x : pyval) (key : string) (default : pyval) : result pyval :=
  match x with
  | PDict d => Ok (get d key default)
  | _ => Raise AttributeError
  end.

(** Truth value of a Python object *)
Definition truthy (v : pyval) : bool :=
  match v with
  | PNone => false
  | PBool b => b
  | PInt z => negb (z =? 0)%Z
  | PStr s => PyStr.nonempty s
  | PList l => match l with [] => false | _ => true end
  | PDict d => match d with [] => false | _ => true end
  end.

Definition dquote : string := String (ascii_of_N 34) EmptyString.

Definition hex_digit (n : N) : ascii :=
  ascii_of_N (if (n <? 10)%N then 48 + n else 87 + n).

Definition hex4 (n : N) : string :=
  (String (hex_digit (n / 4096)) (String (hex_digit ((n / 256) mod 16))
     (String (hex_digit ((n / 16) mod 16)) (String (hex_digit (n mod 16)) EmptyString))))%N.

(** The escapes of [json.dumps] with [ensure_ascii], its default: of an
    ASCII character, and of the character with the code point [cp], which
    takes a surrogate pair beyond the sixteen bits. *)
Definition escape_ascii (c : ascii) : string :=
  let n := N_of_ascii c in
  if (n =? 34)%N then "\" +:+ dquote
  else if (n =? 92)%N then "\\"
  else if (n =? 10)%N then "\n"
  else if (n =? 13)%N then "\r"
  else if (n =? 9)%N then "\t"
  else if (n =? 8)%N then "\b"
  else if (n =? 12)%N then "\f"
  else if ((n <? 32) || (126 <? n))%N then "\u" +:+ hex4 n
  else String c EmptyString.

Definition escape_code_point (cp : N) : string :=
  (if cp <? 65536 then "\u" +:+ hex4 cp
   else "\u" +:+ hex4 (55296 + (cp - 65536) / 1024) +:+
        "\u" +:+ hex4 (56320 + (cp - 65536) mod 1024))%N.

(** The bits that a continuation byte carries. *)
Definition payload (c : ascii) : N := (N_of_ascii c mod 64)%N.

(** The code point of the character that [s] starts with, for one that is
    not of ASCII. *)
Definition code_point (s : string) : N :=
  match s with
  | String c0 (String c1 r) =>
    let n := N_of_ascii c0 in
    (if n <? 224 then (n - 192) * 64 + payload c1
     else
       match r with
       | String c2 r' =>
         if n <? 240 then (n - 224) * 4096 + payload c1 * 64 + payload c2
         else
           match r' with
           | String c3 _ =>
             (n - 240) * 262144 + payload c1 * 4096 + payload c2 * 64 + payload c3
           | _ => 0
           end
       | _ => 0
       end)%N
  | _ => 0%N
  end.

(** A continuation byte was escaped with the byte that starts its
    character. *)
Fixpoint escape (s : string) : string :=
  match s with
  | EmptyString => EmptyString
  | String c r =>
    if PyStr.is_ascii_char c then escape_ascii c +:+ escape r
    else if PyStr.is_continuation c then escape r
    else escape_code_point (code_point s) +:+ escape r
  end.

Definition dumps_str (s : string) : string := dquote +:+ escape s +:+ dquote.

(** [json.dumps(v)] with the default separators *)
Fixpoint dumps (v : pyval) : string :=
  match v with
  | PNone => "null"
  | PBool true => "true"
  | PBool false => "false"
  | PInt z => NilZero.string_of_int (Z.to_int z)
  | PStr s => dumps_str s
  | PList l => "[" +:+ PyStr.join ", " (map dumps l) +:+ "]"
  | PDict d =>
    "{" +:+ PyStr.join ", " (map (λ kv : string * pyval, let (k, x) := kv in dumps_str k +:+ ": " +:+ dumps x) d) +:+ "}"
  end.

End Json.

(** ** The inference backend (Ollama)

    [ollama.list()] returns or raises; [ollama.chat(...)] returns a reply
    or raises.  A reply is given by what [json.loads] makes of
    [response['message']['content']]. *)

Inductive prompt :=
| SKILL_EXTRACTION_PROMPT
| extraction_prompt.

Inductive content :=
| NotJSON
| Parsed (v : pyval).

Record ollama_api := {
  ollama_list : result unit;
  ollama_chat : string → prompt → string → result content
}.

Definition json_loads (c : content) : result pyval :=
  match c with
  | NotJSON => Raise JSONDecodeError
  | Parsed v => Ok v
  end.

(** ** resume_parser.py *)

Module ResumeParser.

Section WithUnicode.

Context {U : PyStr.Unicode}.

(** What PyPDF2 makes of the upload: the reader raises, or gives the pages,
    each with the outcome of [page.extract_text()] (an empty text also
    stands for [None]). *)
Definition pdf_file := result (list (result string)).

Fixpoint read_pages (pages : list (result string)) (text : string) : result string :=
  match pages with
  | [] => Ok text
  | page :: rest =>
    page_text ← page;
    read_pages rest (if PyStr.nonempty page_text then text +:+ page_text +:+ PyStr.newline else text)
  end.

Definition extract_text_from_pdf (pdf : pdf_file) : result string :=
  try_except
    (pdf_reader ← pdf;
     text ← read_pages pdf_reader EmptyString;
     Ok (PyStr.strip text))
    (λ _, Ok EmptyString).

(** [skill.strip()]: only a [str] has the method. *)
Definition str_strip (skill : pyval) : result string :=
  match skill with
  | PStr s => Ok (PyStr.strip s)
  | _ => Raise AttributeError
  end.

(** [for skill in skills]: a list gives its items, a string its
    characters, a dict its keys; nothing else is iterable. *)
Definition iterate (skills : pyval) : result (list pyval) :=
  match skills with
  | PList l => Ok l
  | PStr s => Ok (map PStr (PyStr.chars s))
  | PDict d => Ok (map (λ kv : string * pyval, PStr (fst kv)) d)
  | _ => Raise TypeError
  end.

(** The de-duplication loop of [extract_skills_with_ollama]. *)
Fixpoint unique_loop (skills : list pyval) (unique_skills : list string) (seen : gset string)
  : result (list string) :=
  match skills with
  | [] => Ok unique_skills
  | skill :: rest =>
    skill_clean ← str_strip skill;
    let skill_lower := PyStr.lower skill_clean in
    if PyStr.nonempty skill_lower && negb (bool_decide (skill_lower ∈ seen))
    then unique_loop rest (unique_skills ++ [skill_clean]) ({[skill_lower]} ∪ seen)
    else unique_loop rest unique_skills seen
  end.

Definition extract_skills_with_ollama (api : ollama_api) (resume_text : string) (model : string)
  : result (list string) :=
  if negb (PyStr.nonempty resume_text) || (PyStr.len (PyStr.strip resume_text) <? 50)
  then Ok []
  else
    try_except
      (_ ← ollama_list api;
       response ← ollama_chat api model SKILL_EXTRACTION_PROMPT resume_text;
       data ← json_loads response;
       skills ← Json.get_attr data "skills" (PList []);
       items ← iterate skills;
       unique_loop items [] ∅)
      (λ _, Ok []).

Definition common_tech : list string := [
  "python"; "java"; "c++"; "go"; "golang"; "rust"; "javascript"; "typescript";
  "node.js"; "c#"; "ruby"; "php"; "swift"; "kotlin"; "scala";
  "data structures"; "algorithms"; "big o"; "dynamic programming";
  "django"; "flask"; "fastapi"; "spring boot"; "express.js"; "nest.js";
  "react"; "vue"; "angular"; "svelte"; "next.js"; "nuxt.js";
  "rest api"; "graphql"; "grpc"; "websockets";
  "postgresql"; "mysql"; "mongodb"; "redis"; "cassandra"; "dynamodb";
  "elasticsearch"; "neo4j"; "sqlite";
  "aws"; "gcp"; "azure"; "ec2"; "lambda"; "s3"; "kubernetes"; "docker";
  "git"; "jenkins"; "gitlab ci"; "github actions"; "terraform"; "ansible";
  "pytest"; "jest"; "selenium"; "cypress"; "postman";
  "machine learning"; "deep learning"; "tensorflow"; "pytorch"; "scikit-learn";
  "nlp"; "computer vision"; "langchain"; "huggingface";
  "kafka"; "airflow"; "spark"; "hadoop"; "etl";
  "linux"; "bash"; "agile"; "scrum"; "oauth"; "jwt"; "microservices"
].

(** First loop of [extract_skills_fallback]: the keywords found in the
    lowered text, title-cased. *)
Fixpoint found_loop (techs : list string) (resume_lower : string) (found_skills : list string)
  : list string :=
  match techs with
  | [] => found_skills
  | skill :: rest =>
    found_loop rest resume_lower
      (if PyStr.contains skill resume_lower
       then found_skills ++ [PyStr.title skill] else found_skills)
  end.

(** Second loop: duplicates removed, order kept. *)
Fixpoint dedup_loop (found_skills : list string) (unique_skills : list string) (seen : gset string)
  : list string :=
  match found_skills with
  | [] => unique_skills
  | skill :: rest =>
    if negb (bool_decide (PyStr.lower skill ∈ seen))
    then dedup_loop rest (unique_skills ++ [skill]) ({[PyStr.lower skill]} ∪ seen)
    else dedup_loop rest unique_skills seen
  end.

Definition extract_skills_fallback (resume_text : string) : list string :=
  let resume_lower := PyStr.lower resume_text in
  let found_skills := found_loop common_tech resume_lower [] in
  dedup_loop found_skills [] ∅.

(** The extractor calls [parse_resume] makes, in order. *)
Inductive call :=
| CallOllama (resume_text model : string)
| CallFallback (resume_text : string).

Definition outcome : Type := bool * list string * string.

Definition msg_pdf_failed : string := "Failed to extract text from PDF".
Definition msg_too_short : string := "Resume text too short - please upload a complete resume".
Definition msg_ai (n : nat) : string :=
  "✅ Extracted " +:+ PyStr.str_of_nat n +:+ " skills using AI".
Definition msg_unavailable_fallback (n : nat) : string :=
  "⚠️ Ollama unavailable - extracted " +:+ PyStr.str_of_nat n +:+ " skills using fallback method".
Definition msg_unavailable_none : string := "❌ Ollama unavailable and no skills found in fallback".
Definition msg_fallback (n : nat) : string := "Extracted " +:+ PyStr.str_of_nat n +:+ " skills".
Definition msg_none : string := "No technical skills found in resume".

Definition nonempty_list {A} (l : list A) : bool :=
  match l with [] => false | _ :: _ => true end.

(** [parse_resume], returning with the tuple the extractor calls it made. *)
Definition parse_resume (api : ollama_api) (pdf : pdf_file) (use_ollama : bool) (ollama_model : string)
  : result (outcome * list call) :=
  resume_text ← extract_text_from_pdf pdf;
  if negb (PyStr.nonempty resume_text) then
    Ok ((false, [], msg_pdf_failed), [])
  else if PyStr.len resume_text <? 100 then
    Ok ((false, [], msg_too_short), [])
  else if use_ollama then
    skills ← extract_skills_with_ollama api resume_text ollama_model;
    if nonempty_list skills then
      Ok ((true, skills, msg_ai (length skills)), [CallOllama resume_text ollama_model])
    else
      let skills := extract_skills_fallback resume_text in
      if nonempty_list skills then
        Ok ((true, skills, msg_unavailable_fallback (length skills)),
            [CallOllama resume_text ollama_model; CallFallback resume_text])
      else
        Ok ((false, [], msg_unavailable_none),
            [CallOllama resume_text ollama_model; CallFallback resume_text])
  else
    let skills := extract_skills_fallback resume_text in
    if nonempty_list skills then
      Ok ((true, skills, msg_fallback (length skills)), [CallFallback resume_text])
    else
      Ok ((false, [], msg_none), [CallFallback resume_text]).

End WithUnicode.

End ResumeParser.

(** ** The store: the table [job_openings] *)

Module Db.

(** Modelled from the spec: a row of the table
    [job_openings(id, job_title, job_url UNIQUE, raw_description,
    search_query, company, location_scraped, is_remote, job_type,
    seniority, required_skills, is_extracted)], whose DDL is not among the
    sources.  The six fields of an extraction hold the values given to the
    [UPDATE], [PNone] standing for [NULL]. *)
Record job_row := {
  id : Z;
  job_title : string;
  job_url : string;
  raw_description : string;
  search_query : option string;
  company : pyval;
  location_scraped : pyval;
  is_remote : pyval;
  job_type : pyval;
  seniority : pyval;
  required_skills : pyval;
  is_extracted : bool
}.

Abbreviation table := (list job_row).

Definition ER_DUP_ENTRY : Z := 1062.

Definition next_id (t : table) : Z := 1 + fold_right Z.max 0%Z (map id t).

Definition has_url (t : table) (url : string) : bool :=
  existsb (λ r, String.eqb (job_url r) url) t.

(** The rows whose [job_url] is [url] *)
Definition rows_with_url (t : table) (url : string) : list job_row :=
  filter (λ r, job_url r = url) t.

Definition new_row (t : table) (query : option string) (url title description : string) : job_row :=
  {| id := next_id t; job_title := title; job_url := url; raw_description := description;
     search_query := query;
     company := PNone; location_scraped := PNone; is_remote := PNone; job_type := PNone;
     seniority := PNone; required_skills := PNone; is_extracted := false |}.

(** Modelled from the spec: [job_url] is [UNIQUE], so the [INSERT] of a
    URL that a row already has is rejected with error 1062.  Any other
    failure of the server is the [fault] argument, the error number it
    raises.  [cursor.execute(INSERT ...)] and [commit()] are one step, so a
    rollback leaves the table as it was. *)
Definition execute_insert (fault : option Z) (t : table)
    (query : option string) (url title description : string) : table * result unit :=
  match fault with
  | Some errno => (t, Raise (MySQLError errno))
  | None =>
    if has_url t url then (t, Raise (MySQLError ER_DUP_ENTRY))
    else (t ++ [new_row t query url title description], Ok ())
  end.

Record extraction := {
  x_company : pyval;
  x_location_scraped : pyval;
  x_is_remote : Z;
  x_job_type : pyval;
  x_seniority : pyval;
  x_required_skills : string
}.

Definition set_extraction (vals : extraction) (r : job_row) : job_row :=
  {| id := id r; job_title := job_title r; job_url := job_url r;
     raw_description := raw_description r; search_query := search_query r;
     company := x_company vals; location_scraped := x_location_scraped vals;
     is_remote := PInt (x_is_remote vals); job_type := x_job_type vals;
     seniority := x_seniority vals; required_skills := PStr (x_required_skills vals);
     is_extracted := true |}.

(** The values that the connector converts to SQL: it refuses a list and
    a dict. *)
Definition convertible (v : pyval) : bool :=
  match v with
  | PList _ | PDict _ => false
  | _ => true
  end.

Definition convertible_values (vals : extraction) : bool :=
  convertible (x_company vals) && convertible (x_location_scraped vals) &&
  convertible (x_job_type vals) && convertible (x_seniority vals).

(** The error number of a [ProgrammingError] that the connector raises by
    itself. *)
Definition NO_ERRNO : Z := (-1)%Z.

(** [cursor.execute(UPDATE job_openings SET ... WHERE id = job_id)] and
    [commit()].  The connector converts the values first and raises a
    [ProgrammingError], an error of [mysql.connector], when it cannot;
    [fault] is the error number that the server raises, if it does. *)
Definition execute_update (fault : option Z) (t : table) (job_id : Z) (vals : extraction)
  : table * result unit :=
  if negb (convertible_values vals) then (t, Raise (MySQLError NO_ERRNO))
  else
    match fault with
    | Some errno => (t, Raise (MySQLError errno))
    | None => (map (λ r, if (id r =? job_id)%Z then set_extraction vals r else r) t, Ok ())
    end.

(** [SELECT id, raw_description FROM job_openings WHERE is_extracted = FALSE] *)
Definition select_pending (t : table) : list (Z * string) :=
  map (λ r, (id r, raw_description r)) (filter (λ r, is_extracted r = false) t).

End Db.

(** ** extractor.py *)

Module Extractor.

Definition extract_data (api : ollama_api) (raw_text : string) : result pyval :=
  try_except
    (response ← ollama_chat api "qwen2.5:14b" extraction_prompt raw_text;
     data_dict ← json_loads response;
     Ok data_dict)
    (λ _, Ok PNone).

(** The values of the [UPDATE], read from the extractor's answer. *)
Definition update_values (structured_data : pyval) : result Db.extraction :=
  skills_list ← Json.get_attr structured_data "required_skills" (PList []);
  let skills_json := Json.dumps skills_list in
  is_remote ← Json.get_attr structured_data "is_remote" (PBool false);
  let is_remote_int := if Json.truthy is_remote then 1%Z else 0%Z in
  company ← Json.get_attr structured_data "company" (PStr "Not specified");
  location_scraped ← Json.get_attr structured_data "location_scraped" (PStr "Not specified");
  job_type ← Json.get_attr structured_data "job_type" (PStr "Full-time");
  seniority ← Json.get_attr structured_data "seniority" (PStr "Not specified");
  Ok {| Db.x_company := company; Db.x_location_scraped := location_scraped;
        Db.x_is_remote := is_remote_int; Db.x_job_type := job_type;
        Db.x_seniority := seniority; Db.x_required_skills := skills_json |}.

(** One turn of the loop of [main].  The [if structured_data:] only
    prints; the [try] that follows it runs for every answer, and its
    [except] catches the errors of the database alone. *)
Definition process_job (api : ollama_api) (fault : Z → option Z)
    (job_id : Z) (raw_text : string) (t : Db.table) : Db.table * result unit :=
  match extract_data api raw_text with
  | Raise e => (t, Raise e)
  | Ok structured_data =>
    match update_values structured_data with
    | Raise e => (t, try_except_mysql (Raise e) (λ _, Ok ()))
    | Ok vals =>
      let '(t', r) := Db.execute_update (fault job_id) t job_id vals in
      (t', try_except_mysql r (λ _, Ok ()))
    end
  end.

Fixpoint process_jobs (api : ollama_api) (fault : Z → option Z)
    (jobs_to_process : list (Z * string)) (t : Db.table) : Db.table * result unit :=
  match jobs_to_process with
  | [] => (t, Ok ())
  | (job_id, raw_text) :: rest =>
    match process_job api fault job_id raw_text t with
    | (t', Ok _) => process_jobs api fault rest t'
    | (t', Raise e) => (t', Raise e)
    end
  end.

Definition main (api : ollama_api) (fault : Z → option Z) (t : Db.table) : Db.table * result unit :=
  process_jobs api fault (Db.select_pending t) t.

End Extractor.

(** ** The Page Cleaner shared by the scrapers: every noise pattern is
    replaced in turn, then whitespace is normalised. *)

Module PageCleaner.

Fixpoint remove_noise (new : string) (noise : list string) (cleaned_text : string) : string :=
  match noise with
  | [] => cleaned_text
  | pattern :: rest => remove_noise new rest (PyStr.replace pattern new cleaned_text)
  end.

Definition clean (new : string) (noise : list string) (raw_text : string) : string :=
  PyStr.join " " (PyStr.split (remove_noise new noise raw_text)).

End PageCleaner.

(** ** The browser, as the scrapers drive it

    [scroll_height] is [document.body.scrollHeight]; [scroll_to_bottom] is
    [window.scrollTo(0, document.body.scrollHeight)] and the pause after
    it; [scroll_past_bottom] scrolls 1000 pixels further; [click_show_more]
    clicks the button "Show more" when the page has one and does nothing
    otherwise. *)

Record browser (page : Type) := {
  scroll_height : page → Z;
  scroll_to_bottom : page → page;
  scroll_past_bottom : page → page;
  click_show_more : page → page
}.
Arguments scroll_height {page}.
Arguments scroll_to_bottom {page}.
Arguments scroll_past_bottom {page}.
Arguments click_show_more {page}.

(** What a loader does, in order; [Converged] is its [break]. *)
Inductive loader_event :=
| Scrolled
| ShowMoreTried
| ConfirmScrolled
| Converged.

#[global] Instance loader_event_eq_dec : EqDecision loader_event.
Proof. solve_decision. Defined.

(** The number of scrolls to the bottom in a run. *)
Definition scrolls (events : list loader_event) : nat :=
  length (filter (λ e, e = Scrolled) events).

(** The number of scroll commands in a run, those to the bottom and those
    past it. *)
Definition attempts (events : list loader_event) : nat :=
  length (filter (λ e, e = Scrolled ∨ e = ConfirmScrolled) events).

(** An [<a href=...>] of the parsed page, with [get_text(strip=True)]. *)
Record anchor := {
  href : string;
  text : string
}.

(** What opening a posting gives: [driver.get] raises, or the page has no
    body, or the body has the text [get_text(separator=' ', strip=True)]. *)
Definition fetch := string → result (option string).

Inductive log_line :=
| Saved
| DuplicateSkipped
| DatabaseError (errno : Z)
| TooShort
| NoContent
| ProcessingError.

(** ** yc_scraper.py *)

Module YcScraper.

Section WithUnicode.

Context {U : PyStr.Unicode}.

Definition MAX_SCROLLS : nat := 15.

Definition noise_patterns : list string := [
  "Menu Work at a Startup";
  "Startup Jobs Internships Upcoming Events How it Works Log In";
  "› Work at a Startup";
  "Software Engineer jobs at Y Combinator startups";
  "Find open roles and connect with founders";
  "About What Happens at YC?";
  "Apply YC Interview Guide FAQ People YC Blog";
  "Companies Startup Directory Founder Directory Launch YC";
  "Startup Jobs All Jobs ◦ Engineering ◦ Operations ◦ Marketing ◦ Sales";
  "Internships Startup Job Guide YC Startup Jobs Blog";
  "Jobs by role:";
  "Jobs by Location";
  "Sign up to see more ›"
].

Definition clean_yc_text (raw_text : string) : string :=
  PageCleaner.clean EmptyString noise_patterns raw_text.

(** The scroll loop of [scrape_yc], with [max_scrolls] attempts left: it
    stops as soon as the height read after a scroll is the last one. *)
Fixpoint scroll_loop {page} (B : browser page) (max_scrolls : nat) (last_height : Z) (p : page)
  : page * list loader_event :=
  match max_scrolls with
  | O => (p, [])
  | S n =>
    let p1 := scroll_to_bottom B p in
    let new_height := scroll_height B p1 in
    if (new_height =? last_height)%Z then (p1, [Scrolled; Converged])
    else
      let '(p', events) := scroll_loop B n new_height p1 in
      (p', Scrolled :: events)
  end.

Definition load_page {page} (B : browser page) (max_scrolls : nat) (p : page)
  : page * list loader_event :=
  scroll_loop B max_scrolls (scroll_height B p) p.

Definition target_roles : list string :=
  ["engineer"; "developer"; "backend"; "frontend"; "full stack"; "python"; "ai";
   "machine learning"; "data"].

Definition exclude_roles : list string :=
  ["sales"; "marketing"; "account executive"; "recruiter"; "design"; "operations"; "customer"].

Definition full_url_of (href : string) : string :=
  if PyStr.startswith "http" href then href
  else "https://www.workatastartup.com" +:+ href.

(** The loop over the anchors of the listing. *)
Fixpoint links_loop (links : list anchor) (job_links : list (string * string))
    (seen_urls : gset string) : list (string * string) :=
  match links with
  | [] => job_links
  | link :: rest =>
    if negb (PyStr.nonempty (href link)) then links_loop rest job_links seen_urls
    else
      let full_url := full_url_of (href link) in
      if negb (PyStr.contains "/jobs/" full_url) || negb (PyStr.has_digit full_url)
      then links_loop rest job_links seen_urls
      else
        let full_url := PyStr.split_first "?" full_url in
        if bool_decide (full_url ∈ seen_urls) then links_loop rest job_links seen_urls
        else
          let title := text link in
          if negb (PyStr.nonempty title) then links_loop rest job_links seen_urls
          else
            let title_lower := PyStr.lower title in
            if PyStr.any_in exclude_roles title_lower then links_loop rest job_links seen_urls
            else if negb (PyStr.any_in target_roles title_lower)
            then links_loop rest job_links seen_urls
            else links_loop rest (job_links ++ [(title, full_url)]) ({[full_url]} ∪ seen_urls)
  end.

Definition job_links_of (links : list anchor) : list (string * string) :=
  links_loop links [] ∅.

(** The [INSERT] of one posting and what is printed about it. *)
Definition insert_job (fault : option Z) (t : Db.table) (job_url job_title clean_text : string)
  : Db.table * result log_line :=
  let '(t', r) := Db.execute_insert fault t (Some "YC Scraper") job_url job_title clean_text in
  (t', try_except_mysql (_ ← r; Ok Saved)
         (λ errno, if (errno =? 1062)%Z then Ok DuplicateSkipped else Ok (DatabaseError errno))).

(** One turn of the loop over [job_links]. *)
Definition process_link (get : fetch) (fault : option Z) (t : Db.table)
    (job_title job_url : string) : Db.table * result log_line :=
  match get job_url with
  | Raise _ => (t, Ok ProcessingError)
  | Ok None => (t, Ok NoContent)
  | Ok (Some raw_text) =>
    let clean_text := clean_yc_text raw_text in
    if PyStr.len clean_text <? 200 then (t, Ok TooShort)
    else
      let '(t', r) := insert_job fault t job_url job_title clean_text in
      (t', try_except r (λ _, Ok ProcessingError))
  end.

End WithUnicode.

End YcScraper.

(** ** wellfound_scraper.py *)

Module WellfoundScraper.

Section WithUnicode.

Context {U : PyStr.Unicode}.

Definition MAX_SCROLLS : nat := 20.

Definition site_noise : list string := [
  "Wellfound"; "Overview"; "Jobs"; "About us"; "Reviews"; "Recommended for you";
  "Apply now"; "Save"; "Share"; "Recruiters from this company"; "Browse by:";
  "Hiring now"; "Login"; "Sign Up"
].

Definition clean_wellfound_text (raw_text : string) : string :=
  PageCleaner.clean " " site_noise raw_text.

(** The scroll loop of [scrape_wellfound]: when the height read after a
    scroll is the last one, it scrolls once more, past the bottom, and
    stops if the height is still the last one. *)
Fixpoint scroll_loop {page} (B : browser page) (max_scrolls : nat) (last_height : Z) (p : page)
  : page * list loader_event :=
  match max_scrolls with
  | O => (p, [])
  | S n =>
    let p1 := scroll_to_bottom B p in
    let new_height := scroll_height B p1 in
    let p2 := click_show_more B p1 in
    if (new_height =? last_height)%Z then
      let p3 := scroll_past_bottom B p2 in
      if (scroll_height B p3 =? last_height)%Z
      then (p3, [Scrolled; ShowMoreTried; ConfirmScrolled; Converged])
      else
        let '(p', events) := scroll_loop B n new_height p3 in
        (p', Scrolled :: ShowMoreTried :: ConfirmScrolled :: events)
    else
      let '(p', events) := scroll_loop B n new_height p2 in
      (p', Scrolled :: ShowMoreTried :: events)
  end.

Definition load_page {page} (B : browser page) (max_scrolls : nat) (p : page)
  : page * list loader_event :=
  scroll_loop B max_scrolls (scroll_height B p) p.

Definition target_roles : list string :=
  ["engineer"; "developer"; "backend"; "frontend"; "full stack"; "python"; "ai";
   "machine learning"; "data"].

Definition full_url_of (href : string) : string :=
  if PyStr.startswith "http" href then href
  else "https://wellfound.com" +:+ href.

Fixpoint links_loop (links : list anchor) (job_links : list (string * string))
    (processed_urls : gset string) : list (string * string) :=
  match links with
  | [] => job_links
  | link :: rest =>
    if negb (PyStr.contains "/jobs/" (href link)) then links_loop rest job_links processed_urls
    else
      let full_url := full_url_of (href link) in
      let full_url := PyStr.split_first "?" full_url in
      if bool_decide (full_url ∈ processed_urls) then links_loop rest job_links processed_urls
      else
        let title := text link in
        if negb (PyStr.nonempty title) then links_loop rest job_links processed_urls
        else
          let title_lower := PyStr.lower title in
          if negb (PyStr.any_in target_roles title_lower)
          then links_loop rest job_links processed_urls
          else links_loop rest (job_links ++ [(title, full_url)]) ({[full_url]} ∪ processed_urls)
  end.

Definition job_links_of (links : list anchor) : list (string * string) :=
  links_loop links [] ∅.

Definition insert_job (fault : option Z) (t : Db.table) (job_url job_title clean_text : string)
  : Db.table * result log_line :=
  let '(t', r) := Db.execute_insert fault t (Some "Wellfound Scraper") job_url job_title clean_text in
  (t', try_except_mysql (_ ← r; Ok Saved)
         (λ errno, if (errno =? 1062)%Z then Ok DuplicateSkipped else Ok (DatabaseError errno))).

Definition process_link (get : fetch) (fault : option Z) (t : Db.table)
    (job_title job_url : string) : Db.table * result log_line :=
  match get job_url with
  | Raise _ => (t, Ok ProcessingError)
  | Ok None => (t, Ok NoContent)
  | Ok (Some raw_text) =>
    let clean_text := clean_wellfound_text raw_text in
    if PyStr.len clean_text <? 500 then (t, Ok TooShort)
    else
      let '(t', r) := insert_job fault t job_url job_title clean_text in
      (t', try_except r (λ _, Ok ProcessingError))
  end.

End WithUnicode.

End WellfoundScraper.

(** ** job_agent.py *)

Module JobAgent.

(** An element [a[href^='/jobs/']] of the result page: reading it raises
    (the element went stale), or gives [get_attribute("href")], which may
    be [None], and [text]. *)
Record web_element := {
  we_href : option string;
  we_text : string
}.

Definition link_ok (href title : string) (seen_urls : gset string) : bool :=
  PyStr.nonempty href && negb (bool_decide (href ∈ seen_urls)) &&
  (5 <=? PyStr.count_char "/" href) && negb (PyStr.contains "jobs/all" href) &&
  PyStr.nonempty title.

Fixpoint _extract_job_links_loop (potential_links : list (result web_element))
    (valid_links : list (string * string)) (seen_urls : gset string) : list (string * string) :=
  match potential_links with
  | [] => valid_links
  | link :: rest =>
    match link with
    | Raise _ => _extract_job_links_loop rest valid_links seen_urls
    | Ok e =>
      let title := PyStr.strip (we_text e) in
      match we_href e with
      | Some href =>
        if link_ok href title seen_urls
        then _extract_job_links_loop rest (valid_links ++ [(title, href)]) ({[href]} ∪ seen_urls)
        else _extract_job_links_loop rest valid_links seen_urls
      | None => _extract_job_links_loop rest valid_links seen_urls
      end
    end
  end.

Definition _extract_job_links (potential_links : list (result web_element))
  : list (string * string) :=
  _extract_job_links_loop potential_links [] ∅.

Definition _save_job_to_db (fault : option Z) (t : Db.table)
    (search_term job_url job_title description : string) : Db.table * result bool :=
  let '(t', r) := Db.execute_insert fault t None job_url job_title description in
  (t', try_except_mysql (_ ← r; Ok true)
         (λ errno, if (errno =? 1062)%Z then Ok false else Ok false)).

End JobAgent.

(** ** More of Python's library, for the rest of [job_agent.py] *)

Module PyLib.

(** [s.split(c)] for a one-character [c]: the empty text gives one empty
    item, and two separators in a row an empty item between them. *)
Fixpoint split_sep_go (c : ascii) (item : string) (s : string) : list string :=
  match s with
  | EmptyString => [item]
  | String d r =>
    if Ascii.eqb c d then item :: split_sep_go c EmptyString r
    else split_sep_go c (item +:+ String d EmptyString) r
  end.
Definition split_sep (c : ascii) (s : string) : list string := split_sep_go c EmptyString s.

(** The characters [urllib.parse.quote] never escapes. *)
Definition is_unreserved (c : ascii) : bool :=
  let n := N_of_ascii c in
  ((48 <=? n) && (n <=? 57) || (65 <=? n) && (n <=? 90) || (97 <=? n) && (n <=? 122) ||
   (n =? 95) || (n =? 46) || (n =? 45) || (n =? 126))%N.

Definition hex_upper (n : N) : ascii :=
  ascii_of_N (if (n <? 10)%N then 48 + n else 55 + n).

Definition quote_char (c : ascii) : string :=
  let n := N_of_ascii c in
  if is_unreserved c then String c EmptyString
  else if Ascii.eqb c " " then "+"
  else String "%" (String (hex_upper (n / 16)) (String (hex_upper (n mod 16)) EmptyString)).

(** [urllib.parse.quote_plus(s)], on the bytes of [s] *)
Fixpoint quote_plus (s : string) : string :=
  match s with
  | EmptyString => EmptyString
  | String c r => quote_char c +:+ quote_plus r
  end.

(** A value of the dict given to [urlencode]: a string or a list of strings. *)
Inductive param :=
| One (v : string)
| Many (vs : list string).

Definition encode_pair (k v : string) : string := quote_plus k +:+ "=" +:+ quote_plus v.

Definition encode_param (kv : string * param) : list string :=
  match snd kv with
  | One v => [encode_pair (fst kv) v]
  | Many vs => map (encode_pair (fst kv)) vs
  end.

(** [urllib.parse.urlencode(params, doseq=True)] on the items of [params] *)
Definition urlencode (params : list (string * param)) : string :=
  PyStr.join "&" (concat (map encode_param params)).

End PyLib.

(** ** job_agent.py, the rest of the class [RemoteJobScraper] *)

Module RemoteJobScraper.

(** The dict [filters]; [None] stands for a key that was not set. *)
Record filters := {
  search_term : string;
  country : string;
  employment_types : option (list string);
  locations : option (list string);
  seniorities : option (list string)
}.

(** The five lines that [input()] returns, in the order they are asked. *)
Record typed_lines := {
  typed_search_term : string;
  typed_country : string;
  typed_employment_types : string;
  typed_locations : string;
  typed_seniorities : string
}.

Definition employment_type_options : list string := ["full_time"; "part_time"; "contractor"].
Definition location_options : list string := ["remote"; "hybrid"; "on_site"].
Definition seniority_options : list string :=
  ["entry_level"; "mid_level"; "senior"; "manager"; "director"; "executive"].

Section Filters.

Context {U : PyStr.Unicode}.

(** One turn of the loop over [filter_options]. *)
Definition read_options (options : list string) (line : string) : option (list string) :=
  let user_input := PyStr.lower (PyStr.strip line) in
  if PyStr.nonempty user_input
  then Some (map PyStr.strip
               (filter (λ item, PyStr.strip item ∈ options) (PyLib.split_sep "," user_input)))
  else None.

Definition _get_search_filters (typed : typed_lines) : filters :=
  {| search_term := PyStr.strip (typed_search_term typed);
     country := PyStr.upper (PyStr.strip (typed_country typed));
     employment_types := read_options employment_type_options (typed_employment_types typed);
     locations := read_options location_options (typed_locations typed);
     seniorities := read_options seniority_options (typed_seniorities typed) |}.

End Filters.

(** [if filters.get(key): params[name] = filters[key]] for a list *)
Definition list_param (name : string) (v : option (list string)) : list (string * PyLib.param) :=
  match v with
  | Some (x :: l) => [(name, PyLib.Many (x :: l))]
  | _ => []
  end.

(** The same for a string *)
Definition str_param (name : string) (v : string) : list (string * PyLib.param) :=
  if PyStr.nonempty v then [(name, PyLib.One v)] else [].

Definition base_url : string := "https://remote.com/jobs/all".

Definition search_params (f : filters) : list (string * PyLib.param) :=
  str_param "query" (search_term f) ++
  str_param "country" (country f) ++
  list_param "employmentType" (employment_types f) ++
  list_param "workplaceLocation" (locations f) ++
  list_param "seniority" (seniorities f).

Definition _build_search_url (f : filters) : string :=
  let query_string := PyLib.urlencode (search_params f) in
  base_url +:+ "?" +:+ query_string.

Definition noise_phrases : list string := [
  "Your choice regarding cookies on this site";
  "We use cookies to personalize content"
].

(** [_scrape_job_details]: [None] stands for the [False] it returns when
    the page has no body. *)
Definition _scrape_job_details (get : fetch) (job_title job_url : string)
  : result (option string) :=
  body ← get job_url;
  match body with
  | None => Ok None
  | Some job_description =>
    Ok (Some (PyStr.strip (PageCleaner.remove_noise EmptyString noise_phrases job_description)))
  end.

(** What [run] prints about its progress. *)
Inductive run_line :=
| Searching (search_url : string)
| Found (postings : nat)
| LineSaved
| LineDuplicate
| LineFailed
| Summary (successful_saves postings : nat)
| ScrapingFailed.

#[global] Instance run_line_eq_dec : EqDecision run_line.
Proof. solve_decision. Defined.

(** The loop of [run] over [job_links]: the table, the lines printed, and
    the count of saves or the exception that ended the loop. *)
Fixpoint save_loop (get : fetch) (fault : string → option Z) (term : string)
    (job_links : list (string * string)) (t : Db.table) (successful_saves : nat)
  : Db.table * list run_line * result nat :=
  match job_links with
  | [] => (t, [], Ok successful_saves)
  | (title, url) :: rest =>
    match _scrape_job_details get title url with
    | Raise e => (t, [], Raise e)
    | Ok description =>
      match description with
      | Some (String c d) =>
        match JobAgent._save_job_to_db (fault url) t term url title (String c d) with
        | (t', Ok true) =>
          let '(t'', lines, r) := save_loop get fault term rest t' (S successful_saves) in
          (t'', LineSaved :: lines, r)
        | (t', Ok false) =>
          let '(t'', lines, r) := save_loop get fault term rest t' successful_saves in
          (t'', LineDuplicate :: lines, r)
        | (t', Raise e) => (t', [], Raise e)
        end
      | _ =>
        let '(t', lines, r) := save_loop get fault term rest t successful_saves in
        (t', LineFailed :: lines, r)
      end
    end
  end.

Section Run.

Context {U : PyStr.Unicode}.

(** [run]: [found] is what waiting for the result page and reading its
    links gives, an exception standing for any failure of the browser up to
    there; every exception ends the run with the line that scraping
    failed. *)
Definition run (typed : typed_lines) (found : result (list (result JobAgent.web_element)))
    (get : fetch) (fault : string → option Z) (t : Db.table) : Db.table * list run_line :=
  let filters := _get_search_filters typed in
  let search_url := _build_search_url filters in
  match found with
  | Raise _ => (t, [Searching search_url; ScrapingFailed])
  | Ok potential_links =>
    let job_links := JobAgent._extract_job_links potential_links in
    let '(t', lines, r) := save_loop get fault (search_term filters) job_links t 0 in
    (t', Searching search_url :: Found (length job_links) :: lines ++
         [match r with
          | Ok successful_saves => Summary successful_saves (length job_links)
          | Raise _ => ScrapingFailed
          end])
  end.

End Run.

End RemoteJobScraper.

(** ** yc_scraper.py and wellfound_scraper.py, the runs

    [anchors_of] is what BeautifulSoup finds in the page source,
    [fault url] the failure of the server, if any, at the insert of
    [url]. *)

#[global] Instance log_line_eq_dec : EqDecision log_line.
Proof. solve_decision. Defined.

Module YcRun.

Section WithUnicode.

Context {U : PyStr.Unicode}.

Fixpoint process_links (get : fetch) (fault : string → option Z)
    (job_links : list (string * string)) (t : Db.table) : Db.table * result (list log_line) :=
  match job_links with
  | [] => (t, Ok [])
  | (job_title, job_url) :: rest =>
    match YcScraper.process_link get (fault job_url) t job_title job_url with
    | (t', Ok line) =>
      let '(t'', r) := process_links get fault rest t' in
      (t'', lines ← r; Ok (line :: lines))
    | (t', Raise e) => (t', Raise e)
    end
  end.

Definition scrape_yc {page} (B : browser page) (anchors_of : page → list anchor)
    (get : fetch) (fault : string → option Z) (p : page) (t : Db.table)
  : Db.table * result (list log_line) :=
  let '(loaded, _) := YcScraper.load_page B YcScraper.MAX_SCROLLS p in
  let job_links := YcScraper.job_links_of (anchors_of loaded) in
  process_links get fault job_links t.

End WithUnicode.

End YcRun.

Module WellfoundRun.

Section WithUnicode.

Context {U : PyStr.Unicode}.

Fixpoint process_links (get : fetch) (fault : string → option Z)
    (job_links : list (string * string)) (t : Db.table) : Db.table * result (list log_line) :=
  match job_links with
  | [] => (t, Ok [])
  | (job_title, job_url) :: rest =>
    match WellfoundScraper.process_link get (fault job_url) t job_title job_url with
    | (t', Ok line) =>
      let '(t'', r) := process_links get fault rest t' in
      (t'', lines ← r; Ok (line :: lines))
    | (t', Raise e) => (t', Raise e)
    end
  end.

(** [window_handles] is what the browser gives after the manual login: an
    exception stands for any failure of the reconnection. *)
Definition scrape_wellfound {page} (B : browser page) (anchors_of : page → list anchor)
    (window_handles : result (list string))
    (get : fetch) (fault : string → option Z) (p : page) (t : Db.table)
  : Db.table * result (list log_line) :=
  match window_handles with
  | Raise _ => (t, Ok [])
  | Ok [] => (t, Ok [])
  | Ok (_ :: _) =>
    let '(loaded, _) := WellfoundScraper.load_page B WellfoundScraper.MAX_SCROLLS p in
    let job_links := WellfoundScraper.job_links_of (anchors_of loaded) in
    process_links get fault job_links t
  end.

End WithUnicode.

End WellfoundRun.

(** ** Notions used in the statements *)

(** The backend cannot be reached: [ollama.list()] or [ollama.chat] raises. *)
Definition unreachable (api : ollama_api) (model resume_text : string) : Prop :=
  (∃ e, ollama_list api = Raise e) ∨
  (∃ e, ollama_chat api model SKILL_EXTRACTION_PROMPT resume_text = Raise e).

(** A soft failure of the skills extraction: the backend cannot be reached,
    its reply is not JSON, or it is an object whose [skills] are missing
    or empty. *)
Definition soft_failure (api : ollama_api) (model resume_text : string) : Prop :=
  unreachable api model resume_text ∨
  ollama_chat api model SKILL_EXTRACTION_PROMPT resume_text = Ok NotJSON ∨
  (∃ d, ollama_chat api model SKILL_EXTRACTION_PROMPT resume_text = Ok (Parsed (PDict d)) ∧
        Json.get d "skills" (PList []) = PList []).

Section OutcomeNotions.

Context {U : PyStr.Unicode}.

(** What [parse_resume] returns once the inference path has given nothing. *)
Definition fallback_outcome (resume_text : string) : ResumeParser.outcome :=
  let skills := ResumeParser.extract_skills_fallback resume_text in
  if ResumeParser.nonempty_list skills
  then (true, skills, ResumeParser.msg_unavailable_fallback (length skills))
  else (false, [], ResumeParser.msg_unavailable_none).

(** What [parse_resume] returns with [use_ollama=False]. *)
Definition direct_outcome (resume_text : string) : ResumeParser.outcome :=
  let skills := ResumeParser.extract_skills_fallback resume_text in
  if ResumeParser.nonempty_list skills
  then (true, skills, ResumeParser.msg_fallback (length skills))
  else (false, [], ResumeParser.msg_none).

End OutcomeNotions.

Definition message_of (o : ResumeParser.outcome) : string := snd o.
Definition skills_of (o : ResumeParser.outcome) : list string := snd (fst o).

(** Written from the specification: the entries of [l] whose key no earlier
    entry has, in the order of [l]. *)
Fixpoint first_occurrences (key : string → string) (earlier l : list string) : list string :=
  match l with
  | [] => []
  | x :: r =>
    if bool_decide (key x ∈ key <$> earlier)
    then first_occurrences key (earlier ++ [x]) r
    else x :: first_occurrences key (earlier ++ [x]) r
  end.

(** [sub] occurs in [s]. *)
Definition occurs_in (sub s : string) : Prop :=
  ∃ before after, s = before +:+ sub +:+ after.

(** No whitespace character occurs in [s]. *)
Definition no_space (s : string) : bool :=
  forallb (λ x, negb (PyStr.contains x s)) PyStr.whitespace.

(** A word: not empty and without whitespace. *)
Definition is_word (w : string) : Prop :=
  PyStr.nonempty w = true ∧ no_space w = true.

(** [s] starts, respectively ends, with a whitespace character. *)
Definition first_is_space (s : string) : bool :=
  existsb (λ x, String.prefix x s) PyStr.whitespace.

Definition last_is_space (s : string) : bool :=
  existsb (λ x, PyStr.endswith x s) PyStr.whitespace.

(** The same notions for the whitespace characters of ASCII alone, each of
    which is one byte: what the splitter [split_go] sees. *)
Fixpoint no_ascii_space (s : string) : bool :=
  match s with
  | EmptyString => true
  | String c r => negb (PyStr.is_ascii_space c) && no_ascii_space r
  end.

Definition is_ascii_word (w : string) : Prop :=
  PyStr.nonempty w = true ∧ no_ascii_space w = true.

Fixpoint has_ascii_space_run (s : string) : bool :=
  match s with
  | EmptyString => false
  | String c r =>
    match r with
    | EmptyString => false
    | String d _ => PyStr.is_ascii_space c && PyStr.is_ascii_space d || has_ascii_space_run r
    end
  end.

Definition first_is_ascii_space (s : string) : bool :=
  match s with
  | EmptyString => false
  | String c _ => PyStr.is_ascii_space c
  end.

Fixpoint last_is_ascii_space (s : string) : bool :=
  match s with
  | EmptyString => false
  | String c r => if PyStr.nonempty r then last_is_ascii_space r else PyStr.is_ascii_space c
  end.

Fixpoint ascii_spaces_plain (s : string) : bool :=
  match s with
  | EmptyString => true
  | String c r => (negb (PyStr.is_ascii_space c) || Ascii.eqb c " ") && ascii_spaces_plain r
  end.

(** [s[n:]] *)
Fixpoint str_drop (n : nat) (s : string) : string :=
  match n, s with
  | S k, String _ r => str_drop k r
  | _, _ => s
  end.

(** What the loops over the anchors maintain: the URLs collected are
    distinct, they are the members of the set, and each satisfies [P]. *)
Definition links_invariant (P : string → Prop)
    (job_links : list (string * string)) (seen : gset string) : Prop :=
  NoDup (snd <$> job_links) ∧
  (∀ u, u ∈ seen ↔ u ∈ snd <$> job_links) ∧
  Forall (λ l, P (snd l)) job_links.

(** [url] has no query string. *)
Definition query_stripped (url : string) : Prop := PyStr.split_first "?" url = url.

(** [v] is a JSON object. *)
Definition is_object (v : pyval) : bool :=
  match v with PDict _ => true | _ => false end.

(** The [UPDATE] of a row with [vals] goes through: the connector can
    convert the values and the server does not fail. *)
Definition update_stored (fault : option Z) (vals : Db.extraction) : bool :=
  Db.convertible_values vals && bool_decide (fault = None).

(** The values that [main] reads from the answer to a description, when the
    answer is a JSON object. *)
Definition values_for (api : ollama_api) (raw_text : string) : option Db.extraction :=
  match Extractor.extract_data api raw_text with
  | Ok structured_data =>
    match Extractor.update_values structured_data with
    | Ok vals => Some vals
    | Raise _ => None
    end
  | Raise _ => None
  end.

(** The [UPDATE] that [main] makes for the row [r] goes through. *)
Definition update_goes_through (api : ollama_api) (fault : Z → option Z) (r : Db.job_row) : bool :=
  match values_for api (Db.raw_description r) with
  | Some vals => update_stored (fault (Db.id r)) vals
  | None => false
  end.

(** The fields of a row that a scraper sets. *)
Definition scraped_fields (r : Db.job_row)
  : Z * string * string * string * option string :=
  (Db.id r, Db.job_title r, Db.job_url r, Db.raw_description r, Db.search_query r).

(** The pairs of [l] whose URL is neither in [seen] nor in an earlier pair
    of [l]. *)
Fixpoint keep_new (seen : gset string) (l : list (string * string)) : list (string * string) :=
  match l with
  | [] => []
  | (title, url) :: r =>
    if bool_decide (url ∈ seen) then keep_new seen r
    else (title, url) :: keep_new ({[url]} ∪ seen) r
  end.

Section CandidateNotions.

Context {U : PyStr.Unicode}.

(** The tests of the loop of [scrape_yc] on one anchor, the set left
    aside, and the pair it makes of the anchor. *)
Definition yc_candidate (link : anchor) : option (string * string) :=
  let full_url := YcScraper.full_url_of (href link) in
  if PyStr.nonempty (href link) && PyStr.contains "/jobs/" full_url && PyStr.has_digit full_url &&
     PyStr.nonempty (text link) &&
     negb (PyStr.any_in YcScraper.exclude_roles (PyStr.lower (text link))) &&
     PyStr.any_in YcScraper.target_roles (PyStr.lower (text link))
  then Some (text link, PyStr.split_first "?" full_url)
  else None.

(** The same for the loop of [scrape_wellfound]. *)
Definition wellfound_candidate (link : anchor) : option (string * string) :=
  if PyStr.contains "/jobs/" (href link) && PyStr.nonempty (text link) &&
     PyStr.any_in WellfoundScraper.target_roles (PyStr.lower (text link))
  then Some (text link, PyStr.split_first "?" (WellfoundScraper.full_url_of (href link)))
  else None.

End CandidateNotions.

(** The same for the loop of [_extract_job_links]. *)
Definition job_agent_candidate (link : result JobAgent.web_element) : option (string * string) :=
  match link with
  | Ok e =>
    match JobAgent.we_href e with
    | Some href =>
      if PyStr.nonempty href && (5 <=? PyStr.count_char "/" href) &&
         negb (PyStr.contains "jobs/all" href) && PyStr.nonempty (PyStr.strip (JobAgent.we_text e))
      then Some (PyStr.strip (JobAgent.we_text e), href)
      else None
    | None => None
    end
  | Raise _ => None
  end.

(** What a run of a scraper stores for the links it processes. *)
Definition stored_by (query : string) (least : nat) (clean : string → string)
    (get : fetch) (fault : string → option Z) (job_links : list (string * string))
    (t : Db.table) (row : Db.job_row) : Prop :=
  ∃ raw,
    (Db.job_title row, Db.job_url row) ∈ job_links ∧
    get (Db.job_url row) = Ok (Some raw) ∧
    fault (Db.job_url row) = None ∧
    Db.raw_description row = clean raw ∧
    least ≤ PyStr.len (Db.raw_description row) ∧
    Db.search_query row = Some query ∧
    Db.is_extracted row = false ∧
    Db.job_url row ∉ Db.job_url <$> t.

(** What a run of [job_agent.py] stores for the links it processes. *)
Definition saved_by_agent (get : fetch) (fault : string → option Z)
    (job_links : list (string * string)) (t : Db.table) (row : Db.job_row) : Prop :=
  ∃ raw,
    (Db.job_title row, Db.job_url row) ∈ job_links ∧
    get (Db.job_url row) = Ok (Some raw) ∧
    fault (Db.job_url row) = None ∧
    Db.raw_description row
      = PyStr.strip (PageCleaner.remove_noise EmptyString RemoteJobScraper.noise_phrases raw) ∧
    PyStr.nonempty (Db.raw_description row) = true ∧
    Db.search_query row = None ∧
    Db.is_extracted row = false ∧
    Db.job_url row ∉ Db.job_url <$> t.

(** The lines that [run] prints in its loop, one per posting. *)
Definition posting_line (line : RemoteJobScraper.run_line) : Prop :=
  line = RemoteJobScraper.LineSaved ∨ line = RemoteJobScraper.LineDuplicate ∨
  line = RemoteJobScraper.LineFailed.

(** Every character of [s] passes the test [p]. *)
Fixpoint str_forall (p : ascii → bool) (s : string) : bool :=
  match s with
  | EmptyString => true
  | String c r => p c && str_forall p r
  end.

(** The characters of an encoded query string: those that are never
    escaped, and [+], [%], [&], [=]. *)
Definition query_safe (c : ascii) : bool :=
  PyLib.is_unreserved c || Ascii.eqb c "+" || Ascii.eqb c "%" || Ascii.eqb c "&" ||
  Ascii.eqb c "=".

(** ** Sample inputs *)

(** The tables of an interpreter that knows ASCII only.  The sample texts
    that are lowered or searched for a digit are ASCII texts, on which
    Python's tables give the same. *)
Definition ascii_only : PyStr.Unicode.
Proof.
  refine {| PyStr.lower := PyStr.ascii_lower; PyStr.upper := PyStr.ascii_upper;
            PyStr.has_digit := PyStr.ascii_has_digit |}.
  - reflexivity.
  - intros s. by destruct s.
  - intros a w b _. exists (PyStr.ascii_lower a), (PyStr.ascii_lower b).
    assert (∀ x y, PyStr.ascii_lower (x +:+ y) = PyStr.ascii_lower x +:+ PyStr.ascii_lower y)
      as Happ.
    { intros x y. induction x as [|c x IH]; [done|].
      change (String c x +:+ y) with (String c (x +:+ y)).
      cbn [PyStr.ascii_lower]. by rewrite IH. }
    by rewrite !Happ.
  - reflexivity.
  - reflexivity.
Defined.

(** A backend that cannot be reached, and one that gives the same reply
    to every request. *)
Definition api_down : ollama_api :=
  {| ollama_list := Raise ConnectionError; ollama_chat := λ _ _ _, Raise ConnectionError |}.

Definition api_reply (c : content) : ollama_api :=
  {| ollama_list := Ok (); ollama_chat := λ _ _ _, Ok c |}.

(** A decoded text of 100 characters. *)
Definition resume_100 : string :=
  "Backend developer, 5 years: Python, Django, REST API design, AWS and Docker; some Golang at Acme Ltd".

(** A decoded text of 99 characters in 100 bytes: the [é] takes two. *)
Definition resume_99_accented : string :=
  "Backend developer, 5 years: Python, Django, REST API design, AWS and Docker; some Golang at Café Co".

Definition wellfound_sample : string :=
  "Wellfound  Jobs  Senior Backend Engineer  Apply now  Save".

Definition pdf_of (text : string) : ResumeParser.pdf_file := Ok [Ok text].

Definition no_fault : Z → option Z := λ _, None.

Definition qwen : string := "qwen2.5:14b".

(** A posting as [job_agent.py] stores it, not yet extracted. *)
Definition pending_row : Db.job_row :=
  Db.new_row [] None "https://remote.com/jobs/acme/backend-engineer-71"
    "Backend Engineer" "Acme is hiring a backend engineer who knows Python.".

(** The defaults of [update_values], for an answer without any field. *)
Definition default_extraction : Db.extraction :=
  {| Db.x_company := PStr "Not specified"; Db.x_location_scraped := PStr "Not specified";
     Db.x_is_remote := 0; Db.x_job_type := PStr "Full-time";
     Db.x_seniority := PStr "Not specified"; Db.x_required_skills := "[]" |}.

(** A page given by the number of scrolls made so far, whose height is
    100 at the start, 100 after the first scroll and 100 from then on. *)
Definition fixed_page : browser nat :=
  {| scroll_height := λ n, nth n [100%Z; 100%Z] 100%Z;
     scroll_to_bottom := S;
     scroll_past_bottom := S;
     click_show_more := λ n, n |}.

(** Reduces the binds of [result] and nothing else. *)
Ltac run_result := cbv beta iota zeta delta [mbind result_bind mret result_ret try_except].
Tactic Notation "run_result" "in" hyp(H) :=
  cbv beta iota zeta delta [mbind result_bind mret result_ret try_except] in H.

(** * Properties *)

(** ** Strings *)

Section Strings.

Lemma str_app_nil_l s : EmptyString +:+ s = s.
Proof. reflexivity. Qed.

Lemma str_app_cons c s t : String c s +:+ t = String c (s +:+ t).
Proof. reflexivity. Qed.

Lemma str_app_nil_r s : s +:+ EmptyString = s.
Proof. induction s as [|c s IH]; [done|]. by rewrite str_app_cons, IH. Qed.

Lemma str_app_assoc a b c : (a +:+ b) +:+ c = a +:+ b +:+ c.
Proof. induction a as [|x a IH]; [done|]. by rewrite !str_app_cons, IH. Qed.

Lemma prefix_spec p s : String.prefix p s = true ↔ ∃ rest, s = p +:+ rest.
Proof.
  revert s. induction p as [|c p IH]; intros s.
  - split; [intros _; by exists s|]. by destruct s.
  - destruct s as [|d s]; simpl.
    + split; [done|]. intros [rest H]. by rewrite str_app_cons in H.
    + destruct (ascii_dec c d) as [->|Hcd].
      * rewrite IH. split; intros [rest H]; exists rest.
        -- by rewrite str_app_cons, H.
        -- rewrite str_app_cons in H. by injection H.
      * split; [done|]. intros [rest H]. rewrite str_app_cons in H. by injection H.
Qed.

Lemma occurs_in_refl s : occurs_in s s.
Proof. exists EmptyString, EmptyString. by rewrite str_app_nil_l, str_app_nil_r. Qed.

Lemma occurs_in_cons sub c s : occurs_in sub s → occurs_in sub (String c s).
Proof. intros (a & b & ->). exists (String c a), b. by rewrite str_app_cons. Qed.

Lemma occurs_in_app_l sub a s : occurs_in sub s → occurs_in sub (a +:+ s).
Proof.
  induction a as [|c a IH]; [done|]. intros H. rewrite str_app_cons.
  by apply occurs_in_cons, IH.
Qed.

Lemma occurs_in_app_r sub s b : occurs_in sub s → occurs_in sub (s +:+ b).
Proof.
  intros (a & b' & ->). exists a, (b' +:+ b). by rewrite !str_app_assoc.
Qed.

Lemma occurs_in_trans a b c : occurs_in a b → occurs_in b c → occurs_in a c.
Proof.
  intros (x & y & ->) (x' & y' & ->).
  by apply occurs_in_app_l, occurs_in_app_r, occurs_in_app_l, occurs_in_app_r, occurs_in_refl.
Qed.

(** [sub in s] holds exactly when [sub] occurs in [s]. *)
Lemma contains_spec sub s : PyStr.contains sub s = true ↔ occurs_in sub s.
Proof.
  induction s as [|c s IH]; cbn [PyStr.contains].
  - rewrite orb_false_r, prefix_spec. split.
    + intros [rest H]. exists EmptyString, rest. by rewrite str_app_nil_l.
    + intros (a & b & H). destruct a; [by exists b|]. by rewrite str_app_cons in H.
  - rewrite orb_true_iff, IH, prefix_spec. split.
    + intros [[rest H]|H]; [|by apply occurs_in_cons].
      exists EmptyString, rest. by rewrite str_app_nil_l.
    + intros (a & b & H). destruct a as [|d a].
      * left. by exists b.
      * right. rewrite str_app_cons in H. injection H as _ ->. by exists a, b.
Qed.

(** Where the lowered form of a part of a text is ASCII, it occurs in the
    lowered text. *)
Lemma lower_occurs {U : PyStr.Unicode} w s :
  occurs_in w s → PyStr.is_ascii (PyStr.lower w) = true →
  occurs_in (PyStr.lower w) (PyStr.lower s).
Proof.
  intros (a & b & ->) Hw. destruct (PyStr.lower_part a w b Hw) as (a' & b' & ->).
  by exists a', b'.
Qed.

End Strings.

(** ** Lists *)

Section Lists.

Context {A : Type} `{EqDecision A}.

Lemma filter_eq_absent (x : A) (l : list A) : x ∉ l → filter (λ y, y = x) l = [].
Proof.
  induction l as [|y l IH]; [done|]. intros Hx.
  rewrite filter_cons_False; [apply IH|]; set_solver.
Qed.

Lemma filter_eq_once (x : A) (l : list A) :
  NoDup l → x ∈ l → length (filter (λ y, y = x) l) = 1.
Proof.
  induction 1 as [|y l Hy Hl IH]; [by intros ?%elem_of_nil|].
  rewrite filter_cons. intros [Hxy|Hx]%elem_of_cons.
  - subst y. rewrite decide_True by done. by rewrite filter_eq_absent.
  - rewrite decide_False; [by apply IH|]. intros ->. done.
Qed.

End Lists.

(** ** The resume pipeline *)

Lemma Ok_pair_fst {A B} (a a' : A) (b b' : B) : Ok (a, b) = Ok (a', b') → a = a'.
Proof. intros H. inversion H. reflexivity. Qed.

Section ResumePipeline.

Import ResumeParser.

Section WithUnicode.

Context {U : PyStr.Unicode}.

Lemma extract_text_from_pdf_returns (pdf : pdf_file) :
  ∃ text, extract_text_from_pdf pdf = Ok text.
Proof.
  unfold extract_text_from_pdf.
  destruct pdf as [pages|e]; simpl; [|eauto].
  destruct (read_pages pages EmptyString); simpl; eauto.
Qed.

Lemma extract_skills_with_ollama_returns api text model :
  ∃ skills, extract_skills_with_ollama api text model = Ok skills.
Proof.
  unfold extract_skills_with_ollama.
  destruct (_ || _); [eauto|].
  match goal with |- ∃ _, try_except ?b _ = _ => destruct b end; simpl; eauto.
Qed.

Lemma soft_failure_gives_nothing api model text :
  soft_failure api model text → extract_skills_with_ollama api text model = Ok [].
Proof.
  unfold extract_skills_with_ollama, soft_failure, unreachable.
  intros H. destruct (_ || _); [done|].
  destruct H as [[[e H]|[e H]]|[H|[d [H Hd]]]].
  - rewrite H. done.
  - destruct (ollama_list api); simpl; [|done]. rewrite H. done.
  - destruct (ollama_list api); simpl; [|done]. rewrite H. done.
  - destruct (ollama_list api); simpl; [|done]. rewrite H. simpl. rewrite Hd. done.
Qed.

(** [parse_resume] on an accepted text, by what the inference path gave. *)
Lemma parse_resume_accepted api pdf model text skills :
  extract_text_from_pdf pdf = Ok text →
  100 ≤ PyStr.len text →
  extract_skills_with_ollama api text model = Ok skills →
  parse_resume api pdf true model =
    if nonempty_list skills
    then Ok ((true, skills, msg_ai (length skills)), [CallOllama text model])
    else Ok (fallback_outcome text, [CallOllama text model; CallFallback text]).
Proof.
  intros Ht Hlen Hs. unfold parse_resume. rewrite Ht. run_result.
  destruct text as [|c r]; [cbv in Hlen; lia|].
  change (PyStr.nonempty (String c r)) with true. cbv [negb].
  destruct (Nat.ltb_spec (PyStr.len (String c r)) 100); [lia|].
  rewrite Hs. destruct (nonempty_list skills); [reflexivity|].
  unfold fallback_outcome. cbv zeta.
  destruct (nonempty_list (extract_skills_fallback _)); reflexivity.
Qed.

Lemma parse_resume_direct api pdf model text :
  extract_text_from_pdf pdf = Ok text →
  100 ≤ PyStr.len text →
  parse_resume api pdf false model = Ok (direct_outcome text, [CallFallback text]).
Proof.
  intros Ht Hlen. unfold parse_resume. rewrite Ht. run_result.
  destruct text as [|c r]; [cbv in Hlen; lia|].
  change (PyStr.nonempty (String c r)) with true. cbv [negb].
  destruct (Nat.ltb_spec (PyStr.len (String c r)) 100); [lia|].
  unfold direct_outcome. cbv zeta.
  destruct (nonempty_list (extract_skills_fallback _)); reflexivity.
Qed.

Lemma parse_resume_rejected api pdf use_ollama model text :
  extract_text_from_pdf pdf = Ok text →
  PyStr.len text < 100 →
  parse_resume api pdf use_ollama model =
    Ok ((false, [], if PyStr.nonempty text then msg_too_short else msg_pdf_failed), []).
Proof.
  intros Ht Hlen. unfold parse_resume. rewrite Ht. run_result.
  destruct text as [|c r]; [reflexivity|].
  change (PyStr.nonempty (String c r)) with true. cbv [negb].
  destruct (Nat.ltb_spec (PyStr.len (String c r)) 100); [reflexivity|lia].
Qed.

Lemma msg_ai_not_unavailable_fallback n m : msg_unavailable_fallback n ≠ msg_ai m.
Proof. cbv [msg_unavailable_fallback msg_ai String.append]. discriminate. Qed.

Lemma msg_ai_not_unavailable_none m : msg_unavailable_none ≠ msg_ai m.
Proof. cbv [msg_unavailable_none msg_ai String.append]. discriminate. Qed.

Lemma msg_ai_not_fallback n m : msg_fallback n ≠ msg_ai m.
Proof. cbv [msg_fallback msg_ai String.append]. discriminate. Qed.

Lemma msg_ai_not_none m : msg_none ≠ msg_ai m.
Proof. cbv [msg_none msg_ai String.append]. discriminate. Qed.

Lemma fallback_outcome_not_ai text m : message_of (fallback_outcome text) ≠ msg_ai m.
Proof.
  unfold fallback_outcome, message_of. cbv zeta.
  destruct (nonempty_list _); cbv [snd];
    [apply msg_ai_not_unavailable_fallback | apply msg_ai_not_unavailable_none].
Qed.

Lemma direct_outcome_not_ai text m : message_of (direct_outcome text) ≠ msg_ai m.
Proof.
  unfold direct_outcome, message_of. cbv zeta.
  destruct (nonempty_list _); cbv [snd]; [apply msg_ai_not_fallback | apply msg_ai_not_none].
Qed.

Lemma fallback_outcome_skills text :
  skills_of (fallback_outcome text) = extract_skills_fallback text.
Proof.
  unfold fallback_outcome, skills_of. cbv zeta.
  destruct (extract_skills_fallback text); reflexivity.
Qed.

Lemma direct_outcome_skills text :
  skills_of (direct_outcome text) = extract_skills_fallback text.
Proof.
  unfold direct_outcome, skills_of. cbv zeta.
  destruct (extract_skills_fallback text); reflexivity.
Qed.

Lemma parse_resume_returns api pdf use_ollama model :
  ∃ out calls, parse_resume api pdf use_ollama model = Ok (out, calls).
Proof.
  destruct (extract_text_from_pdf_returns pdf) as [text Ht].
  destruct (Nat.lt_ge_cases (PyStr.len text) 100) as [Hlen|Hlen].
  - rewrite (parse_resume_rejected _ _ _ _ _ Ht Hlen). eauto.
  - destruct use_ollama.
    + destruct (extract_skills_with_ollama_returns api text model) as [skills Hs].
      rewrite (parse_resume_accepted _ _ _ _ _ Ht Hlen Hs).
      destruct (nonempty_list skills); eauto.
    + rewrite (parse_resume_direct _ _ _ _ Ht Hlen). eauto.
Qed.

End WithUnicode.

End ResumePipeline.

(** ** De-duplication of skills *)

Section FirstOccurrences.

Variable key : string → string.

Lemma first_occurrences_fresh earlier l x :
  x ∈ first_occurrences key earlier l → key x ∉ key <$> earlier.
Proof.
  revert earlier. induction l as [|y r IH]; intros earlier; simpl.
  - by intros ?%elem_of_nil.
  - case_bool_decide as Hy.
    + intros Hx%IH. rewrite fmap_app in Hx. set_solver.
    + intros [->|Hx%IH]%elem_of_cons; [done|].
      rewrite fmap_app in Hx. set_solver.
Qed.

Lemma first_occurrences_NoDup earlier l :
  NoDup (key <$> first_occurrences key earlier l).
Proof.
  revert earlier. induction l as [|y r IH]; intros earlier; simpl.
  - constructor.
  - case_bool_decide as Hy; [apply IH|].
    rewrite fmap_cons. constructor; [|apply IH].
    intros (z & Hz & Hin)%list_elem_of_fmap.
    apply first_occurrences_fresh in Hin. rewrite fmap_app in Hin.
    apply Hin. rewrite <- Hz. set_solver.
Qed.

Lemma first_occurrences_sublist earlier l :
  sublist (first_occurrences key earlier l) l.
Proof.
  revert earlier. induction l as [|y r IH]; intros earlier; simpl.
  - constructor.
  - case_bool_decide; [apply sublist_cons | apply sublist_skip]; apply IH.
Qed.

(** An entry of [l] is kept exactly when no entry before it has its key. *)
Lemma first_occurrences_lookup earlier l i x :
  l !! i = Some x →
  (∀ j y, j < i → l !! j = Some y → key y ≠ key x) →
  key x ∉ key <$> earlier →
  x ∈ first_occurrences key earlier l.
Proof.
  revert earlier i. induction l as [|y r IH]; intros earlier i Hi Hbefore Hearlier; [done|].
  simpl. destruct i as [|i]; simpl in Hi.
  - injection Hi as ->. rewrite bool_decide_eq_false_2 by done. set_solver.
  - assert (key y ≠ key x) as Hyx by (apply (Hbefore 0 y); [lia|done]).
    assert (x ∈ first_occurrences key (earlier ++ [y]) r) as Hin.
    { apply (IH _ i); [done| |].
      - intros j z Hj Hz. apply (Hbefore (S j) z); [lia|done].
      - rewrite fmap_app. set_solver. }
    case_bool_decide; set_solver.
Qed.

Lemma first_occurrences_id earlier l :
  NoDup (key <$> l) →
  (∀ x, x ∈ l → key x ∉ key <$> earlier) →
  first_occurrences key earlier l = l.
Proof.
  revert earlier. induction l as [|y r IH]; intros earlier Hnd Hfresh; [done|].
  rewrite fmap_cons in Hnd. apply NoDup_cons in Hnd as [Hy Hr].
  simpl. rewrite bool_decide_eq_false_2 by (apply Hfresh; set_solver).
  f_equal. apply IH; [done|].
  intros x Hx. rewrite fmap_app. intros [Hin|Hin%list_elem_of_singleton]%elem_of_app.
  - revert Hin. apply Hfresh. set_solver.
  - apply Hy. rewrite <- Hin. by apply list_elem_of_fmap_2.
Qed.

End FirstOccurrences.

Section Deduplication.

Import ResumeParser.

Section WithUnicode.

Context {U : PyStr.Unicode}.

(** The loop of [extract_skills_with_ollama] on a list of strings keeps the
    first occurrences of the stripped, non-empty entries. *)
Lemma unique_loop_first_occurrences strs unique_skills seen earlier :
  (∀ k, k ∈ seen ↔ k ∈ PyStr.lower <$> earlier) →
  unique_loop (PStr <$> strs) unique_skills seen
    = Ok (unique_skills ++
          first_occurrences PyStr.lower earlier (filter (λ s, PyStr.nonempty s = true) (PyStr.strip <$> strs))).
Proof.
  revert unique_skills seen earlier.
  induction strs as [|s r IH]; intros unique_skills seen earlier Hseen.
  - simpl. by rewrite app_nil_r.
  - rewrite !fmap_cons. cbn [unique_loop str_strip]. run_result.
    rewrite PyStr.lower_nonempty, filter_cons.
    destruct (PyStr.nonempty (PyStr.strip s)) eqn:Hne.
    + rewrite decide_True by done. cbn [first_occurrences andb].
      case_bool_decide as Hin; case_bool_decide as Hin'; cbn [negb];
        try (exfalso; apply Hseen in Hin; done);
        try (exfalso; apply Hseen in Hin'; done).
      * apply IH. intros k. rewrite fmap_app. set_solver.
      * rewrite (IH _ _ (earlier ++ [PyStr.strip s])).
        -- by rewrite <- app_assoc.
        -- intros k. rewrite fmap_app. set_solver.
    + rewrite decide_False by done. cbn [andb]. by apply IH.
Qed.

(** The loop raises as soon as an entry is not a string. *)
Lemma unique_loop_strings items unique_skills seen out :
  unique_loop items unique_skills seen = Ok out → ∃ strs, items = PStr <$> strs.
Proof.
  revert unique_skills seen. induction items as [|v r IH]; intros unique_skills seen H.
  - by exists [].
  - cbn [unique_loop] in H. destruct v; try discriminate H.
    cbn [str_strip] in H. run_result in H.
    destruct (_ && _); apply IH in H as [strs ->]; by exists (s :: strs).
Qed.

Lemma dedup_loop_first_occurrences found unique_skills seen earlier :
  (∀ k, k ∈ seen ↔ k ∈ PyStr.lower <$> earlier) →
  dedup_loop found unique_skills seen
    = unique_skills ++ first_occurrences PyStr.lower earlier found.
Proof.
  revert unique_skills seen earlier.
  induction found as [|s r IH]; intros unique_skills seen earlier Hseen.
  - simpl. by rewrite app_nil_r.
  - cbn [dedup_loop first_occurrences].
    case_bool_decide as Hin; case_bool_decide as Hin'; cbn [negb];
      try (exfalso; apply Hseen in Hin; done);
      try (exfalso; apply Hseen in Hin'; done).
    + apply IH. intros k. rewrite fmap_app. set_solver.
    + rewrite (IH _ _ (earlier ++ [s])).
      * by rewrite <- app_assoc.
      * intros k. rewrite fmap_app. set_solver.
Qed.

Lemma extract_skills_fallback_first_occurrences text :
  extract_skills_fallback text
    = first_occurrences PyStr.lower [] (found_loop common_tech (PyStr.lower text) []).
Proof.
  unfold extract_skills_fallback. cbv zeta.
  by rewrite (dedup_loop_first_occurrences _ [] ∅ []) by set_solver.
Qed.

Lemma extract_skills_fallback_NoDup text :
  NoDup (PyStr.lower <$> extract_skills_fallback text).
Proof. rewrite extract_skills_fallback_first_occurrences. apply first_occurrences_NoDup. Qed.

Lemma extract_skills_with_ollama_NoDup api text model skills :
  extract_skills_with_ollama api text model = Ok skills →
  NoDup (PyStr.lower <$> skills).
Proof.
  unfold extract_skills_with_ollama.
  destruct (_ || _); [intros [= <-]; constructor|].
  destruct (ollama_list api); run_result; [|intros [= <-]; constructor].
  destruct (ollama_chat _ _ _ _) as [c|]; [|intros [= <-]; constructor].
  destruct (json_loads c) as [data|]; [|intros [= <-]; constructor].
  destruct (Json.get_attr _ _ _) as [sk|]; [|intros [= <-]; constructor].
  destruct (iterate sk) as [items|]; [|intros [= <-]; constructor].
  destruct (unique_loop items [] ∅) as [out|] eqn:Hloop; intros [= <-]; [|constructor].
  destruct (unique_loop_strings _ _ _ _ Hloop) as [strs ->].
  rewrite (unique_loop_first_occurrences _ _ _ []) in Hloop by set_solver.
  injection Hloop as <-. apply first_occurrences_NoDup.
Qed.

Lemma found_loop_filter techs resume_lower found_skills :
  found_loop techs resume_lower found_skills
    = found_skills ++
      (PyStr.title <$> filter (λ k, PyStr.contains k resume_lower = true) techs).
Proof.
  revert found_skills. induction techs as [|k r IH]; intros found_skills.
  - simpl. by rewrite app_nil_r.
  - cbn [found_loop]. rewrite IH, filter_cons.
    destruct (PyStr.contains k resume_lower).
    + rewrite decide_True by done. by rewrite fmap_cons, <- app_assoc.
    + by rewrite decide_False by done.
Qed.

Lemma common_tech_NoDup : NoDup common_tech.
Proof. refine (bool_decide_unpack _ _). vm_compute. exact I. Qed.

Lemma common_tech_ascii k : k ∈ common_tech → PyStr.is_ascii k = true.
Proof.
  assert (Forall (λ k, PyStr.is_ascii k = true) common_tech) as H
    by (refine (bool_decide_unpack _ _); vm_compute; exact I).
  rewrite Forall_forall in H. apply H.
Qed.

(** Lowering the title-cased form of a keyword gives the keyword back. *)
Lemma common_tech_lower_title k : k ∈ common_tech → PyStr.lower (PyStr.title k) = k.
Proof.
  assert (Forall (λ k, PyStr.is_ascii (PyStr.title k) = true ∧
                       PyStr.ascii_lower (PyStr.title k) = k) common_tech) as H
    by (refine (bool_decide_unpack _ _); vm_compute; exact I).
  rewrite Forall_forall in H. intros Hk. destruct (H k Hk) as [Ha Hl].
  by rewrite PyStr.lower_ascii.
Qed.

(** The Fallback Extractor returns the keywords found, title-cased, in the
    order of the taxonomy: its de-duplication removes nothing. *)
Lemma extract_skills_fallback_filter text :
  extract_skills_fallback text
    = PyStr.title <$> filter (λ k, PyStr.contains k (PyStr.lower text) = true) common_tech.
Proof.
  rewrite extract_skills_fallback_first_occurrences, found_loop_filter, app_nil_l.
  apply first_occurrences_id; [|set_solver].
  rewrite <- list_fmap_compose.
  set (found := filter _ common_tech).
  assert (PyStr.lower ∘ PyStr.title <$> found = found) as ->.
  { rewrite <- (list_fmap_id found) at 2. apply list_fmap_ext. intros i k Hk.
    apply common_tech_lower_title.
    apply list_elem_of_lookup_2 in Hk. by apply list_elem_of_filter in Hk as [_ ?]. }
  apply NoDup_filter, common_tech_NoDup.
Qed.

(** Where the skills that [parse_resume] returns come from. *)
Lemma parse_resume_skills_origin api pdf use_ollama model out calls :
  parse_resume api pdf use_ollama model = Ok (out, calls) →
  skills_of out = [] ∨
  (∃ text, skills_of out = extract_skills_fallback text) ∨
  (∃ text, extract_skills_with_ollama api text model = Ok (skills_of out)).
Proof.
  intros H.
  destruct (extract_text_from_pdf_returns pdf) as [text Ht].
  destruct (Nat.lt_ge_cases (PyStr.len text) 100) as [Hlen|Hlen].
  - rewrite (parse_resume_rejected _ _ _ _ _ Ht Hlen) in H.
    apply Ok_pair_fst in H. subst out. by left.
  - destruct use_ollama.
    + destruct (extract_skills_with_ollama_returns api text model) as [skills Hs].
      rewrite (parse_resume_accepted _ _ _ _ _ Ht Hlen Hs) in H.
      destruct (nonempty_list skills); apply Ok_pair_fst in H; subst out.
      * right; right. by exists text.
      * right; left. exists text. apply fallback_outcome_skills.
    + rewrite (parse_resume_direct _ _ _ _ Ht Hlen) in H.
      apply Ok_pair_fst in H. subst out.
      right; left. exists text. apply direct_outcome_skills.
Qed.

End WithUnicode.

End Deduplication.

(** ** The job extractor *)

Section JobExtractor.

Import Extractor.

Lemma map_fmap {A B} (f : A → B) (l : list A) : map f l = f <$> l.
Proof. induction l as [|x l IH]; [done|]. simpl. by rewrite IH. Qed.

Lemma extract_data_returns api raw : ∃ v, extract_data api raw = Ok v.
Proof.
  unfold extract_data. destruct (ollama_chat _ _ _ _) as [c|]; run_result; [|eauto].
  destruct (json_loads c); eauto.
Qed.

Lemma update_values_object d : ∃ vals, update_values (PDict d) = Ok vals.
Proof. eexists. reflexivity. Qed.

Lemma update_values_skills d vals :
  update_values (PDict d) = Ok vals →
  Db.x_required_skills vals = Json.dumps (Json.get d "required_skills" (PList [])).
Proof. intros H. inversion H. reflexivity. Qed.

Lemma update_values_fields d vals :
  update_values (PDict d) = Ok vals →
  Db.x_company vals = Json.get d "company" (PStr "Not specified") ∧
  Db.x_location_scraped vals = Json.get d "location_scraped" (PStr "Not specified") ∧
  Db.x_is_remote vals
    = (if Json.truthy (Json.get d "is_remote" (PBool false)) then 1%Z else 0%Z) ∧
  Db.x_job_type vals = Json.get d "job_type" (PStr "Full-time") ∧
  Db.x_seniority vals = Json.get d "seniority" (PStr "Not specified").
Proof. intros H. inversion H. repeat split. Qed.

Lemma update_values_not_object v : is_object v = false → update_values v = Raise AttributeError.
Proof. by destruct v. Qed.

(** An [UPDATE] goes through or raises an error of the database, and then
    leaves the table as it was. *)
Lemma execute_update_cases fault t job_id vals :
  (update_stored fault vals = true ∧
   Db.execute_update fault t job_id vals
     = (map (λ r, if (Db.id r =? job_id)%Z then Db.set_extraction vals r else r) t, Ok ())) ∨
  (update_stored fault vals = false ∧
   ∃ errno, Db.execute_update fault t job_id vals = (t, Raise (MySQLError errno))).
Proof.
  unfold Db.execute_update, update_stored.
  destruct (Db.convertible_values vals); cbn [negb andb].
  - destruct fault as [errno|]; [right|left]; (split; [done|]); by eexists.
  - right. split; [done|]. by eexists.
Qed.

(** One turn of the loop, by the answer of the backend. *)
Lemma process_job_cases api fault job_id raw t :
  (∃ d vals,
     extract_data api raw = Ok (PDict d) ∧ update_values (PDict d) = Ok vals ∧
     process_job api fault job_id raw t
       = (if update_stored (fault job_id) vals
          then map (λ r, if (Db.id r =? job_id)%Z then Db.set_extraction vals r else r) t
          else t, Ok ())) ∨
  (∃ v, extract_data api raw = Ok v ∧ is_object v = false ∧
        process_job api fault job_id raw t = (t, Raise AttributeError)).
Proof.
  destruct (extract_data_returns api raw) as [v Hv]. unfold process_job. rewrite Hv.
  destruct (is_object v) eqn:Hobj.
  - left. destruct v as [| | | | |d]; try discriminate Hobj.
    destruct (update_values_object d) as [vals Hvals]. exists d, vals. rewrite Hvals.
    split; [done|]. split; [done|].
    by destruct (execute_update_cases (fault job_id) t job_id vals)
      as [[-> ->]|[-> [errno ->]]].
  - right. exists v. rewrite (update_values_not_object v Hobj). done.
Qed.

Lemma process_job_length api fault job_id raw t :
  length (fst (process_job api fault job_id raw t)) = length t.
Proof.
  destruct (process_job_cases api fault job_id raw t)
    as [(d & vals & _ & _ & ->)|(v & _ & _ & ->)]; [|done].
  destruct (update_stored _ _); [|done]. cbn [fst]. by rewrite map_fmap, length_fmap.
Qed.

(** A turn leaves the rows of another [id] as they are. *)
Lemma process_job_other api fault job_id raw t i r :
  t !! i = Some r → Db.id r ≠ job_id →
  fst (process_job api fault job_id raw t) !! i = Some r.
Proof.
  intros Hi Hid.
  destruct (process_job_cases api fault job_id raw t)
    as [(d & vals & _ & _ & ->)|(v & _ & _ & ->)]; [|done].
  destruct (update_stored _ _); [|done]. cbn [fst].
  rewrite map_fmap, list_lookup_fmap, Hi. cbn.
  by rewrite (proj2 (Z.eqb_neq _ _) Hid).
Qed.

(** A turn keeps what the scraper stored and never takes the flag back. *)
Lemma process_job_row api fault job_id raw t i r :
  t !! i = Some r →
  ∃ r', fst (process_job api fault job_id raw t) !! i = Some r' ∧
        scraped_fields r' = scraped_fields r ∧
        (Db.is_extracted r = true → Db.is_extracted r' = true).
Proof.
  intros Hi.
  destruct (process_job_cases api fault job_id raw t)
    as [(d & vals & _ & _ & ->)|(v & _ & _ & ->)]; [|by exists r].
  destruct (update_stored _ _); [|by exists r]. cbn [fst].
  rewrite map_fmap, list_lookup_fmap, Hi. cbn.
  destruct (Db.id r =? job_id)%Z; [|by exists r].
  eexists. split; [done|]. split; done.
Qed.

Lemma process_jobs_ok_iff api fault jobs t :
  (snd (process_jobs api fault jobs t) = Ok () ↔
     Forall (λ job, ∃ d, extract_data api job.2 = Ok (PDict d)) jobs) ∧
  (snd (process_jobs api fault jobs t) = Ok () ∨
   snd (process_jobs api fault jobs t) = Raise AttributeError).
Proof.
  revert t. induction jobs as [|[job_id raw] rest IH]; intros t.
  - split; [|by left]. split; [constructor|done].
  - cbn [process_jobs].
    destruct (process_job_cases api fault job_id raw t)
      as [(d & vals & Hd & _ & ->)|(v & Hv & Hobj & ->)].
    + match goal with |- context [process_jobs api fault rest ?t1] =>
        destruct (IH t1) as [Hiff Hor] end.
      split; [|exact Hor]. rewrite Hiff. split.
      * intros H. constructor; [by exists d|done].
      * by intros [_ H]%Forall_cons.
    + split; [|by right]. split; [done|].
      intros [[d Hd] _]%Forall_cons. cbn in Hd. rewrite Hv in Hd.
      injection Hd as ->. done.
Qed.

Lemma process_jobs_length api fault jobs t :
  length (fst (process_jobs api fault jobs t)) = length t.
Proof.
  revert t. induction jobs as [|[job_id raw] rest IH]; intros t; [done|].
  cbn [process_jobs]. pose proof (process_job_length api fault job_id raw t) as Hlen.
  destruct (process_job api fault job_id raw t) as [t1 [[]|e]]; cbn [fst] in *.
  - by rewrite IH.
  - done.
Qed.

Lemma process_jobs_other api fault jobs t i r :
  t !! i = Some r → Db.id r ∉ jobs.*1 →
  fst (process_jobs api fault jobs t) !! i = Some r.
Proof.
  revert t. induction jobs as [|[job_id raw] rest IH]; intros t Hi Hid; [done|].
  cbn [process_jobs]. rewrite fmap_cons, not_elem_of_cons in Hid. destruct Hid as [Hne Hid].
  pose proof (process_job_other api fault job_id raw t i r Hi Hne) as H1.
  destruct (process_job api fault job_id raw t) as [t1 [[]|e]]; cbn [fst] in *.
  - by apply IH.
  - done.
Qed.

Lemma process_jobs_row api fault jobs t i r :
  t !! i = Some r →
  ∃ r', fst (process_jobs api fault jobs t) !! i = Some r' ∧
        scraped_fields r' = scraped_fields r ∧
        (Db.is_extracted r = true → Db.is_extracted r' = true).
Proof.
  revert t r. induction jobs as [|[job_id raw] rest IH]; intros t r Hi; [by exists r|].
  cbn [process_jobs].
  destruct (process_job_row api fault job_id raw t i r Hi) as (r1 & H1 & Hf1 & He1).
  destruct (process_job api fault job_id raw t) as [t1 [[]|e]]; cbn [fst] in *.
  - destruct (IH t1 r1 H1) as (r' & H' & Hf' & He'). exists r'.
    split; [done|]. split; [congruence|auto].
  - by exists r1.
Qed.

Lemma process_jobs_app api fault jobs1 jobs2 t :
  snd (process_jobs api fault jobs1 t) = Ok () →
  process_jobs api fault (jobs1 ++ jobs2) t
    = process_jobs api fault jobs2 (fst (process_jobs api fault jobs1 t)).
Proof.
  revert t. induction jobs1 as [|[job_id raw] rest IH]; intros t Hok; [done|].
  cbn [app process_jobs] in *.
  destruct (process_job api fault job_id raw t) as [t1 [[]|e]]; [|done].
  by apply IH.
Qed.

Lemma select_pending_ids t job_id raw :
  (job_id, raw) ∈ Db.select_pending t →
  ∃ r, r ∈ t ∧ Db.id r = job_id ∧ Db.raw_description r = raw ∧ Db.is_extracted r = false.
Proof.
  unfold Db.select_pending. rewrite map_fmap.
  intros (r & [= -> ->] & Hr)%list_elem_of_fmap.
  apply list_elem_of_filter in Hr as [He Hr]. by exists r.
Qed.

Lemma select_pending_elem t r :
  r ∈ t → Db.is_extracted r = false →
  (Db.id r, Db.raw_description r) ∈ Db.select_pending t.
Proof.
  intros Hr He. unfold Db.select_pending. rewrite map_fmap.
  apply (list_elem_of_fmap_2 (λ r, (Db.id r, Db.raw_description r))).
  by apply list_elem_of_filter.
Qed.

Lemma select_pending_none t :
  (∀ r, r ∈ t → Db.is_extracted r = true) → Db.select_pending t = [].
Proof.
  intros H. unfold Db.select_pending. rewrite map_fmap.
  induction t as [|r t IH]; [done|].
  rewrite filter_cons_False; [apply IH; intros; apply H; set_solver|].
  rewrite (H r) by set_solver. done.
Qed.

Lemma select_pending_NoDup t : NoDup (Db.id <$> t) → NoDup (Db.select_pending t).*1.
Proof.
  intros Hnd.
  assert ((Db.select_pending t).*1 = Db.id <$> filter (λ r, Db.is_extracted r = false) t)
    as ->.
  { unfold Db.select_pending.
    rewrite (map_fmap (λ r, (Db.id r, Db.raw_description r))).
    by rewrite <- (list_fmap_compose (λ r, (Db.id r, Db.raw_description r)) fst). }
  eapply sublist_NoDup; [exact Hnd|]. apply fmap_sublist, sublist_filter.
Qed.

(** With distinct [id]s, [main] leaves a row that was extracted as it
    was. *)
Lemma main_extracted_row api fault t i r :
  NoDup (Db.id <$> t) →
  t !! i = Some r → Db.is_extracted r = true →
  fst (main api fault t) !! i = Some r.
Proof.
  intros Hnd Hi He. apply process_jobs_other; [done|].
  intros ([job_id raw] & Hid & Hin)%list_elem_of_fmap. cbn in Hid. subst job_id.
  apply select_pending_ids in Hin as (r2 & Hr2 & Hid2 & _ & He2).
  apply list_elem_of_lookup in Hr2 as [k Hk].
  assert (i = k) as ->.
  { eapply NoDup_lookup; [exact Hnd| |].
    - by rewrite list_lookup_fmap, Hi.
    - rewrite list_lookup_fmap, Hk. cbn. by rewrite Hid2. }
  congruence.
Qed.

(** With distinct [id]s and a JSON object for every pending description, a
    pending row ends with the values read from the answer to its own
    description when its [UPDATE] goes through, and as it was otherwise. *)
Lemma main_pending_row api fault t i r d vals :
  NoDup (Db.id <$> t) →
  Forall (λ job, ∃ d, extract_data api job.2 = Ok (PDict d)) (Db.select_pending t) →
  t !! i = Some r → Db.is_extracted r = false →
  extract_data api (Db.raw_description r) = Ok (PDict d) →
  update_values (PDict d) = Ok vals →
  fst (main api fault t) !! i
    = Some (if update_stored (fault (Db.id r)) vals then Db.set_extraction vals r else r).
Proof.
  intros Hnd Hobj Hi He Hd Hvals.
  pose proof (select_pending_NoDup t Hnd) as Hnd'.
  assert ((Db.id r, Db.raw_description r) ∈ Db.select_pending t) as Hin.
  { apply select_pending_elem; [by eapply list_elem_of_lookup_2|done]. }
  apply list_elem_of_split in Hin as (jobs1 & jobs2 & Hsplit).
  unfold main. rewrite Hsplit in Hobj, Hnd' |- *.
  apply Forall_app in Hobj as [Hobj1 _].
  rewrite fmap_app, fmap_cons in Hnd'. cbn [fst] in Hnd'.
  apply NoDup_app in Hnd' as (_ & Hnot1 & [Hnot2 _]%NoDup_cons).
  rewrite process_jobs_app by by apply process_jobs_ok_iff.
  assert (fst (process_jobs api fault jobs1 t) !! i = Some r) as H1.
  { apply process_jobs_other; [done|]. intros Hin1. apply (Hnot1 _ Hin1), list_elem_of_here. }
  set (t1 := fst (process_jobs api fault jobs1 t)) in *.
  cbn [process_jobs].
  destruct (process_job_cases api fault (Db.id r) (Db.raw_description r) t1)
    as [(d' & vals' & Hd' & Hvals' & Heq)|(v & Hv & Hobjv & _)];
    [|by rewrite Hv in Hd; injection Hd as ->].
  rewrite Heq. assert (vals' = vals) as -> by congruence.
  destruct (update_stored (fault (Db.id r)) vals).
  - apply process_jobs_other; [|done].
    rewrite map_fmap, list_lookup_fmap, H1. cbn. by rewrite Z.eqb_refl.
  - by apply process_jobs_other.
Qed.

End JobExtractor.

(** ** Claims on the resume pipeline and on soft failures *)

Section SoftFailures.

Import ResumeParser.

Section WithUnicode.

Context {U : PyStr.Unicode}.


(** C8 (amended).  A decoded text that is not empty and has fewer than
    100 characters is rejected with the message that the text is too short,
    an empty decoded text with the message that the decoding failed, and in
    both cases no extractor is called; a text of 100 characters or more goes
    to extraction, the Structured Extractor first when [use_ollama] is set
    and the Fallback Extractor otherwise. *)
Theorem parse_resume_length_gate api pdf use_ollama model text :
  extract_text_from_pdf pdf = Ok text →
  (text ≠ EmptyString → PyStr.len text < 100 →
     parse_resume api pdf use_ollama model = Ok ((false, [], msg_too_short), [])) ∧
  (text = EmptyString →
     parse_resume api pdf use_ollama model = Ok ((false, [], msg_pdf_failed), [])) ∧
  (100 ≤ PyStr.len text →
     ∃ out rest,
       parse_resume api pdf use_ollama model
         = Ok (out, (if use_ollama then CallOllama text model else CallFallback text) :: rest)).
Proof.
  intros Ht. split; [|split].
  - intros Hne Hlt. rewrite (parse_resume_rejected _ _ _ _ _ Ht Hlt).
    by destruct text.
  - intros ->. by rewrite (parse_resume_rejected _ _ _ _ _ Ht); [|vm_compute; lia].
  - intros Hlen. destruct use_ollama.
    + destruct (extract_skills_with_ollama_returns api text model) as [skills Hs].
      rewrite (parse_resume_accepted _ _ _ _ _ Ht Hlen Hs).
      destruct (nonempty_list skills); eauto.
    + rewrite (parse_resume_direct _ _ _ _ Ht Hlen). eauto.
Qed.

(** C9 (amended).  On an accepted resume, when the backend cannot be
    reached: with [use_ollama=True] the Fallback Extractor is called, its
    skills are returned and the message says that Ollama is unavailable;
    with [use_ollama=False] the backend is not contacted, the skills are
    again the Fallback Extractor's and the message names no mode; in no
    case is the message the one of an AI extraction. *)
Theorem unreachable_backend_uses_fallback api pdf model text :
  extract_text_from_pdf pdf = Ok text →
  100 ≤ PyStr.len text →
  unreachable api model text →
  parse_resume api pdf true model
    = Ok (fallback_outcome text, [CallOllama text model; CallFallback text]) ∧
  skills_of (fallback_outcome text) = extract_skills_fallback text ∧
  (message_of (fallback_outcome text)
     = msg_unavailable_fallback (length (extract_skills_fallback text)) ∨
   message_of (fallback_outcome text) = msg_unavailable_none) ∧
  parse_resume api pdf false model = Ok (direct_outcome text, [CallFallback text]) ∧
  skills_of (direct_outcome text) = extract_skills_fallback text ∧
  (∀ use_ollama out calls n,
     parse_resume api pdf use_ollama model = Ok (out, calls) → message_of out ≠ msg_ai n).
Proof.
  intros Ht Hlen Hdown.
  assert (Hnone : extract_skills_with_ollama api text model = Ok [])
    by (apply soft_failure_gives_nothing; left; exact Hdown).
  pose proof (parse_resume_accepted _ _ _ _ _ Ht Hlen Hnone) as Hp. cbv [nonempty_list] in Hp.
  pose proof (parse_resume_direct api _ model _ Ht Hlen) as Hd.
  repeat split.
  - exact Hp.
  - apply fallback_outcome_skills.
  - unfold fallback_outcome, message_of. cbv zeta.
    destruct (nonempty_list _); [left|right]; reflexivity.
  - exact Hd.
  - apply direct_outcome_skills.
  - intros [] out calls n H.
    + rewrite Hp in H. apply Ok_pair_fst in H. subst out. apply fallback_outcome_not_ai.
    + rewrite Hd in H. apply Ok_pair_fst in H. subst out. apply direct_outcome_not_ai.
Qed.

(** C10.  With [use_ollama=True] on an accepted resume, the message of an
    AI extraction is returned exactly when the inference path gives a
    non-empty list; when it gives the empty list, even from a backend that
    answered, the fallback path is taken, the message says that Ollama is
    unavailable, and the whole result is the one an unreachable backend
    gives. *)
Theorem ai_message_iff_inference_nonempty api pdf model text :
  extract_text_from_pdf pdf = Ok text →
  100 ≤ PyStr.len text →
  ∃ skills out calls,
    extract_skills_with_ollama api text model = Ok skills ∧
    parse_resume api pdf true model = Ok (out, calls) ∧
    ((∃ n, message_of out = msg_ai n) ↔ skills ≠ []) ∧
    (skills ≠ [] → out = (true, skills, msg_ai (length skills))) ∧
    (skills = [] →
       (out, calls) = (fallback_outcome text, [CallOllama text model; CallFallback text]) ∧
       (message_of out = msg_unavailable_fallback (length (extract_skills_fallback text)) ∨
        message_of out = msg_unavailable_none) ∧
       parse_resume api pdf true model = parse_resume api_down pdf true model) ∧
    (ollama_list api = Ok () →
     ollama_chat api model SKILL_EXTRACTION_PROMPT text = Ok (Parsed (PDict [("skills", PList [])])) →
     skills = []).
Proof.
  intros Ht Hlen.
  destruct (extract_skills_with_ollama_returns api text model) as [skills Hs].
  pose proof (parse_resume_accepted _ _ _ _ _ Ht Hlen Hs) as Hp.
  assert (Hdown : parse_resume api_down pdf true model
            = Ok (fallback_outcome text, [CallOllama text model; CallFallback text])).
  { rewrite (parse_resume_accepted _ _ _ _ [] Ht Hlen); [reflexivity|].
    apply soft_failure_gives_nothing. left; left; eexists; reflexivity. }
  assert (Hzero : ollama_list api = Ok () →
     ollama_chat api model SKILL_EXTRACTION_PROMPT text = Ok (Parsed (PDict [("skills", PList [])])) →
     skills = []).
  { intros _ Hchat.
    assert (extract_skills_with_ollama api text model = Ok []) as Hn.
    { apply soft_failure_gives_nothing. right; right. eexists; split; [exact Hchat|reflexivity]. }
    congruence. }
  destruct skills as [|s0 rest]; cbv [nonempty_list] in Hp.
  - exists [], (fallback_outcome text), [CallOllama text model; CallFallback text].
    split; [exact Hs|]. split; [exact Hp|]. split; [|split; [|split]].
    + split; [|congruence]. intros [n Hn]. by apply fallback_outcome_not_ai in Hn.
    + congruence.
    + intros _. split; [reflexivity|]. split; [|congruence].
      unfold fallback_outcome, message_of. cbv zeta.
      destruct (nonempty_list (extract_skills_fallback text)); [left|right]; reflexivity.
    + exact Hzero.
  - exists (s0 :: rest), (true, s0 :: rest, msg_ai (length (s0 :: rest))), [CallOllama text model].
    split; [exact Hs|]. split; [exact Hp|]. split; [|split; [|split]].
    + split; [congruence|]. intros _. eexists; reflexivity.
    + reflexivity.
    + congruence.
    + exact Hzero.
Qed.

End WithUnicode.

(** The samples are read with the tables of [ascii_only]. *)
#[local] Existing Instance ascii_only.



(** C8, counterexample.  A document without text decodes to the empty
    text, which is shorter than 100 characters, and is rejected with the
    message of a failed decoding, not with the one for a short text. *)
Lemma empty_text_is_not_reported_short :
  extract_text_from_pdf (pdf_of EmptyString) = Ok EmptyString ∧
  PyStr.len EmptyString < 100 ∧
  parse_resume api_down (pdf_of EmptyString) true qwen
    = Ok ((false, [], msg_pdf_failed), []) ∧
  msg_pdf_failed ≠ msg_too_short.
Proof.
  split; [vm_compute; reflexivity|].
  split; [vm_compute; lia|].
  split; [vm_compute; reflexivity | discriminate].
Qed.

Lemma parse_resume_length_gate_witness :
  parse_resume api_down (pdf_of resume_99_accented) true qwen
    = Ok ((false, [], msg_too_short), []) ∧
  ∃ out rest,
    parse_resume api_down (pdf_of resume_100) true qwen
      = Ok (out, CallOllama resume_100 qwen :: rest).
Proof.
  split.
  - apply (parse_resume_length_gate api_down (pdf_of resume_99_accented)
             true qwen resume_99_accented).
    + vm_compute; reflexivity.
    + discriminate.
    + vm_compute; lia.
  - apply (parse_resume_length_gate api_down (pdf_of resume_100)
             true qwen resume_100).
    + vm_compute; reflexivity.
    + vm_compute; lia.
Defined.

(** C9, counterexample.  With [use_ollama=False] and the backend down, the
    skills are the Fallback Extractor's but the message names no fallback
    or degraded mode. *)
Lemma direct_mode_message_names_no_fallback :
  unreachable api_down qwen resume_100 ∧
  100 ≤ PyStr.len resume_100 ∧
  parse_resume api_down (pdf_of resume_100) false qwen
    = Ok ((true, ["Python"; "Go"; "Golang"; "Django"; "Rest Api"; "Aws"; "Docker"],
           "Extracted 7 skills"), [CallFallback resume_100]) ∧
  PyStr.contains "fallback" (PyStr.lower "Extracted 7 skills") = false ∧
  PyStr.contains "unavailable" (PyStr.lower "Extracted 7 skills") = false ∧
  PyStr.contains "degraded" (PyStr.lower "Extracted 7 skills") = false.
Proof.
  split; [left; eexists; reflexivity|].
  split; [vm_compute; lia|].
  repeat split; vm_compute; reflexivity.
Qed.

Lemma unreachable_backend_uses_fallback_witness :
  parse_resume api_down (pdf_of resume_100) true qwen
    = Ok (fallback_outcome resume_100, [CallOllama resume_100 qwen; CallFallback resume_100]).
Proof.
  destruct (unreachable_backend_uses_fallback api_down (pdf_of resume_100) qwen resume_100)
    as [H _].
  - vm_compute; reflexivity.
  - vm_compute; lia.
  - left; eexists; reflexivity.
  - exact H.
Defined.

Lemma ai_message_iff_inference_nonempty_witness :
  ∃ skills out calls,
    extract_skills_with_ollama (api_reply (Parsed (PDict [("skills", PList [])]))) resume_100 qwen
      = Ok skills ∧
    parse_resume (api_reply (Parsed (PDict [("skills", PList [])]))) (pdf_of resume_100) true qwen
      = Ok (out, calls) ∧
    ((∃ n, message_of out = msg_ai n) ↔ skills ≠ []).
Proof.
  destruct (ai_message_iff_inference_nonempty
              (api_reply (Parsed (PDict [("skills", PList [])]))) (pdf_of resume_100) qwen resume_100)
    as (skills & out & calls & H1 & H2 & H3 & _).
  - vm_compute; reflexivity.
  - vm_compute; lia.
  - exists skills, out, calls. auto.
Defined.

End SoftFailures.

(** ** Claims on the skills sequences *)

Section SkillsSequences.

Import ResumeParser.

Section WithUnicode.

Context {U : PyStr.Unicode}.

(** C6 (amended).  The skills that [parse_resume] returns contain no two
    entries equal under case-insensitive comparison, and are listed in order
    of first occurrence: the inference path keeps the first occurrences of
    the stripped, non-empty entries of the backend's list, the fallback
    path the first occurrences of the keywords found; the first
    occurrences of a list are a sublist of it, without two entries of the
    same key, that has every entry no earlier entry shares its key with.
    (The [required_skills] of a posting are persisted as the backend gave
    them.) *)
Theorem resume_skills_first_occurrences :
  (∀ api pdf use_ollama model ok skills msg calls,
     parse_resume api pdf use_ollama model = Ok ((ok, skills, msg), calls) →
     NoDup (PyStr.lower <$> skills)) ∧
  (∀ strs,
     unique_loop (PStr <$> strs) [] ∅
       = Ok (first_occurrences PyStr.lower []
               (filter (λ s, PyStr.nonempty s = true) (PyStr.strip <$> strs)))) ∧
  (∀ text,
     extract_skills_fallback text
       = first_occurrences PyStr.lower [] (found_loop common_tech (PyStr.lower text) [])) ∧
  (∀ l : list string,
     let kept := first_occurrences PyStr.lower [] l in
     sublist kept l ∧
     NoDup (PyStr.lower <$> kept) ∧
     (∀ i x, l !! i = Some x →
        (∀ j y, j < i → l !! j = Some y → PyStr.lower y ≠ PyStr.lower x) → x ∈ kept)).
Proof.
  split; [|split; [|split]]; cycle 3.
  - intros l kept. split; [apply first_occurrences_sublist|].
    split; [apply first_occurrences_NoDup|].
    intros i x Hi Hbefore. apply (first_occurrences_lookup _ _ _ i); [done..|].
    by intros ?%elem_of_nil.
  - intros api pdf use_ollama model ok skills msg calls H.
    apply parse_resume_skills_origin in H. unfold skills_of in H. cbn [fst snd] in H.
    destruct H as [->|[[text ->]|[text H]]].
    + constructor.
    + apply extract_skills_fallback_NoDup.
    + by apply extract_skills_with_ollama_NoDup in H.
  - intros strs. by rewrite (unique_loop_first_occurrences _ _ _ []) by set_solver.
  - apply extract_skills_fallback_first_occurrences.
Qed.

End WithUnicode.

(** The samples are read with the tables of [ascii_only]. *)
#[local] Existing Instance ascii_only.

(** C6, counterexample.  The job extractor stores the [required_skills]
    of the backend's answer as they are: two entries that differ by case
    only are both persisted. *)
Lemma persisted_skills_keep_duplicates :
  Db.required_skills <$>
    fst (Extractor.main
           (api_reply (Parsed (PDict [("required_skills", PList [PStr "Python"; PStr "python"])])))
           no_fault [pending_row])
    = [PStr ("[" +:+ Json.dquote +:+ "Python" +:+ Json.dquote +:+ ", " +:+
             Json.dquote +:+ "python" +:+ Json.dquote +:+ "]")] ∧
  PyStr.lower "Python" = PyStr.lower "python".
Proof. split; vm_compute; reflexivity. Qed.

Lemma resume_skills_first_occurrences_witness :
  NoDup (PyStr.lower <$> ["Python"; "AWS"]).
Proof.
  destruct resume_skills_first_occurrences as (H & _ & _ & _).
  apply (H (api_reply (Parsed (PDict [("skills",
               PList [PStr " Python "; PStr "python"; PStr " "; PStr "AWS"; PStr "aws"])])))
           (pdf_of resume_100) true qwen true ["Python"; "AWS"] (msg_ai 2)
           [CallOllama resume_100 qwen]).
  vm_compute; reflexivity.
Defined.

End SkillsSequences.

(** ** Claim on the Fallback Extractor *)

Section FallbackExtractor.

Import ResumeParser.

Section WithUnicode.

Context {U : PyStr.Unicode}.

(** C4.  When a keyword of the taxonomy occurs in the text, whatever the
    case of its letters there, the output of the Fallback Extractor has its
    title-cased form exactly once; the output is the list of the keywords
    found, title-cased, in the order of the taxonomy. *)
Theorem fallback_reports_keyword_once text k :
  k ∈ common_tech →
  (∃ w, occurs_in w text ∧ PyStr.lower w = k) →
  length (filter (λ s, s = PyStr.title k) (extract_skills_fallback text)) = 1 ∧
  extract_skills_fallback text
    = PyStr.title <$> filter (λ k', PyStr.contains k' (PyStr.lower text) = true) common_tech.
Proof.
  intros Hk (w & Hw & Hlw). split; [|apply extract_skills_fallback_filter].
  apply filter_eq_once.
  - apply (NoDup_fmap_1 PyStr.lower), extract_skills_fallback_NoDup.
  - rewrite extract_skills_fallback_filter. apply list_elem_of_fmap_2.
    apply list_elem_of_filter. split; [|done].
    apply contains_spec. rewrite <- Hlw. apply lower_occurs; [done|].
    rewrite Hlw. by apply common_tech_ascii.
Qed.

End WithUnicode.

(** The samples are read with the tables of [ascii_only]. *)
#[local] Existing Instance ascii_only.

Lemma fallback_reports_keyword_once_witness :
  length (filter (λ s, s = PyStr.title "python") (extract_skills_fallback resume_100)) = 1.
Proof.
  apply (fallback_reports_keyword_once resume_100 "python").
  - refine (bool_decide_unpack _ _). vm_compute. exact I.
  - exists "Python". split; [|reflexivity].
    exists "Backend developer, 5 years: ",
      ", Django, REST API design, AWS and Docker; some Golang at Acme Ltd".
    reflexivity.
Defined.

End FallbackExtractor.

(** ** The store *)

Section Store.

Import Db.

Lemma has_url_spec t url : has_url t url = true ↔ url ∈ job_url <$> t.
Proof.
  unfold has_url. induction t as [|r t IH]; simpl.
  - split; [done|]. by intros ?%elem_of_nil.
  - rewrite orb_true_iff, IH, String.eqb_eq, elem_of_cons. naive_solver.
Qed.

Lemma rows_with_url_absent t url : has_url t url = false → rows_with_url t url = [].
Proof.
  intros H. unfold rows_with_url. induction t as [|r t IH]; [done|].
  simpl in H. apply orb_false_iff in H as [Hr Ht]. apply String.eqb_neq in Hr.
  rewrite filter_cons_False by done. by apply IH.
Qed.

Lemma rows_with_url_once t url :
  NoDup (job_url <$> t) → has_url t url = true → length (rows_with_url t url) = 1.
Proof.
  unfold rows_with_url. induction t as [|r t IH]; [done|].
  rewrite fmap_cons, NoDup_cons. intros [Hr Ht] H.
  destruct (decide (job_url r = url)) as [Heq|Hne].
  - rewrite filter_cons_True by done. simpl. f_equal.
    apply length_zero_iff_nil, rows_with_url_absent.
    destruct (has_url t url) eqn:Hin; [|done].
    apply has_url_spec in Hin. by rewrite Heq in Hr.
  - rewrite filter_cons_False by done. apply IH; [done|].
    simpl in H. apply orb_true_iff in H as [H|H]; [|done]. by apply String.eqb_eq in H.
Qed.

(** Two inserts of one URL in a row, the server working: the second is
    rejected, the table has one row for the URL and keeps its URLs
    distinct. *)
Lemma execute_insert_twice t q1 q2 url title1 text1 title2 text2 :
  NoDup (job_url <$> t) →
  ∃ t1,
    execute_insert None t q1 url title1 text1
      = (t1, if has_url t url then Raise (MySQLError ER_DUP_ENTRY) else Ok ()) ∧
    execute_insert None t1 q2 url title2 text2 = (t1, Raise (MySQLError ER_DUP_ENTRY)) ∧
    length (rows_with_url t1 url) = 1 ∧
    NoDup (job_url <$> t1).
Proof.
  intros Hnd. unfold execute_insert. destruct (has_url t url) eqn:Hin.
  - exists t. rewrite Hin. repeat split; [|done]. by apply rows_with_url_once.
  - set (row := new_row t q1 url title1 text1).
    assert (NoDup (job_url <$> t ++ [row])) as Hnd1.
    { rewrite fmap_app. apply NoDup_app. split; [done|]. split; [|apply NoDup_singleton].
      intros u Hu ->%list_elem_of_singleton. apply has_url_spec in Hu. simpl in Hu. congruence. }
    assert (has_url (t ++ [row]) url = true) as Hin1.
    { apply has_url_spec. rewrite fmap_app. set_solver. }
    exists (t ++ [row]). rewrite Hin1. repeat split; [|done]. by apply rows_with_url_once.
Qed.

End Store.

(** ** Claim on the Ingestion Store *)

Section IngestionStore.

Import Db.

(** C2, counterexample.  The second insert of a URL does not report
    success: [_save_job_to_db] returns [False] for it, the value it also
    returns when the server fails. *)
Lemma second_insert_returns_false :
  JobAgent._save_job_to_db None [] "python" (job_url pending_row) "Backend Engineer" "text"
    = ([new_row [] None (job_url pending_row) "Backend Engineer" "text"], Ok true) ∧
  JobAgent._save_job_to_db None
      [new_row [] None (job_url pending_row) "Backend Engineer" "text"]
      "python" (job_url pending_row) "Backend Engineer" "text"
    = ([new_row [] None (job_url pending_row) "Backend Engineer" "text"], Ok false) ∧
  JobAgent._save_job_to_db (Some 2013%Z) [] "python" (job_url pending_row) "Backend Engineer" "text"
    = ([], Ok false).
Proof. repeat split. Qed.

(** C2 (amended).  On a table whose URLs are distinct and with the server
    working, after two inserts of one URL the table has exactly one row
    for it and neither call raises: the rejection by the uniqueness
    constraint is caught.  [_save_job_to_db] returns [True] for an insert
    that stored the row and [False] for a rejected one, which is also what
    it returns on any other error of the server; the YC and the Wellfound
    scraper log a stored row as saved and a rejected one as a duplicate
    that is skipped. *)
Theorem insert_twice_keeps_one_row t term url title1 text1 title2 text2 :
  NoDup (job_url <$> t) →
  (∃ t1,
     JobAgent._save_job_to_db None t term url title1 text1
       = (t1, Ok (negb (has_url t url))) ∧
     JobAgent._save_job_to_db None t1 term url title2 text2 = (t1, Ok false) ∧
     length (rows_with_url t1 url) = 1 ∧ NoDup (job_url <$> t1)) ∧
  (∃ t1,
     YcScraper.insert_job None t url title1 text1
       = (t1, Ok (if has_url t url then DuplicateSkipped else Saved)) ∧
     YcScraper.insert_job None t1 url title2 text2 = (t1, Ok DuplicateSkipped) ∧
     length (rows_with_url t1 url) = 1 ∧ NoDup (job_url <$> t1)) ∧
  (∃ t1,
     WellfoundScraper.insert_job None t url title1 text1
       = (t1, Ok (if has_url t url then DuplicateSkipped else Saved)) ∧
     WellfoundScraper.insert_job None t1 url title2 text2 = (t1, Ok DuplicateSkipped) ∧
     length (rows_with_url t1 url) = 1 ∧ NoDup (job_url <$> t1)) ∧
  (∀ errno, JobAgent._save_job_to_db (Some errno) t term url title1 text1 = (t, Ok false)).
Proof.
  intros Hnd. split; [|split; [|split]].
  - destruct (execute_insert_twice t None None url title1 text1 title2 text2 Hnd)
      as (t1 & H1 & H2 & Hlen & Hnd1).
    exists t1. unfold JobAgent._save_job_to_db. rewrite H1, H2.
    repeat split; try done. by destruct (has_url t url).
  - destruct (execute_insert_twice t (Some "YC Scraper") (Some "YC Scraper")
                url title1 text1 title2 text2 Hnd) as (t1 & H1 & H2 & Hlen & Hnd1).
    exists t1. unfold YcScraper.insert_job. rewrite H1, H2.
    repeat split; try done. by destruct (has_url t url).
  - destruct (execute_insert_twice t (Some "Wellfound Scraper") (Some "Wellfound Scraper")
                url title1 text1 title2 text2 Hnd) as (t1 & H1 & H2 & Hlen & Hnd1).
    exists t1. unfold WellfoundScraper.insert_job. rewrite H1, H2.
    repeat split; try done. by destruct (has_url t url).
  - intros errno. unfold JobAgent._save_job_to_db. simpl.
    by destruct (errno =? 1062)%Z.
Qed.

Lemma insert_twice_keeps_one_row_witness :
  ∃ t1,
    JobAgent._save_job_to_db None [] "python" (job_url pending_row) "Backend Engineer" "text"
      = (t1, Ok true) ∧
    JobAgent._save_job_to_db None t1 "python" (job_url pending_row) "Backend Engineer II" "more"
      = (t1, Ok false) ∧
    length (rows_with_url t1 (job_url pending_row)) = 1.
Proof.
  destruct (insert_twice_keeps_one_row [] "python" (job_url pending_row)
              "Backend Engineer" "text" "Backend Engineer II" "more")
    as ((t1 & H1 & H2 & H3 & _) & _).
  - constructor.
  - exists t1. auto.
Defined.

End IngestionStore.

(** ** The links of a listing *)

Section Links.

Section WithUnicode.

Context {U : PyStr.Unicode}.

Lemma split_first_idempotent c s :
  PyStr.split_first c (PyStr.split_first c s) = PyStr.split_first c s.
Proof.
  induction s as [|d s IH]; [done|]. simpl.
  destruct (Ascii.eqb c d) eqn:Hcd; [done|]. simpl. by rewrite Hcd, IH.
Qed.

Lemma links_invariant_empty P : links_invariant P [] ∅.
Proof. split; [constructor|]. split; [set_solver|constructor]. Qed.

Lemma links_invariant_add P job_links seen title url :
  links_invariant P job_links seen → url ∉ seen → P url →
  links_invariant P (job_links ++ [(title, url)]) ({[url]} ∪ seen).
Proof.
  intros (Hnd & Hseen & HP) Hnew Hurl. split; [|split].
  - rewrite fmap_app. apply NoDup_app. split; [done|]. split; [|apply NoDup_singleton].
    intros u Hu ->%list_elem_of_singleton. by apply Hseen in Hu.
  - intros u. rewrite fmap_app, elem_of_union, elem_of_app, Hseen. simpl.
    rewrite elem_of_singleton, list_elem_of_singleton. naive_solver.
  - apply Forall_app. split; [done|]. by constructor.
Qed.

Lemma yc_links_loop_invariant links job_links seen :
  links_invariant query_stripped job_links seen →
  ∃ seen', links_invariant query_stripped (YcScraper.links_loop links job_links seen) seen'.
Proof.
  revert job_links seen. induction links as [|link rest IH]; intros job_links seen Hinv.
  - by exists seen.
  - cbn [YcScraper.links_loop].
    repeat match goal with
           | |- context [if ?b then _ else _] => destruct b eqn:?
           end; try (by apply IH).
    apply IH, links_invariant_add; [done| |apply split_first_idempotent].
    match goal with H : bool_decide _ = false |- _ => by apply bool_decide_eq_false in H end.
Qed.

Lemma wellfound_links_loop_invariant links job_links seen :
  links_invariant query_stripped job_links seen →
  ∃ seen',
    links_invariant query_stripped (WellfoundScraper.links_loop links job_links seen) seen'.
Proof.
  revert job_links seen. induction links as [|link rest IH]; intros job_links seen Hinv.
  - by exists seen.
  - cbn [WellfoundScraper.links_loop].
    repeat match goal with
           | |- context [if ?b then _ else _] => destruct b eqn:?
           end; try (by apply IH).
    apply IH, links_invariant_add; [done| |apply split_first_idempotent].
    match goal with H : bool_decide _ = false |- _ => by apply bool_decide_eq_false in H end.
Qed.

Lemma job_agent_links_loop_invariant potential_links valid_links seen :
  links_invariant (λ _, True) valid_links seen →
  ∃ seen',
    links_invariant (λ _, True)
      (JobAgent._extract_job_links_loop potential_links valid_links seen) seen'.
Proof.
  revert valid_links seen.
  induction potential_links as [|link rest IH]; intros valid_links seen Hinv.
  - by exists seen.
  - cbn [JobAgent._extract_job_links_loop].
    destruct link as [e|]; [|by apply IH].
    destruct (JobAgent.we_href e) as [href|]; [|by apply IH].
    destruct (JobAgent.link_ok _ _ _) eqn:Hok; [|by apply IH].
    apply IH, links_invariant_add; [done| |done].
    unfold JobAgent.link_ok in Hok. rewrite !andb_true_iff in Hok.
    destruct Hok as ((((_ & Hnew) & _) & _) & _).
    apply negb_true_iff in Hnew. by apply bool_decide_eq_false in Hnew.
Qed.

(** URLs that are distinct and free of a query string stay distinct when
    the query string is stripped. *)
Lemma stripped_NoDup (job_links : list (string * string)) :
  NoDup (snd <$> job_links) →
  Forall (λ l, query_stripped (snd l)) job_links →
  NoDup (PyStr.split_first "?" ∘ snd <$> job_links).
Proof.
  intros Hnd HP.
  assert (PyStr.split_first "?" ∘ snd <$> job_links = snd <$> job_links) as ->; [|done].
  apply list_fmap_ext. intros i l Hl. rewrite Forall_forall in HP.
  apply HP. by apply list_elem_of_lookup_2 in Hl.
Qed.

End WithUnicode.

End Links.

(** ** Claim on the Source Adapters *)

Section SourceAdapters.

Section WithUnicode.

Context {U : PyStr.Unicode}.

(** C7 (amended).  In the YC and in the Wellfound adapter the links found
    in one run are de-duplicated with a set keyed on the absolute URL with
    its query string stripped: the URLs returned carry no query string and
    no two returned pairs share a URL.  The adapter of [job_agent.py] keys
    its set on the [href] as given, query string included: no two returned
    pairs share an [href]. *)
Theorem returned_links_are_distinct :
  (∀ links,
     let job_links := YcScraper.job_links_of links in
     NoDup (PyStr.split_first "?" ∘ snd <$> job_links) ∧
     Forall (λ l, PyStr.split_first "?" (snd l) = snd l) job_links) ∧
  (∀ links,
     let job_links := WellfoundScraper.job_links_of links in
     NoDup (PyStr.split_first "?" ∘ snd <$> job_links) ∧
     Forall (λ l, PyStr.split_first "?" (snd l) = snd l) job_links) ∧
  (∀ potential_links, NoDup (snd <$> JobAgent._extract_job_links potential_links)).
Proof.
  split; [|split].
  - intros links job_links.
    destruct (yc_links_loop_invariant links [] ∅ (links_invariant_empty _))
      as (seen & Hnd & _ & HP).
    split; [by apply stripped_NoDup | exact HP].
  - intros links job_links.
    destruct (wellfound_links_loop_invariant links [] ∅ (links_invariant_empty _))
      as (seen & Hnd & _ & HP).
    split; [by apply stripped_NoDup | exact HP].
  - intros potential_links.
    by destruct (job_agent_links_loop_invariant potential_links [] ∅ (links_invariant_empty _))
      as (seen & Hnd & _).
Qed.

End WithUnicode.

(** The samples are read with the tables of [ascii_only]. *)
#[local] Existing Instance ascii_only.

(** C7, counterexample.  The adapter of [job_agent.py] keys its set on the
    [href] as the browser gives it: two links to one posting that differ in
    the query string are both returned. *)
Lemma job_agent_keeps_query_variants :
  JobAgent._extract_job_links
    [Ok {| JobAgent.we_href := Some "https://remote.com/jobs/acme/backend-dev-1?ref=a";
           JobAgent.we_text := "Backend Developer" |};
     Ok {| JobAgent.we_href := Some "https://remote.com/jobs/acme/backend-dev-1?ref=b";
           JobAgent.we_text := "Backend Developer" |}]
    = [("Backend Developer", "https://remote.com/jobs/acme/backend-dev-1?ref=a");
       ("Backend Developer", "https://remote.com/jobs/acme/backend-dev-1?ref=b")] ∧
  PyStr.split_first "?" "https://remote.com/jobs/acme/backend-dev-1?ref=a"
    = PyStr.split_first "?" "https://remote.com/jobs/acme/backend-dev-1?ref=b".
Proof. split; vm_compute; reflexivity. Qed.

End SourceAdapters.

(** ** The Incremental Loader *)

Section Loader.

Context {page : Type} (B : browser page).

(** A run of the YC loader never scrolls to confirm; if it declares
    convergence, it does so right after a scroll and stops. *)
Lemma yc_scroll_loop_shape max_scrolls last_height p :
  let events := snd (YcScraper.scroll_loop B max_scrolls last_height p) in
  (ConfirmScrolled ∉ events) ∧
  (Converged ∈ events → ∃ before, events = before ++ [Scrolled; Converged] ∧ Converged ∉ before) ∧
  scrolls events ≤ max_scrolls.
Proof.
  revert last_height p. induction max_scrolls as [|n IH]; intros last_height p.
  - simpl. repeat split; [set_solver|set_solver|done].
  - cbn [YcScraper.scroll_loop]. cbv zeta.
    destruct (_ =? _)%Z.
    + simpl. split; [set_solver|]. split; [|unfold scrolls; simpl; lia].
      intros _. exists []. split; [done|set_solver].
    + specialize (IH (scroll_height B (scroll_to_bottom B p)) (scroll_to_bottom B p)).
      destruct (YcScraper.scroll_loop B n _ _) as [p' events]. simpl in *.
      destruct IH as (Hc & Hconv & Hn). split; [set_solver|]. split.
      * intros [?|Hin]%elem_of_cons; [done|].
        destruct (Hconv Hin) as (before & -> & Hb).
        exists (Scrolled :: before). split; [done|set_solver].
      * unfold scrolls in *. rewrite filter_cons_True by done. simpl. lia.
Qed.

(** If a run of the Wellfound loader declares convergence, it does so
    right after one scroll past the bottom that follows a scroll to the
    bottom, and stops. *)
Lemma wellfound_scroll_loop_shape max_scrolls last_height p :
  let events := snd (WellfoundScraper.scroll_loop B max_scrolls last_height p) in
  (Converged ∈ events →
     ∃ before, events = before ++ [Scrolled; ShowMoreTried; ConfirmScrolled; Converged] ∧
               Converged ∉ before) ∧
  scrolls events ≤ max_scrolls.
Proof.
  revert last_height p. induction max_scrolls as [|n IH]; intros last_height p.
  - simpl. split; [set_solver|done].
  - cbn [WellfoundScraper.scroll_loop]. cbv zeta.
    destruct (_ =? _)%Z; [destruct (_ =? _)%Z|].
    + simpl. split; [|unfold scrolls; simpl; lia].
      intros _. exists []. split; [done|set_solver].
    + match goal with |- context [WellfoundScraper.scroll_loop B n ?h ?q] =>
        specialize (IH h q); destruct (WellfoundScraper.scroll_loop B n h q) as [p' events]
      end.
      simpl in *. destruct IH as (Hconv & Hn). split.
      * intros Hin. assert (Converged ∈ events) as Hin' by set_solver.
        destruct (Hconv Hin') as (before & -> & Hb).
        exists (Scrolled :: ShowMoreTried :: ConfirmScrolled :: before).
        split; [done|set_solver].
      * unfold scrolls in *. rewrite filter_cons_True by done.
        rewrite !filter_cons_False by done. simpl. lia.
    + match goal with |- context [WellfoundScraper.scroll_loop B n ?h ?q] =>
        specialize (IH h q); destruct (WellfoundScraper.scroll_loop B n h q) as [p' events]
      end.
      simpl in *. destruct IH as (Hconv & Hn). split.
      * intros Hin. assert (Converged ∈ events) as Hin' by set_solver.
        destruct (Hconv Hin') as (before & -> & Hb).
        exists (Scrolled :: ShowMoreTried :: before).
        split; [done|set_solver].
      * unfold scrolls in *. rewrite filter_cons_True by done.
        rewrite filter_cons_False by done. simpl. lia.
Qed.

Lemma attempts_eq events :
  attempts events = scrolls events + length (filter (λ e, e = ConfirmScrolled) events).
Proof.
  unfold attempts, scrolls. induction events as [|e events IH]; [done|].
  destruct e.
  - rewrite !filter_cons_True, (filter_cons_False _ Scrolled) by (done || by left).
    cbn [length]. lia.
  - rewrite !filter_cons_False by (done || by intros [|]). done.
  - rewrite (filter_cons_True _ ConfirmScrolled) by by right.
    rewrite filter_cons_False, (filter_cons_True _ ConfirmScrolled) by done.
    cbn [length]. lia.
  - rewrite !filter_cons_False by (done || by intros [|]). done.
Qed.

Lemma scrolls_cons_scrolled events : scrolls (Scrolled :: events) = S (scrolls events).
Proof. unfold scrolls. by rewrite filter_cons_True. Qed.

Lemma scrolls_cons_other e events : e ≠ Scrolled → scrolls (e :: events) = scrolls events.
Proof. intros H. unfold scrolls. by rewrite filter_cons_False. Qed.

Lemma yc_scroll_loop_pages max_scrolls p :
  let r := YcScraper.scroll_loop B max_scrolls (scroll_height B p) p in
  r.1 = Nat.iter (scrolls r.2) (scroll_to_bottom B) p ∧
  (Converged ∉ r.2 → scrolls r.2 = max_scrolls) ∧
  (Converged ∈ r.2 →
     ∃ k, scrolls r.2 = S k ∧
          scroll_height B r.1 = scroll_height B (Nat.iter k (scroll_to_bottom B) p)) ∧
  (∀ k, S k < scrolls r.2 ∨ (S k = scrolls r.2 ∧ Converged ∉ r.2) →
     scroll_height B (Nat.iter (S k) (scroll_to_bottom B) p)
       ≠ scroll_height B (Nat.iter k (scroll_to_bottom B) p)).
Proof.
  revert p. induction max_scrolls as [|n IH]; intros p.
  - cbn. split; [done|]. split; [done|]. split; [by intros ?%elem_of_nil|].
    intros k [H|[H _]]; unfold scrolls in H; cbn in H; lia.
  - cbn [YcScraper.scroll_loop]. cbv zeta.
    destruct (_ =? _)%Z eqn:Hh.
    + apply Z.eqb_eq in Hh. cbn [fst snd].
      rewrite scrolls_cons_scrolled, (scrolls_cons_other Converged) by done.
      change (scrolls []) with 0. cbn [Nat.iter nat_rect].
      split; [done|]. split; [intros H; exfalso; apply H; set_solver|].
      split; [intros _; by exists 0|].
      intros k [H|[_ H]]; [lia|]. exfalso; apply H; set_solver.
    + apply Z.eqb_neq in Hh. specialize (IH (scroll_to_bottom B p)).
      destruct (YcScraper.scroll_loop B n _ _) as [p' events]. cbn [fst snd] in *.
      destruct IH as (Hp & Hbudget & Hconv & Hgrow).
      rewrite scrolls_cons_scrolled. split; [by rewrite Nat.iter_succ_r|].
      split; [intros H; f_equal; apply Hbudget; set_solver|]. split.
      * intros [?|Hin]%elem_of_cons; [done|].
        destruct (Hconv Hin) as (k & Hk & Heq). exists (S k).
        split; [by rewrite Hk|]. by rewrite Nat.iter_succ_r.
      * intros [|k] Hk; [done|]. rewrite !Nat.iter_succ_r. rewrite <- Nat.iter_succ_r.
        apply Hgrow. destruct Hk as [Hk|[Hk Hc]]; [left; lia|right].
        split; [lia|set_solver].
Qed.

Lemma wellfound_scroll_loop_budget max_scrolls last_height p :
  let events := (WellfoundScraper.scroll_loop B max_scrolls last_height p).2 in
  length (filter (λ e, e = ShowMoreTried) events) = scrolls events ∧
  length (filter (λ e, e = ConfirmScrolled) events) ≤ scrolls events ∧
  (Converged ∉ events → scrolls events = max_scrolls).
Proof.
  revert last_height p. induction max_scrolls as [|n IH]; intros last_height p.
  - cbn. done.
  - cbn [WellfoundScraper.scroll_loop]. cbv zeta.
    destruct (_ =? _)%Z; [destruct (_ =? _)%Z|].
    + cbn [fst snd]. split; [done|]. split; [vm_compute; lia|].
      intros H. exfalso. apply H. set_solver.
    + match goal with |- context [WellfoundScraper.scroll_loop B n ?h ?q] =>
        specialize (IH h q); destruct (WellfoundScraper.scroll_loop B n h q) as [p' events]
      end.
      cbn [fst snd] in *. destruct IH as (Hs & Hc & Hb).
      rewrite scrolls_cons_scrolled, !scrolls_cons_other by done.
      rewrite (filter_cons_False _ Scrolled), (filter_cons_True _ ShowMoreTried),
        (filter_cons_False _ ConfirmScrolled) by done.
      rewrite (filter_cons_False _ Scrolled), (filter_cons_False _ ShowMoreTried),
        (filter_cons_True _ ConfirmScrolled) by done.
      cbn [length]. split; [lia|]. split; [lia|].
      intros H. f_equal. apply Hb. set_solver.
    + match goal with |- context [WellfoundScraper.scroll_loop B n ?h ?q] =>
        specialize (IH h q); destruct (WellfoundScraper.scroll_loop B n h q) as [p' events]
      end.
      cbn [fst snd] in *. destruct IH as (Hs & Hc & Hb).
      rewrite scrolls_cons_scrolled, !scrolls_cons_other by done.
      rewrite (filter_cons_False _ Scrolled), (filter_cons_True _ ShowMoreTried) by done.
      rewrite (filter_cons_False _ Scrolled), (filter_cons_False _ ShowMoreTried) by done.
      cbn [length]. split; [lia|]. split; [lia|].
      intros H. f_equal. apply Hb. set_solver.
Qed.

End Loader.

(** ** Claim on the Incremental Loader *)

Section IncrementalLoader.

(** C5, counterexample.  On a page whose height stays at 100 the YC loader
    declares convergence after its first scroll, without a confirmatory
    attempt. *)
Lemma yc_loader_does_not_confirm :
  snd (YcScraper.load_page fixed_page 3 0) = [Scrolled; Converged] ∧
  ConfirmScrolled ∉ snd (YcScraper.load_page fixed_page 3 0).
Proof. split; [reflexivity|]. vm_compute. set_solver. Qed.

(** C5 (amended).  After each scroll to the bottom the height is compared
    with the previous one.  When it has changed, both loaders go on with
    the new height, the Wellfound loader after it has looked for the button
    [Show more].  When it is unchanged, the YC loader declares convergence
    at once, without a confirmatory attempt, whereas the Wellfound loader
    makes one confirmatory scroll past the bottom and declares convergence
    if the height is still unchanged, and goes on otherwise.  So a run that
    declares convergence ends with it; the YC loader makes as many attempts
    as it scrolls to the bottom, at most its budget; the Wellfound loader
    scrolls to the bottom at most as often as its budget allows, and with
    the confirmatory scrolls makes at most twice as many attempts; both use
    the whole budget when they do not declare convergence.  With a budget
    of 3 and the heights 100, 100 the YC loader converges after 1 attempt
    and the Wellfound loader after 2, the scroll and the confirmatory one;
    with a budget of 1 the Wellfound loader makes these 2 attempts too. *)
Theorem loader_convergence :
  (∀ page (B : browser page) n last_height p,
     let p1 := scroll_to_bottom B p in
     YcScraper.scroll_loop B 0 last_height p = (p, []) ∧
     (scroll_height B p1 = last_height →
        YcScraper.scroll_loop B (S n) last_height p = (p1, [Scrolled; Converged])) ∧
     (scroll_height B p1 ≠ last_height →
        YcScraper.scroll_loop B (S n) last_height p
          = (fst (YcScraper.scroll_loop B n (scroll_height B p1) p1),
             Scrolled :: snd (YcScraper.scroll_loop B n (scroll_height B p1) p1)))) ∧
  (∀ page (B : browser page) n last_height p,
     let p1 := scroll_to_bottom B p in
     let p2 := click_show_more B p1 in
     let p3 := scroll_past_bottom B p2 in
     WellfoundScraper.scroll_loop B 0 last_height p = (p, []) ∧
     (scroll_height B p1 ≠ last_height →
        WellfoundScraper.scroll_loop B (S n) last_height p
          = (fst (WellfoundScraper.scroll_loop B n (scroll_height B p1) p2),
             Scrolled :: ShowMoreTried ::
               snd (WellfoundScraper.scroll_loop B n (scroll_height B p1) p2))) ∧
     (scroll_height B p1 = last_height → scroll_height B p3 = last_height →
        WellfoundScraper.scroll_loop B (S n) last_height p
          = (p3, [Scrolled; ShowMoreTried; ConfirmScrolled; Converged])) ∧
     (scroll_height B p1 = last_height → scroll_height B p3 ≠ last_height →
        WellfoundScraper.scroll_loop B (S n) last_height p
          = (fst (WellfoundScraper.scroll_loop B n last_height p3),
             Scrolled :: ShowMoreTried :: ConfirmScrolled ::
               snd (WellfoundScraper.scroll_loop B n last_height p3)))) ∧
  (∀ page (B : browser page) max_scrolls p,
     let events := snd (YcScraper.load_page B max_scrolls p) in
     (ConfirmScrolled ∉ events) ∧
     (Converged ∈ events →
        ∃ before, events = before ++ [Scrolled; Converged] ∧ Converged ∉ before) ∧
     attempts events = scrolls events ∧
     scrolls events ≤ max_scrolls ∧
     (Converged ∉ events → scrolls events = max_scrolls)) ∧
  (∀ page (B : browser page) max_scrolls p,
     let events := snd (WellfoundScraper.load_page B max_scrolls p) in
     (Converged ∈ events →
        ∃ before, events = before ++ [Scrolled; ShowMoreTried; ConfirmScrolled; Converged] ∧
                  Converged ∉ before) ∧
     scrolls events ≤ max_scrolls ∧
     attempts events ≤ 2 * scrolls events ∧
     (Converged ∉ events → scrolls events = max_scrolls)) ∧
  YcScraper.load_page fixed_page 3 0 = (1, [Scrolled; Converged]) ∧
  WellfoundScraper.load_page fixed_page 3 0
    = (2, [Scrolled; ShowMoreTried; ConfirmScrolled; Converged]) ∧
  attempts (snd (YcScraper.load_page fixed_page 3 0)) = 1 ∧
  attempts (snd (WellfoundScraper.load_page fixed_page 3 0)) = 2 ∧
  attempts (snd (WellfoundScraper.load_page fixed_page 1 0)) = 2.
Proof.
  split; [|split; [|split; [|split]]].
  - intros page B n last_height p p1. split; [done|].
    cbn [YcScraper.scroll_loop]. cbv zeta. fold p1. split.
    + intros H. by rewrite H, Z.eqb_refl.
    + intros H%Z.eqb_neq. rewrite H.
      by destruct (YcScraper.scroll_loop B n (scroll_height B p1) p1).
  - intros page B n last_height p p1 p2 p3. split; [done|].
    cbn [WellfoundScraper.scroll_loop]. cbv zeta. fold p1. fold p2. fold p3.
    split; [|split].
    + intros H%Z.eqb_neq. rewrite H.
      by destruct (WellfoundScraper.scroll_loop B n (scroll_height B p1) p2).
    + intros H H3. by rewrite H, H3, Z.eqb_refl.
    + intros H H3%Z.eqb_neq. rewrite H, Z.eqb_refl, H3.
      by destruct (WellfoundScraper.scroll_loop B n last_height p3).
  - intros page B max_scrolls p events.
    destruct (yc_scroll_loop_shape B max_scrolls (scroll_height B p) p) as (Hc & Hconv & Hn).
    destruct (yc_scroll_loop_pages B max_scrolls p) as (_ & Hbudget & _).
    split; [exact Hc|]. split; [exact Hconv|]. split; [|split; [exact Hn|exact Hbudget]].
    rewrite attempts_eq. unfold events, YcScraper.load_page.
    rewrite (filter_eq_absent ConfirmScrolled) by exact Hc. cbn [length]. lia.
  - intros page B max_scrolls p events.
    destruct (wellfound_scroll_loop_shape B max_scrolls (scroll_height B p) p) as (Hconv & Hn).
    destruct (wellfound_scroll_loop_budget B max_scrolls (scroll_height B p) p)
      as (_ & Hconfirm & Hbudget).
    split; [exact Hconv|]. split; [exact Hn|]. split; [|exact Hbudget].
    rewrite attempts_eq. unfold events, WellfoundScraper.load_page. cbv zeta in Hconfirm. lia.
  - repeat split; reflexivity.
Qed.

Lemma loader_convergence_witness :
  ∃ before,
    snd (WellfoundScraper.load_page fixed_page 3 0)
      = before ++ [Scrolled; ShowMoreTried; ConfirmScrolled; Converged] ∧
    Converged ∉ before.
Proof.
  destruct loader_convergence as (_ & _ & _ & H & _).
  apply (H nat fixed_page 3 0). vm_compute. set_solver.
Defined.

End IncrementalLoader.

(** ** [strip] *)

Section Strip.

Lemma str_app_inv_l a b c : a +:+ b = a +:+ c → b = c.
Proof. induction a as [|x a IH]; [done|]. rewrite !str_app_cons. intros [= H]. by apply IH. Qed.

Lemma str_length_app a b : String.length (a +:+ b) = String.length a + String.length b.
Proof. induction a as [|c a IH]; [done|]. rewrite str_app_cons. cbn. by rewrite IH. Qed.

Lemma str_drop_app a b : str_drop (String.length a) (a +:+ b) = b.
Proof. induction a as [|c a IH]; [by destruct b|]. by rewrite str_app_cons. Qed.

Lemma str_drop_nil n : str_drop n EmptyString = EmptyString.
Proof. by destruct n. Qed.

Lemma endswith_spec x s : PyStr.endswith x s = true ↔ ∃ a, s = a +:+ x.
Proof.
  induction s as [|c s IH]; cbn [PyStr.endswith].
  - rewrite orb_false_r, String.eqb_eq. split.
    + intros ->. by exists EmptyString.
    + intros [a H]. destruct a; [done|]. by rewrite str_app_cons in H.
  - rewrite orb_true_iff, String.eqb_eq, IH. split.
    + intros [->|[a ->]]; [by exists EmptyString|]. by exists (String c a).
    + intros [a H]. destruct a as [|d a]; [left; by rewrite str_app_nil_l in H|].
      right. rewrite str_app_cons in H. injection H as _ ->. by exists a.
Qed.

(** Two texts that start one text: one of them starts the other. *)
Lemma prefix_total a b c d : a +:+ b = c +:+ d → String.prefix a c = true ∨ String.prefix c a = true.
Proof.
  revert c. induction a as [|x a IH]; intros c H; [left; by destruct c|].
  destruct c as [|y c]; [by right|].
  rewrite !str_app_cons in H. injection H as -> H.
  destruct (IH c H) as [Hp|Hp]; [left|right]; cbn; by destruct (ascii_dec y y).
Qed.

(** No whitespace character starts another one. *)
Lemma whitespace_prefix_free x y :
  x ∈ PyStr.whitespace → y ∈ PyStr.whitespace → String.prefix x y = true → x = y.
Proof.
  assert (Forall (λ x, Forall (λ y, String.prefix x y = true → x = y) PyStr.whitespace)
            PyStr.whitespace) as H.
  { refine (bool_decide_unpack _ _). vm_compute. exact I. }
  rewrite Forall_forall in H. intros Hx Hy. specialize (H x Hx). rewrite Forall_forall in H.
  by apply H.
Qed.

Lemma whitespace_nonempty x : x ∈ PyStr.whitespace → ∃ k, String.length x = S k.
Proof.
  assert (Forall (λ x, ∃ k, String.length x = S k) PyStr.whitespace) as H.
  { repeat constructor; by eexists. }
  rewrite Forall_forall in H. apply H.
Qed.

Lemma space_width_spec s :
  match PyStr.space_width s with
  | S k => ∃ x rest, x ∈ PyStr.whitespace ∧ s = x +:+ rest ∧ String.length x = S k
  | O => first_is_space s = false
  end.
Proof.
  unfold PyStr.space_width, first_is_space.
  destruct (find _ _) as [x|] eqn:Hfind.
  - apply find_some in Hfind as [Hin Hp]. apply list_elem_of_In in Hin.
    destruct (whitespace_nonempty x Hin) as [k Hk]. rewrite Hk.
    apply prefix_spec in Hp as [rest ->]. by exists x, rest.
  - destruct (existsb _ _) eqn:Hex; [|done].
    apply existsb_exists in Hex as (x & Hin & Hp).
    by rewrite (find_none _ _ Hfind x Hin) in Hp.
Qed.

Lemma space_width_app x rest :
  x ∈ PyStr.whitespace → PyStr.space_width (x +:+ rest) = String.length x.
Proof.
  intros Hx. pose proof (space_width_spec (x +:+ rest)) as H.
  destruct (PyStr.space_width _) as [|k].
  - unfold first_is_space in H.
    assert (existsb (λ y, String.prefix y (x +:+ rest)) PyStr.whitespace = true) as H'.
    { apply existsb_exists. exists x. split; [by apply list_elem_of_In|].
      apply prefix_spec. by exists rest. }
    congruence.
  - destruct H as (y & rest' & Hy & Heq & Hk). rewrite <- Hk. f_equal.
    destruct (prefix_total _ _ _ _ Heq) as [Hp|Hp].
    + symmetry. by apply whitespace_prefix_free.
    + by apply whitespace_prefix_free.
Qed.

Lemma first_is_space_width s : first_is_space s = false → PyStr.space_width s = 0.
Proof.
  intros H. pose proof (space_width_spec s) as Hs.
  destruct (PyStr.space_width s) as [|k]; [done|].
  destruct Hs as (x & rest & Hx & -> & _). unfold first_is_space in H.
  assert (existsb (λ y, String.prefix y (x +:+ rest)) PyStr.whitespace = true) as H'.
  { apply existsb_exists. exists x. split; [by apply list_elem_of_In|].
    apply prefix_spec. by exists rest. }
  congruence.
Qed.

Lemma lstrip_go_drop k s :
  k ≤ String.length s → PyStr.lstrip_go k s = PyStr.lstrip (str_drop k s).
Proof.
  revert k. induction s as [|c s IH]; intros k Hk.
  - by rewrite str_drop_nil.
  - destruct k as [|k]; [done|]. cbn [PyStr.lstrip_go str_drop]. apply IH. cbn in Hk. lia.
Qed.

Lemma lstrip_space x rest :
  x ∈ PyStr.whitespace → PyStr.lstrip (x +:+ rest) = PyStr.lstrip rest.
Proof.
  intros Hx. destruct (whitespace_nonempty x Hx) as [k Hk].
  destruct x as [|c x]; [done|]. rewrite str_app_cons. unfold PyStr.lstrip at 1.
  cbn [PyStr.lstrip_go]. rewrite <- str_app_cons, (space_width_app _ rest Hx), Hk.
  cbn in Hk. injection Hk as <-. rewrite lstrip_go_drop.
  - by rewrite str_drop_app.
  - rewrite str_length_app. lia.
Qed.

Lemma lstrip_id s : first_is_space s = false → PyStr.lstrip s = s.
Proof.
  intros H. destruct s as [|c s]; [done|]. unfold PyStr.lstrip. cbn [PyStr.lstrip_go].
  by rewrite (first_is_space_width _ H).
Qed.

Lemma lstrip_go_first k s :
  k ≤ String.length s → first_is_space (PyStr.lstrip_go k s) = false.
Proof.
  revert k. induction s as [|c s IH]; intros k Hk; [done|].
  cbn [PyStr.lstrip_go]. destruct k as [|k]; [|apply IH; cbn in Hk; lia].
  pose proof (space_width_spec (String c s)) as Hs.
  destruct (PyStr.space_width (String c s)) as [|j]; [done|].
  destruct Hs as (x & rest & Hx & Heq & Hj). apply IH.
  apply (f_equal String.length) in Heq. rewrite str_length_app in Heq. cbn in Heq. lia.
Qed.

Lemma lstrip_first s : first_is_space (PyStr.lstrip s) = false.
Proof. apply lstrip_go_first. lia. Qed.

(** A text of whitespace that is not empty ends with a whitespace
    character. *)
Lemma all_space_last_go k s :
  k ≤ String.length s → PyStr.lstrip_go k s = EmptyString → str_drop k s ≠ EmptyString →
  ∃ x a, x ∈ PyStr.whitespace ∧ str_drop k s = a +:+ x.
Proof.
  revert k. induction s as [|c s IH]; intros k Hk Hl Hne.
  - by rewrite str_drop_nil in Hne.
  - destruct k as [|k]; [|apply IH; [cbn in Hk; lia|done..]].
    cbn [PyStr.lstrip_go] in Hl. cbn [str_drop].
    pose proof (space_width_spec (String c s)) as Hs.
    destruct (PyStr.space_width (String c s)) as [|j]; [done|].
    destruct Hs as (x & rest & Hx & Heq & Hj).
    destruct x as [|d x]; [done|]. rewrite str_app_cons in Heq. injection Heq as <- ->.
    cbn in Hj. injection Hj as <-.
    destruct rest as [|e rest].
    + exists (String c x), EmptyString. split; [done|]. by rewrite str_app_nil_r.
    + destruct (IH (String.length x)) as (y & a & Hy & Ha).
      * rewrite str_length_app. lia.
      * done.
      * by rewrite str_drop_app.
      * rewrite str_drop_app in Ha. exists y, (String c x +:+ a). split; [done|].
        by rewrite Ha, str_app_assoc.
Qed.

Lemma all_space_last s :
  PyStr.all_space s = true → s ≠ EmptyString → last_is_space s = true.
Proof.
  unfold PyStr.all_space, PyStr.lstrip. intros H Hne.
  destruct (all_space_last_go 0 s) as (x & a & Hx & Heq); [lia| |by destruct s|].
  - by destruct (PyStr.lstrip_go 0 s).
  - apply existsb_exists. exists x. split; [by apply list_elem_of_In|].
    apply endswith_spec. exists a. by destruct s.
Qed.

Lemma all_space_app x rest :
  x ∈ PyStr.whitespace → PyStr.all_space (x +:+ rest) = PyStr.all_space rest.
Proof. intros Hx. unfold PyStr.all_space. by rewrite lstrip_space. Qed.

Lemma rstrip_prefix s : ∃ v, s = PyStr.rstrip s +:+ v ∧ PyStr.all_space v = true.
Proof.
  induction s as [|c s (v & Hv & Hs)]; [by exists EmptyString|].
  cbn [PyStr.rstrip]. destruct (PyStr.all_space (String c s)) eqn:Hc.
  - by exists (String c s).
  - exists v. by rewrite str_app_cons, <- Hv.
Qed.

(** Nothing that [rstrip] keeps starts a run of whitespace that goes to
    the end. *)
Lemma rstrip_keeps s a b v :
  PyStr.rstrip s = a +:+ b → b ≠ EmptyString → s = a +:+ b +:+ v →
  PyStr.all_space (b +:+ v) = false.
Proof.
  revert a. induction s as [|c s IH]; intros a Hr Hb Hs.
  - destruct a, b; done.
  - cbn [PyStr.rstrip] in Hr. destruct (PyStr.all_space (String c s)) eqn:Hc.
    + destruct a, b; done.
    + destruct a as [|d a].
      * rewrite str_app_nil_l in Hs. by rewrite <- Hs.
      * rewrite str_app_cons in Hr, Hs. injection Hr as <- Hr. injection Hs as Hs.
        by apply (IH a).
Qed.

Lemma last_is_space_spec s :
  last_is_space s = true ↔ ∃ x a, x ∈ PyStr.whitespace ∧ s = a +:+ x.
Proof.
  unfold last_is_space. rewrite existsb_exists. split.
  - intros (x & Hx & [a Ha]%endswith_spec). exists x, a. by rewrite list_elem_of_In.
  - intros (x & a & Hx & Ha). exists x. split; [by apply list_elem_of_In|].
    apply endswith_spec. by exists a.
Qed.

Lemma first_is_space_spec s :
  first_is_space s = true ↔ ∃ x rest, x ∈ PyStr.whitespace ∧ s = x +:+ rest.
Proof.
  unfold first_is_space. rewrite existsb_exists. split.
  - intros (x & Hx & [a Ha]%prefix_spec). exists x, a. by rewrite list_elem_of_In.
  - intros (x & a & Hx & Ha). exists x. split; [by apply list_elem_of_In|].
    apply prefix_spec. by exists a.
Qed.

Lemma rstrip_last s : last_is_space (PyStr.rstrip s) = false.
Proof.
  destruct (last_is_space (PyStr.rstrip s)) eqn:H; [|done].
  apply last_is_space_spec in H as (x & a & Hx & Ha).
  destruct (rstrip_prefix s) as (v & Hv & Hs). rewrite Ha, str_app_assoc in Hv.
  assert (x ≠ EmptyString) as Hne.
  { destruct (whitespace_nonempty x Hx) as [k Hk]. by destruct x. }
  pose proof (rstrip_keeps s a x v Ha Hne Hv) as Hk.
  by rewrite all_space_app, Hs in Hk.
Qed.

Lemma rstrip_first s : first_is_space s = false → first_is_space (PyStr.rstrip s) = false.
Proof.
  intros H. destruct (first_is_space (PyStr.rstrip s)) eqn:Hr; [|done].
  apply first_is_space_spec in Hr as (x & rest & Hx & Hr).
  destruct (rstrip_prefix s) as (v & Hv & _).
  assert (first_is_space s = true) as H'; [|congruence].
  apply first_is_space_spec. exists x, (rest +:+ v). split; [done|].
  by rewrite Hv, Hr, str_app_assoc.
Qed.

Lemma last_is_space_cons c s : last_is_space s = true → last_is_space (String c s) = true.
Proof.
  intros (x & a & Hx & ->)%last_is_space_spec. apply last_is_space_spec.
  by exists x, (String c a).
Qed.

Lemma rstrip_id s : last_is_space s = false → PyStr.rstrip s = s.
Proof.
  induction s as [|c s IH]; [done|]. intros H. cbn [PyStr.rstrip].
  destruct (PyStr.all_space (String c s)) eqn:Hc.
  - apply all_space_last in Hc; [congruence|done].
  - rewrite IH; [done|]. destruct (last_is_space s) eqn:Hs; [|done].
    apply (last_is_space_cons c) in Hs. congruence.
Qed.

Lemma strip_first s : first_is_space (PyStr.strip s) = false.
Proof. apply rstrip_first, lstrip_first. Qed.

Lemma strip_last s : last_is_space (PyStr.strip s) = false.
Proof. apply rstrip_last. Qed.

Lemma strip_id s : first_is_space s = false → last_is_space s = false → PyStr.strip s = s.
Proof. intros H1 H2. unfold PyStr.strip. by rewrite (lstrip_id _ H1), rstrip_id. Qed.

Lemma strip_idempotent s : PyStr.strip (PyStr.strip s) = PyStr.strip s.
Proof. apply strip_id; [apply strip_first | apply strip_last]. Qed.

End Strip.

(** ** Whitespace normalisation *)

Section Whitespace.

Lemma join_cons_cons sep x y l :
  PyStr.join sep (x :: y :: l) = x +:+ sep +:+ PyStr.join sep (y :: l).
Proof. reflexivity. Qed.

Lemma no_ascii_space_app a b : no_ascii_space (a +:+ b) = no_ascii_space a && no_ascii_space b.
Proof.
  induction a as [|c a IH]; [done|]. rewrite str_app_cons. simpl.
  by rewrite IH, andb_assoc.
Qed.

Lemma split_go_words word s :
  no_ascii_space word = true → Forall is_ascii_word (PyStr.split_go word s).
Proof.
  revert word. induction s as [|c s IH]; intros word Hw; cbn [PyStr.split_go].
  - destruct (PyStr.nonempty word) eqn:Hne; [|constructor]. by repeat constructor.
  - destruct (PyStr.is_ascii_space c) eqn:Hc.
    + destruct (PyStr.nonempty word) eqn:Hne; [constructor; [done|]|]; by apply IH.
    + apply IH. rewrite no_ascii_space_app, Hw. simpl. by rewrite Hc.
Qed.

Lemma split_go_occurs word s :
  Forall (λ w, occurs_in w (word +:+ s)) (PyStr.split_go word s).
Proof.
  revert word. induction s as [|c s IH]; intros word; cbn [PyStr.split_go].
  - destruct (PyStr.nonempty word); [|constructor].
    constructor; [|constructor]. rewrite str_app_nil_r. apply occurs_in_refl.
  - assert (Forall (λ w, occurs_in w (word +:+ String c s)) (PyStr.split_go EmptyString s)) as Hrest.
    { eapply Forall_impl; [apply (IH EmptyString)|]. intros w Hw. simpl in Hw.
      by apply occurs_in_app_l, occurs_in_cons. }
    destruct (PyStr.is_ascii_space c).
    + destruct (PyStr.nonempty word); [constructor|]; try done.
      apply occurs_in_app_r, occurs_in_refl.
    + specialize (IH (word +:+ String c EmptyString)).
      by rewrite str_app_assoc in IH.
Qed.

Lemma split_ascii_words s : Forall is_ascii_word (PyStr.split s).
Proof. by apply split_go_words. Qed.

Lemma split_occurs s :
  Forall (λ w, occurs_in w (PyStr.spaces_to_ascii PyStr.unicode_spaces s)) (PyStr.split s).
Proof. apply (split_go_occurs EmptyString). Qed.

Lemma no_ascii_space_occurs w c :
  no_ascii_space w = true → occurs_in (String c EmptyString) w → PyStr.is_ascii_space c = false.
Proof.
  intros Hw (a & b & ->). rewrite !no_ascii_space_app in Hw.
  apply andb_true_iff in Hw as [_ [Hc _]%andb_true_iff]. cbn in Hc.
  rewrite andb_true_r in Hc. by apply negb_true_iff in Hc.
Qed.

Lemma word_first_is_ascii_space w t : is_ascii_word w → first_is_ascii_space (w +:+ t) = false.
Proof.
  intros [Hne Hw]. destruct w as [|c w]; [done|]. simpl in *.
  apply andb_true_iff in Hw as [Hc _]. by apply negb_true_iff in Hc.
Qed.

Lemma join_words_first l : Forall is_ascii_word l → first_is_ascii_space (PyStr.join " " l) = false.
Proof.
  intros [|w ws Hw Hws]; [done|]. destruct ws as [|y ws].
  - change (PyStr.join " " [w]) with w.
    rewrite <- (str_app_nil_r w). by apply word_first_is_ascii_space.
  - rewrite join_cons_cons. by apply word_first_is_ascii_space.
Qed.

Lemma join_words_nonempty w ws :
  is_ascii_word w → PyStr.nonempty (PyStr.join " " (w :: ws)) = true.
Proof.
  intros [Hne _]. destruct w as [|c w]; [done|]. by destruct ws.
Qed.

Lemma has_ascii_space_run_cons_cons c d r :
  has_ascii_space_run (String c (String d r))
    = PyStr.is_ascii_space c && PyStr.is_ascii_space d || has_ascii_space_run (String d r).
Proof. reflexivity. Qed.

Lemma has_ascii_space_run_cons c t :
  PyStr.is_ascii_space c = false → has_ascii_space_run (String c t) = has_ascii_space_run t.
Proof. intros Hc. destruct t; simpl; [done|]. by rewrite Hc. Qed.

Lemma has_ascii_space_run_word w t : no_ascii_space w = true → has_ascii_space_run (w +:+ t) = has_ascii_space_run t.
Proof.
  induction w as [|c w IH]; [done|]. intros H. cbn [no_ascii_space] in H.
  apply andb_true_iff in H as [Hc Hw]. apply negb_true_iff in Hc.
  rewrite str_app_cons, has_ascii_space_run_cons by done. by apply IH.
Qed.

Lemma join_words_no_run l : Forall is_ascii_word l → has_ascii_space_run (PyStr.join " " l) = false.
Proof.
  induction 1 as [|w ws [Hne Hw] Hws IH]; [done|]. destruct ws as [|y ws].
  - change (PyStr.join " " [w]) with w.
    rewrite <- (str_app_nil_r w). by rewrite has_ascii_space_run_word.
  - rewrite join_cons_cons, has_ascii_space_run_word by done.
    pose proof (join_words_first _ Hws) as Hfirst.
    pose proof (join_words_nonempty y ws (Forall_inv Hws)) as Hj.
    destruct (PyStr.join " " (y :: ws)) as [|d r]; [done|].
    simpl in Hfirst. change (" " +:+ String d r) with (String " " (String d r)).
    by rewrite has_ascii_space_run_cons_cons, Hfirst, andb_false_r, IH.
Qed.

Lemma last_is_ascii_space_app a b :
  last_is_ascii_space (a +:+ b) = if PyStr.nonempty b then last_is_ascii_space b else last_is_ascii_space a.
Proof.
  induction a as [|c a IH]; [by destruct b|].
  rewrite str_app_cons. cbn [last_is_ascii_space]. rewrite IH.
  destruct b; [by rewrite str_app_nil_r|]. by destruct a.
Qed.

Lemma word_last_is_ascii_space w : no_ascii_space w = true → last_is_ascii_space w = false.
Proof.
  induction w as [|c w IH]; [done|]. simpl. intros [Hc Hw]%andb_true_iff.
  destruct w; [by apply negb_true_iff in Hc | by apply IH].
Qed.

Lemma join_words_last l : Forall is_ascii_word l → last_is_ascii_space (PyStr.join " " l) = false.
Proof.
  induction 1 as [|w ws [Hne Hw] Hws IH]; [done|]. destruct ws as [|y ws].
  - by apply word_last_is_ascii_space.
  - rewrite join_cons_cons, !last_is_ascii_space_app.
    by rewrite (join_words_nonempty y ws (Forall_inv Hws)).
Qed.

Lemma ascii_spaces_plain_app a b : ascii_spaces_plain (a +:+ b) = ascii_spaces_plain a && ascii_spaces_plain b.
Proof.
  induction a as [|c a IH]; [done|]. rewrite str_app_cons. simpl.
  by rewrite IH, andb_assoc.
Qed.

Lemma word_ascii_spaces_plain w : no_ascii_space w = true → ascii_spaces_plain w = true.
Proof.
  induction w as [|c w IH]; [done|]. simpl. intros [Hc Hw]%andb_true_iff.
  by rewrite Hc, IH.
Qed.

Lemma join_words_ascii_spaces_plain l : Forall is_ascii_word l → ascii_spaces_plain (PyStr.join " " l) = true.
Proof.
  induction 1 as [|w ws [Hne Hw] Hws IH]; [done|]. destruct ws as [|y ws].
  - by apply word_ascii_spaces_plain.
  - by rewrite join_cons_cons, !ascii_spaces_plain_app, word_ascii_spaces_plain, IH.
Qed.

(** What the three tests say, in terms of the characters of the text. *)

Lemma has_ascii_space_run_false s a c d b :
  has_ascii_space_run s = false → s = a +:+ String c (String d b) →
  ¬ (PyStr.is_ascii_space c = true ∧ PyStr.is_ascii_space d = true).
Proof.
  revert s. induction a as [|x a IH]; intros s Hrun -> [Hc Hd].
  - rewrite str_app_nil_l, has_ascii_space_run_cons_cons, Hc, Hd in Hrun. done.
  - rewrite str_app_cons in Hrun.
    apply (IH (a +:+ String c (String d b))); [|done..].
    destruct a as [|y a].
    + rewrite str_app_nil_l in *. rewrite has_ascii_space_run_cons_cons in Hrun.
      by apply orb_false_iff in Hrun as [_ ?].
    + rewrite str_app_cons in *. rewrite has_ascii_space_run_cons_cons in Hrun.
      by apply orb_false_iff in Hrun as [_ ?].
Qed.

Lemma ascii_spaces_plain_true s a c b :
  ascii_spaces_plain s = true → s = a +:+ String c b → PyStr.is_ascii_space c = true → c = " "%char.
Proof.
  intros H -> Hc. rewrite ascii_spaces_plain_app in H. apply andb_true_iff in H as [_ H].
  simpl in H. rewrite Hc in H. simpl in H. apply andb_true_iff in H as [H _].
  by apply Ascii.eqb_eq in H.
Qed.

End Whitespace.

(** ** Occurrences of a word after a replacement by a space *)

Section Occurrences.

Variable p : string.
Hypothesis p_nonempty : PyStr.nonempty p = true.
Hypothesis p_no_ascii_space : no_ascii_space p = true.

Lemma occurs_in_empty : ¬ occurs_in p EmptyString.
Proof.
  intros (a & b & H). destruct a; [|by rewrite str_app_cons in H].
  rewrite str_app_nil_l in H. destruct p; [done|]. by rewrite str_app_cons in H.
Qed.

Lemma no_ascii_space_prefix q a sp b :
  no_ascii_space q = true → PyStr.is_ascii_space sp = true →
  String.prefix q (a +:+ String sp b) = true → String.prefix q a = true.
Proof.
  revert a. induction q as [|x q IH]; intros a Hq Hsp H; [by destruct a|].
  cbn [no_ascii_space] in Hq. apply andb_true_iff in Hq as [Hx Hq]. apply negb_true_iff in Hx.
  destruct a as [|d a].
  - rewrite str_app_nil_l in H. simpl in H. destruct (ascii_dec x sp); [|done]. congruence.
  - rewrite str_app_cons in H. simpl in H |- *. destruct (ascii_dec x d); [|done]. by apply IH.
Qed.

Lemma contains_prefix q s : String.prefix q s = true → PyStr.contains q s = true.
Proof. intros H. destruct s; cbn [PyStr.contains]; by rewrite H. Qed.

Lemma contains_across_space a sp b :
  PyStr.is_ascii_space sp = true →
  PyStr.contains p (a +:+ String sp b) = true →
  PyStr.contains p a = true ∨ PyStr.contains p b = true.
Proof.
  intros Hsp. induction a as [|d a IH]; intros H.
  - rewrite str_app_nil_l in H. cbn [PyStr.contains] in H.
    apply orb_true_iff in H as [H|H]; [|by right].
    apply (no_ascii_space_prefix p EmptyString sp b) in H; [|done..].
    destruct p; done.
  - rewrite str_app_cons in H. cbn [PyStr.contains] in H.
    apply orb_true_iff in H as [H|H].
    + left. apply contains_prefix. rewrite <- str_app_cons in H.
      by apply no_ascii_space_prefix in H.
    + destruct (IH H) as [Ha|Hb]; [left|by right].
      cbn [PyStr.contains]. by rewrite Ha, orb_true_r.
Qed.

(** A word that occurs in chunks joined by spaces occurs in one of them. *)
Lemma occurs_in_join_space chunks :
  occurs_in p (PyStr.join " " chunks) → Exists (occurs_in p) chunks.
Proof.
  induction chunks as [|x chunks IH]; intros H.
  - by apply occurs_in_empty in H.
  - destruct chunks as [|y l]; [by left|].
    rewrite join_cons_cons in H. apply contains_spec in H.
    change (" " +:+ PyStr.join " " (y :: l)) with (String " " (PyStr.join " " (y :: l))) in H.
    apply contains_across_space in H; [|done]. destruct H as [H|H].
    + left. by apply contains_spec.
    + right. by apply IH, contains_spec.
Qed.

Lemma str_drop_0 s : str_drop 0 s = s.
Proof. by destruct s. Qed.

Lemma prefix_occurs ch s : String.prefix ch s = true → occurs_in ch s.
Proof. intros [rest ->]%prefix_spec. by exists EmptyString, rest. Qed.

Lemma prefix_trans a b c :
  String.prefix a b = true → String.prefix b c = true → String.prefix a c = true.
Proof.
  rewrite !prefix_spec. intros [x ->] [y ->]. exists (x +:+ y). by rewrite str_app_assoc.
Qed.

Lemma prefix_cons c a b : String.prefix (String c a) (String c b) = String.prefix a b.
Proof. simpl. by destruct (ascii_dec c c). Qed.

(** [replace_go] with a space as replacement joins, with spaces, chunks of
    the text; when the pattern is not empty it occurs in none of them. *)
Lemma replace_go_chunks q skip s :
  ∃ ch chunks,
    PyStr.replace_go q " " skip s = PyStr.join " " (ch :: chunks) ∧
    String.prefix ch (str_drop skip s) = true ∧
    Forall (λ x, occurs_in x s) (ch :: chunks) ∧
    (PyStr.nonempty q = true → Forall (λ x, ¬ occurs_in q x) (ch :: chunks)).
Proof.
  revert skip. induction s as [|c r IH]; intros skip.
  - exists EmptyString, []. split; [by destruct skip|]. split; [by destruct skip|].
    split; [repeat constructor; apply occurs_in_refl|].
    intros Hq. repeat constructor. intros (a & b & H).
    destruct a; [|by rewrite str_app_cons in H].
    rewrite str_app_nil_l in H. destruct q; [done|]. by rewrite str_app_cons in H.
  - assert (∀ l, Forall (λ x, occurs_in x r) l → Forall (λ x, occurs_in x (String c r)) l)
      as Hlift.
    { intros l Hl. eapply Forall_impl; [exact Hl|]. intros x. apply occurs_in_cons. }
    destruct skip as [|k]; cbn [PyStr.replace_go].
    + destruct (String.prefix q (String c r)) eqn:Hq.
      * destruct (IH (String.length q - 1)) as (ch & chunks & Heq & Hpre & Hocc & Hfree).
        exists EmptyString, (ch :: chunks). rewrite Heq.
        split; [done|]. split; [done|]. split.
        -- constructor; [|by apply Hlift]. exists EmptyString, (String c r). done.
        -- intros Hne. constructor; [|by apply Hfree].
           intros (a & b & H). destruct a; [|by rewrite str_app_cons in H].
           rewrite str_app_nil_l in H. destruct q; [done|]. by rewrite str_app_cons in H.
      * destruct (IH 0) as (ch & chunks & Heq & Hpre & Hocc & Hfree).
        rewrite str_drop_0 in Hpre.
        exists (String c ch), chunks. rewrite Heq.
        split; [by destruct chunks|]. split; [by rewrite str_drop_0, prefix_cons|].
        apply Forall_cons in Hocc as [_ Hocc]. split.
        -- constructor; [|by apply Hlift]. apply prefix_occurs. by rewrite prefix_cons.
        -- intros Hne. specialize (Hfree Hne). apply Forall_cons in Hfree as [Hch Hfree].
           constructor; [|done]. intros H%contains_spec. cbn [PyStr.contains] in H.
           apply orb_true_iff in H as [H|H].
           ++ assert (String.prefix q (String c r) = true); [|congruence].
              apply (prefix_trans _ _ _ H). by rewrite prefix_cons.
           ++ by apply Hch, contains_spec.
    + destruct (IH k) as (ch & chunks & Heq & Hpre & Hocc & Hfree).
      exists ch, chunks. split; [done|]. split; [done|]. split; [by apply Hlift|done].
Qed.

Lemma interleave_chunks s :
  ∃ ch chunks,
    PyStr.interleave " " s = PyStr.join " " (ch :: chunks) ∧
    String.prefix ch s = true ∧
    Forall (λ x, occurs_in x s) chunks.
Proof.
  induction s as [|c r (ch & chunks & Heq & Hpre & Hocc)].
  - exists EmptyString, [EmptyString]. split; [done|]. split; [done|].
    repeat constructor. apply occurs_in_refl.
  - assert (Forall (λ x, occurs_in x (String c r)) chunks) as Hlift.
    { eapply Forall_impl; [exact Hocc|]. intros x. apply occurs_in_cons. }
    assert (String c (PyStr.join " " (ch :: chunks)) = PyStr.join " " (String c ch :: chunks))
      as Hcons by by destruct chunks.
    cbn [PyStr.interleave]. rewrite Heq, Hcons. destruct (PyStr.is_continuation c).
    + exists (String c ch), chunks. split; [done|]. split; [by rewrite prefix_cons|done].
    + exists EmptyString, (String c ch :: chunks). split; [done|]. split; [done|].
      constructor; [|done]. apply prefix_occurs. by rewrite prefix_cons.
Qed.

Lemma occurs_in_chunks chunks s :
  Forall (λ x, occurs_in x s) chunks →
  occurs_in p (PyStr.join " " chunks) → occurs_in p s.
Proof.
  intros Hocc (x & Hx & Hp)%occurs_in_join_space%Exists_exists.
  rewrite Forall_forall in Hocc. eapply occurs_in_trans; [exact Hp|by apply Hocc].
Qed.

(** A replacement by a space brings no new occurrence of the word. *)
Lemma replace_space_no_new_occurrence q s :
  occurs_in p (PyStr.replace q " " s) → occurs_in p s.
Proof.
  unfold PyStr.replace. destruct (PyStr.nonempty q).
  - destruct (replace_go_chunks q 0 s) as (ch & chunks & -> & _ & Hocc & _).
    by apply occurs_in_chunks.
  - destruct (interleave_chunks s) as (ch & chunks & -> & Hpre & Hocc).
    apply occurs_in_chunks. constructor; [|done]. by apply prefix_occurs.
Qed.

(** The replacement of the word itself by a space leaves no occurrence. *)
Lemma replace_space_removes s : ¬ occurs_in p (PyStr.replace p " " s).
Proof.
  unfold PyStr.replace. rewrite p_nonempty.
  destruct (replace_go_chunks p 0 s) as (ch & chunks & -> & _ & _ & Hfree).
  intros (x & Hx & Hp)%occurs_in_join_space%Exists_exists.
  specialize (Hfree p_nonempty). rewrite Forall_forall in Hfree. by apply (Hfree x).
Qed.

Lemma remove_noise_space_free noise t :
  p ∈ noise ∨ ¬ occurs_in p t →
  ¬ occurs_in p (PageCleaner.remove_noise " " noise t).
Proof.
  revert t. induction noise as [|q noise IH]; intros t H; cbn [PageCleaner.remove_noise].
  - destruct H as [H|H]; [by apply elem_of_nil in H|done].
  - apply IH. destruct H as [[Heq|H]%elem_of_cons|H].
    + subst q. right. apply replace_space_removes.
    + by left.
    + right. intros Hp. by apply H, (replace_space_no_new_occurrence q).
Qed.

Lemma spaces_to_ascii_no_new_occurrence spaces s :
  occurs_in p (PyStr.spaces_to_ascii spaces s) → occurs_in p s.
Proof.
  revert s. induction spaces as [|x spaces IH]; intros s H; [done|].
  cbn [PyStr.spaces_to_ascii] in H. by apply (replace_space_no_new_occurrence x), IH.
Qed.

Lemma spaces_to_ascii_free spaces t :
  p ∈ spaces ∨ ¬ occurs_in p t → ¬ occurs_in p (PyStr.spaces_to_ascii spaces t).
Proof.
  revert t. induction spaces as [|q spaces IH]; intros t H; cbn [PyStr.spaces_to_ascii].
  - destruct H as [H|H]; [by apply elem_of_nil in H|done].
  - apply IH. destruct H as [[Heq|H]%elem_of_cons|H].
    + subst q. right. apply replace_space_removes.
    + by left.
    + right. intros Hp. by apply H, (replace_space_no_new_occurrence q).
Qed.

(** The normalisation of whitespace brings no new occurrence of the word. *)
Lemma normalise_no_new_occurrence s :
  occurs_in p (PyStr.join " " (PyStr.split s)) → occurs_in p s.
Proof.
  intros H. apply (spaces_to_ascii_no_new_occurrence PyStr.unicode_spaces).
  revert H. apply occurs_in_chunks, split_occurs.
Qed.

End Occurrences.

(** ** The whitespace characters of Unicode *)

Section UnicodeWhitespace.

Lemma unicode_spaces_word x :
  x ∈ PyStr.unicode_spaces →
  PyStr.nonempty x = true ∧ no_ascii_space x = true ∧ 1 ≤ PyStr.len x.
Proof.
  assert (Forall (λ x, PyStr.nonempty x = true ∧ no_ascii_space x = true ∧ 1 ≤ PyStr.len x)
            PyStr.unicode_spaces) as H
    by (refine (bool_decide_unpack _ _); vm_compute; exact I).
  rewrite Forall_forall in H. apply H.
Qed.

Lemma ascii_spaces_char x :
  x ∈ PyStr.ascii_spaces → ∃ c, x = String c EmptyString ∧ PyStr.is_ascii_space c = true.
Proof.
  assert (Forall (λ x, ∃ c, x = String c EmptyString ∧ PyStr.is_ascii_space c = true)
            PyStr.ascii_spaces) as H
    by (repeat constructor; by eexists).
  rewrite Forall_forall in H. apply H.
Qed.

Lemma is_ascii_space_elem c :
  PyStr.is_ascii_space c = true → String c EmptyString ∈ PyStr.ascii_spaces.
Proof.
  destruct c as [[] [] [] [] [] [] [] []]; intros H; try discriminate H;
    refine (bool_decide_unpack _ _); vm_compute; exact I.
Qed.

Lemma ascii_space_not_continuation c :
  PyStr.is_ascii_space c = true → PyStr.is_continuation c = false.
Proof. by destruct c as [[] [] [] [] [] [] [] []]. Qed.

Lemma no_space_spec s :
  no_space s = true ↔ ∀ x, x ∈ PyStr.whitespace → ¬ occurs_in x s.
Proof.
  unfold no_space. rewrite forallb_forall. split.
  - intros H x Hx Hocc%contains_spec. apply list_elem_of_In, H in Hx. by rewrite Hocc in Hx.
  - intros H x Hx%list_elem_of_In. apply negb_true_iff, not_true_iff_false.
    intros Hocc%contains_spec. by apply (H x).
Qed.

(** A text without whitespace has none of ASCII. *)
Lemma no_space_ascii s : no_space s = true → no_ascii_space s = true.
Proof.
  rewrite no_space_spec. induction s as [|c s IH]; intros H; [done|].
  cbn [no_ascii_space]. apply andb_true_iff. split.
  - apply negb_true_iff, not_true_iff_false. intros Hc.
    apply (H (String c EmptyString)).
    + apply elem_of_app. left. by apply is_ascii_space_elem.
    + by exists EmptyString, s.
  - apply IH. intros x Hx Hocc. apply (H x Hx). by apply occurs_in_cons.
Qed.

(** No word of [split] holds a whitespace character. *)
Lemma split_unicode_free s x w :
  x ∈ PyStr.unicode_spaces → w ∈ PyStr.split s → ¬ occurs_in x w.
Proof.
  intros Hx Hw Hocc. destruct (unicode_spaces_word x Hx) as (Hne & Hns & _).
  pose proof (split_occurs s) as Hsplit. rewrite Forall_forall in Hsplit.
  apply (spaces_to_ascii_free x Hne Hns PyStr.unicode_spaces s); [by left|].
  eapply occurs_in_trans; [exact Hocc|]. by apply Hsplit.
Qed.

Lemma split_words s : Forall is_word (PyStr.split s).
Proof.
  pose proof (split_ascii_words s) as Hascii. rewrite Forall_forall in Hascii |- *.
  intros w Hw. destruct (Hascii w Hw) as [Hne Hns]. split; [done|].
  apply no_space_spec. intros x [Hx|Hx]%elem_of_app Hocc.
  - destruct (ascii_spaces_char x Hx) as (c & -> & Hc).
    by rewrite (no_ascii_space_occurs w c Hns Hocc) in Hc.
  - by apply (split_unicode_free s x w).
Qed.

(** In words joined by spaces, the only whitespace character is the
    space. *)
Lemma join_words_spaces l x :
  Forall is_word l → x ∈ PyStr.whitespace → occurs_in x (PyStr.join " " l) → x = " ".
Proof.
  intros Hl [Hx|Hx]%elem_of_app Hocc.
  - destruct (ascii_spaces_char x Hx) as (c & -> & Hc). destruct Hocc as (a & b & Heq).
    assert (c = " "%char) as ->; [|done].
    apply (ascii_spaces_plain_true (PyStr.join " " l) a c b); [|done..].
    apply join_words_ascii_spaces_plain. eapply Forall_impl; [exact Hl|].
    intros w [Hne Hns]. split; [done|]. by apply no_space_ascii.
  - exfalso. destruct (unicode_spaces_word x Hx) as (Hne & Hns & _).
    apply (occurs_in_join_space x Hne Hns) in Hocc.
    apply Exists_exists in Hocc as (w & Hw & Hocc).
    rewrite Forall_forall in Hl. destruct (Hl w Hw) as [_ Hfree].
    rewrite no_space_spec in Hfree. apply (Hfree x); [|done].
    apply elem_of_app. by right.
Qed.

Lemma is_word_ascii l : Forall is_word l → Forall is_ascii_word l.
Proof.
  intros Hl. eapply Forall_impl; [exact Hl|].
  intros w [Hne Hns]. split; [done|]. by apply no_space_ascii.
Qed.

Lemma join_words_no_two_spaces l x y :
  Forall is_word l → x ∈ PyStr.whitespace → y ∈ PyStr.whitespace →
  ¬ occurs_in (x +:+ y) (PyStr.join " " l).
Proof.
  intros Hl Hx Hy Hocc.
  assert (x = " ") as ->.
  { apply (join_words_spaces l x Hl Hx). eapply occurs_in_trans; [|exact Hocc].
    by exists EmptyString, y. }
  assert (y = " ") as ->.
  { apply (join_words_spaces l y Hl Hy). eapply occurs_in_trans; [|exact Hocc].
    exists " ", EmptyString. by rewrite str_app_nil_r. }
  destruct Hocc as (a & b & Heq).
  apply (has_ascii_space_run_false (PyStr.join " " l) a " " " " b); [|done..].
  by apply join_words_no_run, is_word_ascii.
Qed.

Lemma join_words_first_is_space l : Forall is_word l → first_is_space (PyStr.join " " l) = false.
Proof.
  intros Hl. apply not_true_iff_false. intros (x & rest & Hx & Heq)%first_is_space_spec.
  assert (x = " ") as ->.
  { apply (join_words_spaces l x Hl Hx). rewrite Heq. by exists EmptyString, rest. }
  pose proof (join_words_first l (is_word_ascii l Hl)) as H. by rewrite Heq in H.
Qed.

Lemma join_words_last_is_space l : Forall is_word l → last_is_space (PyStr.join " " l) = false.
Proof.
  intros Hl. apply not_true_iff_false. intros (x & a & Hx & Heq)%last_is_space_spec.
  assert (x = " ") as ->.
  { apply (join_words_spaces l x Hl Hx). rewrite Heq. exists a, EmptyString.
    by rewrite str_app_nil_r. }
  pose proof (join_words_last l (is_word_ascii l Hl)) as H.
  by rewrite Heq, last_is_ascii_space_app in H.
Qed.

Lemma clean_space_free p noise t :
  PyStr.nonempty p = true → no_space p = true →
  p ∈ noise → ¬ occurs_in p (PageCleaner.clean " " noise t).
Proof.
  intros Hne Hns%no_space_ascii Hin H. unfold PageCleaner.clean in H.
  apply normalise_no_new_occurrence in H; [|done..].
  revert H. apply remove_noise_space_free; [done..|]. by left.
Qed.

End UnicodeWhitespace.

(** ** Claim on the Page Cleaner *)

Section PageCleanerClaim.




End PageCleanerClaim.

(** * More of the code *)

(** ** resume_parser.py *)

Section ResumeParserMore.

Import ResumeParser.

Section WithUnicode.

Context {U : PyStr.Unicode}.

Lemma read_pages_raises pages text e :
  Raise e ∈ pages → ∃ e', read_pages pages text = Raise e'.
Proof.
  revert text. induction pages as [|page rest IH]; intros text H.
  - by apply elem_of_nil in H.
  - cbn [read_pages]. destruct page as [page_text|e0]; [|by exists e0].
    apply elem_of_cons in H as [H|H]; [done|]. run_result. by apply IH.
Qed.

(** X1.  The decoding of the upload never raises and gives a text without
    leading or trailing whitespace, which [strip] leaves as it is; when the
    reader or one of the pages raises, the text of all the pages is lost
    and the empty text is returned. *)
Theorem extract_text_from_pdf_stripped :
  (∀ pdf, ∃ text,
     extract_text_from_pdf pdf = Ok text ∧
     first_is_space text = false ∧ last_is_space text = false ∧
     PyStr.strip text = text) ∧
  (∀ e, extract_text_from_pdf (Raise e) = Ok EmptyString) ∧
  (∀ pages e, Raise e ∈ pages → extract_text_from_pdf (Ok pages) = Ok EmptyString).
Proof.
  split; [|split].
  - intros pdf. unfold extract_text_from_pdf.
    destruct pdf as [pages|e]; run_result; [|by exists EmptyString].
    destruct (read_pages pages EmptyString) as [text|e]; [|by exists EmptyString].
    exists (PyStr.strip text).
    split; [done|]. split; [apply strip_first|]. split; [apply strip_last|].
    apply strip_idempotent.
  - done.
  - intros pages e H. unfold extract_text_from_pdf. run_result.
    by destruct (read_pages_raises pages EmptyString e H) as [e' ->].
Qed.

Lemma decoded_text_strip pdf text :
  extract_text_from_pdf pdf = Ok text → PyStr.strip text = text.
Proof.
  unfold extract_text_from_pdf. destruct pdf as [pages|e]; run_result.
  - destruct (read_pages pages EmptyString) as [text'|e]; intros H; inversion H; [|done].
    apply strip_idempotent.
  - intros H. by inversion H.
Qed.

Lemma unique_loop_entries items unique_skills seen out :
  unique_loop items unique_skills seen = Ok out →
  Forall (λ s, PyStr.nonempty s = true ∧ PyStr.strip s = s) unique_skills →
  Forall (λ s, PyStr.nonempty s = true ∧ PyStr.strip s = s) out.
Proof.
  revert unique_skills seen. induction items as [|v r IH]; intros unique_skills seen H Hacc.
  - cbn [unique_loop] in H. by injection H as <-.
  - cbn [unique_loop] in H. destruct v; try discriminate H.
    cbn [str_strip] in H. run_result in H.
    rewrite PyStr.lower_nonempty in H.
    destruct (PyStr.nonempty (PyStr.strip s)) eqn:Hne; cbn [andb] in H.
    + destruct (negb _); [|by eapply IH].
      eapply IH; [exact H|]. apply Forall_app. split; [done|].
      constructor; [|done]. split; [done|apply strip_idempotent].
    + by eapply IH.
Qed.

Lemma unique_loop_not_string items unique_skills seen :
  (∃ v, v ∈ items ∧ ∀ s, v ≠ PStr s) →
  ∃ e, unique_loop items unique_skills seen = Raise e.
Proof.
  intros (v & Hv & Hns).
  destruct (unique_loop items unique_skills seen) as [out|e] eqn:H; [|by exists e].
  apply unique_loop_strings in H as [strs ->].
  apply list_elem_of_fmap in Hv as (s & -> & _). by destruct (Hns s).
Qed.

(** X2.  The skills that the inference path returns are not empty and carry no
    leading or trailing whitespace; a text whose stripped form has fewer
    than 50 characters gives no skills, whatever the backend; and one entry
    of the backend's list that is not a string voids the whole list. *)
Theorem extract_skills_with_ollama_entries :
  (∀ api text model skills,
     extract_skills_with_ollama api text model = Ok skills →
     Forall (λ s, PyStr.nonempty s = true ∧ first_is_space s = false ∧ last_is_space s = false)
       skills) ∧
  (∀ api text model,
     PyStr.len (PyStr.strip text) < 50 → extract_skills_with_ollama api text model = Ok []) ∧
  (∀ api text model d items v,
     ollama_chat api model SKILL_EXTRACTION_PROMPT text = Ok (Parsed (PDict d)) →
     Json.get d "skills" (PList []) = PList items →
     v ∈ items → (∀ s, v ≠ PStr s) →
     extract_skills_with_ollama api text model = Ok []).
Proof.
  split; [|split].
  - intros api text model skills. unfold extract_skills_with_ollama.
    destruct (_ || _); [intros [= <-]; constructor|].
    destruct (ollama_list api); run_result; [|intros [= <-]; constructor].
    destruct (ollama_chat _ _ _ _) as [c|]; [|intros [= <-]; constructor].
    destruct (json_loads c) as [data|]; [|intros [= <-]; constructor].
    destruct (Json.get_attr _ _ _) as [sk|]; [|intros [= <-]; constructor].
    destruct (iterate sk) as [items|]; [|intros [= <-]; constructor].
    destruct (unique_loop items [] ∅) as [out|] eqn:Hloop; intros [= <-]; [|constructor].
    apply unique_loop_entries in Hloop; [|constructor].
    eapply Forall_impl; [exact Hloop|]. intros s [Hne Hs].
    split; [done|]. rewrite <- Hs. split; [apply strip_first | apply strip_last].
  - intros api text model Hlen. unfold extract_skills_with_ollama.
    destruct (Nat.ltb_spec (PyStr.len (PyStr.strip text)) 50); [|lia].
    by rewrite orb_true_r.
  - intros api text model d items v Hchat Hget Hv Hns. unfold extract_skills_with_ollama.
    destruct (_ || _); [done|].
    destruct (ollama_list api); run_result; [|done].
    rewrite Hchat. cbn [json_loads Json.get_attr]. rewrite Hget. cbn [iterate].
    by destruct (unique_loop_not_string items [] ∅) as [e ->]; [by exists v|].
Qed.

(** X3.  On an accepted resume, when the backend answers with an object whose
    [skills] are a list of strings of which one at least is not blank, the
    result is a success with the first occurrences of the stripped,
    non-empty entries, the message of an AI extraction with their number,
    and no call of the Fallback Extractor. *)
Theorem parse_resume_ai_path api pdf model text d strs :
  extract_text_from_pdf pdf = Ok text →
  100 ≤ PyStr.len text →
  ollama_list api = Ok () →
  ollama_chat api model SKILL_EXTRACTION_PROMPT text = Ok (Parsed (PDict d)) →
  Json.get d "skills" (PList []) = PList (PStr <$> strs) →
  let kept :=
    first_occurrences PyStr.lower []
      (filter (λ s, PyStr.nonempty s = true) (PyStr.strip <$> strs)) in
  kept ≠ [] →
  parse_resume api pdf true model
    = Ok ((true, kept, msg_ai (length kept)), [CallOllama text model]).
Proof.
  intros Ht Hlen Hlist Hchat Hget kept Hkept.
  assert (extract_skills_with_ollama api text model = Ok kept) as Hs.
  { unfold extract_skills_with_ollama.
    rewrite (decoded_text_strip _ _ Ht).
    destruct text as [|c r]; [cbv in Hlen; lia|].
    destruct (Nat.ltb_spec (PyStr.len (String c r)) 50); [lia|].
    cbn [PyStr.nonempty negb orb]. rewrite Hlist. run_result. rewrite Hchat.
    cbn [json_loads Json.get_attr]. rewrite Hget. cbn [iterate].
    by rewrite (unique_loop_first_occurrences _ _ _ []) by set_solver. }
  rewrite (parse_resume_accepted _ _ _ _ _ Ht Hlen Hs).
  by destruct kept.
Qed.

Lemma fallback_outcome_flag text :
  fst (fst (fallback_outcome text)) = true ↔ skills_of (fallback_outcome text) ≠ [].
Proof.
  unfold fallback_outcome, skills_of. cbv zeta.
  destruct (extract_skills_fallback text); cbn [nonempty_list fst snd]; split; done.
Qed.

Lemma direct_outcome_flag text :
  fst (fst (direct_outcome text)) = true ↔ skills_of (direct_outcome text) ≠ [].
Proof.
  unfold direct_outcome, skills_of. cbv zeta.
  destruct (extract_skills_fallback text); cbn [nonempty_list fst snd]; split; done.
Qed.

(** X4.  The success flag that [parse_resume] returns is set exactly when the
    skills it returns are not empty, and the extractors are called only on
    a text of 100 characters or more. *)
Theorem parse_resume_flag api pdf use_ollama model ok skills msg calls :
  parse_resume api pdf use_ollama model = Ok ((ok, skills, msg), calls) →
  (ok = true ↔ skills ≠ []) ∧
  (calls ≠ [] → ∃ text, extract_text_from_pdf pdf = Ok text ∧ 100 ≤ PyStr.len text).
Proof.
  intros H.
  destruct (extract_text_from_pdf_returns pdf) as [text Ht].
  destruct (Nat.lt_ge_cases (PyStr.len text) 100) as [Hlen|Hlen].
  - rewrite (parse_resume_rejected _ _ _ _ _ Ht Hlen) in H.
    inversion H. split; [split; done|done].
  - split; [|by exists text].
    destruct use_ollama.
    + destruct (extract_skills_with_ollama_returns api text model) as [sk Hs].
      rewrite (parse_resume_accepted _ _ _ _ _ Ht Hlen Hs) in H.
      destruct sk as [|s0 l]; cbn [nonempty_list] in H.
      * apply Ok_pair_fst in H. pose proof (fallback_outcome_flag text) as Hf.
        rewrite H in Hf. exact Hf.
      * inversion H. split; done.
    + rewrite (parse_resume_direct _ _ _ _ Ht Hlen) in H.
      apply Ok_pair_fst in H. pose proof (direct_outcome_flag text) as Hf.
      rewrite H in Hf. exact Hf.
Qed.

Lemma fallback_membership text s :
  s ∈ extract_skills_fallback text ↔
  ∃ k, k ∈ common_tech ∧ s = PyStr.title k ∧ occurs_in k (PyStr.lower text).
Proof.
  rewrite extract_skills_fallback_filter, list_elem_of_fmap. split.
  - intros (k & -> & Hk). apply list_elem_of_filter in Hk as [Hc Hk].
    exists k. split; [done|]. split; [done|]. by apply contains_spec.
  - intros (k & Hk & -> & Hocc). exists k. split; [done|].
    apply list_elem_of_filter. split; [|done]. by apply contains_spec.
Qed.

(** X5.  A skill is in the output of the Fallback Extractor exactly when it is
    the title-cased form of a keyword of the taxonomy that occurs in the
    lowered text; so the output is empty exactly when no keyword occurs. *)
Theorem fallback_reports_only_found text :
  (∀ s, s ∈ extract_skills_fallback text ↔
        ∃ k, k ∈ common_tech ∧ s = PyStr.title k ∧ occurs_in k (PyStr.lower text)) ∧
  (extract_skills_fallback text = [] ↔
     ∀ k, k ∈ common_tech → ¬ occurs_in k (PyStr.lower text)).
Proof.
  pose proof (fallback_membership text) as Hin.
  split; [exact Hin|]. split.
  - intros Hnil k Hk Hocc.
    assert (PyStr.title k ∈ extract_skills_fallback text) as H.
    { apply Hin. exists k. split; [exact Hk|]. split; [reflexivity|exact Hocc]. }
    rewrite Hnil in H. by apply elem_of_nil in H.
  - intros Hnone.
    destruct (extract_skills_fallback text) as [|s l]; [reflexivity|]. exfalso.
    destruct (proj1 (Hin s)) as (k & Hk & _ & Hocc); [apply list_elem_of_here|].
    exact (Hnone k Hk Hocc).
Qed.

(** X6.  A keyword is matched as a substring: when a keyword of the taxonomy
    occurs inside another one, every text for which the longer one is
    reported has the shorter one reported too (Java with Javascript, Go
    with Golang or Django, Git with Github Actions). *)
Theorem fallback_reports_contained_keyword text k1 k2 :
  k1 ∈ common_tech → k2 ∈ common_tech → occurs_in k1 k2 →
  PyStr.title k2 ∈ extract_skills_fallback text →
  PyStr.title k1 ∈ extract_skills_fallback text.
Proof.
  intros Hk1 Hk2 Hsub H2.
  apply fallback_membership in H2 as (k & Hk & Heq & Hocc). apply fallback_membership.
  assert (k = k2) as ->.
  { rewrite <- (common_tech_lower_title k Hk), <- (common_tech_lower_title k2 Hk2).
    by rewrite Heq. }
  exists k1. split; [done|]. split; [done|]. by eapply occurs_in_trans.
Qed.

End WithUnicode.

(** The samples are read with the tables of [ascii_only]. *)
#[local] Existing Instance ascii_only.

Lemma extract_text_from_pdf_witness :
  extract_text_from_pdf (Ok [Ok "Curriculum vitae"; Raise PdfReadError]) = Ok EmptyString.
Proof.
  destruct extract_text_from_pdf_stripped as (_ & _ & H).
  apply (H _ PdfReadError). set_solver.
Defined.

Lemma extract_skills_with_ollama_entries_witness :
  extract_skills_with_ollama
    (api_reply (Parsed (PDict [("skills", PList [PStr "Python"; PInt 3])]))) resume_100 qwen
    = Ok [].
Proof.
  destruct extract_skills_with_ollama_entries as (_ & _ & H).
  apply (H _ _ _ [("skills", PList [PStr "Python"; PInt 3])] [PStr "Python"; PInt 3] (PInt 3)).
  - reflexivity.
  - reflexivity.
  - set_solver.
  - discriminate.
Defined.

Lemma parse_resume_ai_path_witness :
  parse_resume
    (api_reply (Parsed (PDict [("skills", PList (PStr <$> [" Python "; "python"; "AWS"]))])))
    (pdf_of resume_100) true qwen
    = Ok ((true, ["Python"; "AWS"], msg_ai 2), [CallOllama resume_100 qwen]).
Proof.
  pose proof (parse_resume_ai_path
                (api_reply (Parsed (PDict [("skills",
                   PList (PStr <$> [" Python "; "python"; "AWS"]))])))
                (pdf_of resume_100) qwen resume_100
                [("skills", PList (PStr <$> [" Python "; "python"; "AWS"]))]
                [" Python "; "python"; "AWS"]) as H.
  apply H.
  - vm_compute; reflexivity.
  - vm_compute; lia.
  - reflexivity.
  - reflexivity.
  - reflexivity.
  - vm_compute. discriminate.
Defined.

Lemma parse_resume_flag_witness :
  (true = true ↔ ["Python"; "Go"; "Golang"; "Django"; "Rest Api"; "Aws"; "Docker"] ≠ []) ∧
  ∃ text, extract_text_from_pdf (pdf_of resume_100) = Ok text ∧ 100 ≤ PyStr.len text.
Proof.
  destruct (parse_resume_flag api_down (pdf_of resume_100) true qwen true
              ["Python"; "Go"; "Golang"; "Django"; "Rest Api"; "Aws"; "Docker"]
              (msg_unavailable_fallback 7)
              [CallOllama resume_100 qwen; CallFallback resume_100]) as [Hflag Hcalls].
  - vm_compute; reflexivity.
  - split; [exact Hflag|]. apply Hcalls. discriminate.
Defined.

Lemma fallback_reports_contained_keyword_witness :
  PyStr.title "java" ∈ extract_skills_fallback "Ten years of JavaScript in the browser".
Proof.
  apply (fallback_reports_contained_keyword _ "java" "javascript").
  - refine (bool_decide_unpack _ _). vm_compute. exact I.
  - refine (bool_decide_unpack _ _). vm_compute. exact I.
  - by exists EmptyString, "script".
  - refine (bool_decide_unpack _ _). vm_compute. exact I.
Defined.

End ResumeParserMore.

(** ** extractor.py *)

Section ExtractorMore.

Import Extractor.


(** X8.  Whatever the backend and the server do, [main] keeps the number of
    rows and, in every row, the fields that the scraper stored; a row that
    was extracted stays extracted. *)
Theorem main_keeps_rows api fault t :
  length (fst (main api fault t)) = length t ∧
  ∀ i r, t !! i = Some r →
    ∃ r', fst (main api fault t) !! i = Some r' ∧
          scraped_fields r' = scraped_fields r ∧
          (Db.is_extracted r = true → Db.is_extracted r' = true).
Proof.
  split; [apply process_jobs_length|]. intros i r. apply process_jobs_row.
Qed.

Lemma main_keeps_rows_witness :
  ∃ r', fst (main (api_reply NotJSON) no_fault [pending_row]) !! 0 = Some r' ∧
        scraped_fields r' = scraped_fields pending_row.
Proof.
  destruct (main_keeps_rows (api_reply NotJSON) no_fault [pending_row]) as [_ H].
  destruct (H 0 pending_row) as (r' & H1 & H2 & _); [reflexivity|].
  exists r'. auto.
Defined.

(** X9.  With distinct [id]s, [main] leaves every row that was already extracted
    exactly as it was, whatever the backend and the server do. *)
Theorem main_leaves_extracted api fault t i r :
  NoDup (Db.id <$> t) →
  t !! i = Some r → Db.is_extracted r = true →
  fst (main api fault t) !! i = Some r.
Proof. apply main_extracted_row. Qed.

Lemma main_leaves_extracted_witness :
  fst (main (api_reply (Parsed (PDict []))) no_fault
         [Db.set_extraction default_extraction pending_row]) !! 0
    = Some (Db.set_extraction default_extraction pending_row).
Proof.
  apply main_leaves_extracted.
  - apply NoDup_singleton.
  - reflexivity.
  - reflexivity.
Defined.



(** X11.  With distinct [id]s and a JSON object for every pending
    description, a pending row ends with the fields read from the answer to
    its own description, defaults standing for the missing ones, and with
    the flag set, when these fields hold no list and no object and the
    server does not fail at its [UPDATE]; otherwise the row is left as it
    was, pending. *)
Theorem main_stores_own_answer api fault t i r d :
  NoDup (Db.id <$> t) →
  Forall (λ job, ∃ d, extract_data api job.2 = Ok (PDict d)) (Db.select_pending t) →
  t !! i = Some r → Db.is_extracted r = false →
  extract_data api (Db.raw_description r) = Ok (PDict d) →
  ∃ vals,
    update_values (PDict d) = Ok vals ∧
    (Db.convertible_values vals = true → fault (Db.id r) = None →
       fst (main api fault t) !! i = Some (Db.set_extraction vals r)) ∧
    (Db.convertible_values vals = false ∨ fault (Db.id r) ≠ None →
       fst (main api fault t) !! i = Some r).
Proof.
  intros Hnd Hobj Hi He Hd.
  destruct (update_values_object d) as [vals Hvals]. exists vals. split; [done|].
  rewrite (main_pending_row api fault t i r d vals) by done. unfold update_stored. split.
  - intros -> ->. by rewrite bool_decide_eq_true_2.
  - intros [->|Hf]; [done|]. rewrite (bool_decide_eq_false_2 _ Hf). by rewrite andb_false_r.
Qed.

Lemma main_stores_own_answer_witness :
  (∃ vals,
     update_values (PDict [("company", PStr "Acme")]) = Ok vals ∧
     fst (main (api_reply (Parsed (PDict [("company", PStr "Acme")]))) no_fault [pending_row])
       !! 0 = Some (Db.set_extraction vals pending_row)) ∧
  fst (main (api_reply (Parsed (PDict [("job_type", PList [PStr "Full-time"; PStr "Remote"])])))
         no_fault [pending_row]) !! 0 = Some pending_row.
Proof.
  split.
  - destruct (main_stores_own_answer (api_reply (Parsed (PDict [("company", PStr "Acme")])))
                no_fault [pending_row] 0 pending_row [("company", PStr "Acme")])
      as (vals & Hvals & Hstored & _).
    + apply NoDup_singleton.
    + repeat constructor. by eexists.
    + reflexivity.
    + reflexivity.
    + reflexivity.
    + exists vals. split; [exact Hvals|]. apply Hstored; [|reflexivity].
      inversion Hvals. reflexivity.
  - destruct (main_stores_own_answer
                (api_reply (Parsed (PDict [("job_type", PList [PStr "Full-time"; PStr "Remote"])])))
                no_fault [pending_row] 0 pending_row
                [("job_type", PList [PStr "Full-time"; PStr "Remote"])])
      as (vals & Hvals & _ & Hkept).
    + apply NoDup_singleton.
    + repeat constructor. by eexists.
    + reflexivity.
    + reflexivity.
    + reflexivity.
    + apply Hkept. left. inversion Hvals. reflexivity.
Defined.

End ExtractorMore.

(** ** The links of a listing, again *)

Section LinksMore.

Section WithUnicode.

Context {U : PyStr.Unicode}.

Lemma keep_new_sublist seen l : sublist (keep_new seen l) l.
Proof.
  revert seen. induction l as [|[title url] r IH]; intros seen; [constructor|].
  cbn [keep_new]. case_bool_decide; [apply sublist_cons | apply sublist_skip]; apply IH.
Qed.

Lemma keep_new_complete seen l title url :
  (title, url) ∈ l → url ∈ seen ∨ url ∈ (keep_new seen l).*2.
Proof.
  revert seen. induction l as [|[title' url'] r IH]; intros seen H.
  - by apply elem_of_nil in H.
  - cbn [keep_new]. apply elem_of_cons in H as [[= <- <-]|H].
    + case_bool_decide; [by left|]. right. rewrite fmap_cons. apply list_elem_of_here.
    + case_bool_decide.
      * by apply IH.
      * destruct (IH ({[url']} ∪ seen) H) as [[->%elem_of_singleton|Hs]%elem_of_union|Hk].
        -- right. rewrite fmap_cons. apply list_elem_of_here.
        -- by left.
        -- right. rewrite fmap_cons. by apply list_elem_of_further.
Qed.

Lemma yc_links_loop_keep links job_links seen :
  YcScraper.links_loop links job_links seen
    = job_links ++ keep_new seen (omap yc_candidate links).
Proof.
  revert job_links seen. induction links as [|link rest IH]; intros job_links seen.
  - cbn. by rewrite app_nil_r.
  - cbn [YcScraper.links_loop omap list_omap]. unfold yc_candidate at 1. cbv zeta.
    destruct (PyStr.nonempty (href link)); cbn [negb andb]; [|apply IH].
    destruct (PyStr.contains "/jobs/" _); cbn [negb andb orb]; [|apply IH].
    destruct (PyStr.has_digit _); cbn [negb andb orb]; [|apply IH].
    destruct (PyStr.nonempty (text link)); cbn [negb andb].
    + destruct (PyStr.any_in YcScraper.exclude_roles _); cbn [negb andb].
      * case_bool_decide; apply IH.
      * destruct (PyStr.any_in YcScraper.target_roles _); cbn [negb keep_new].
        -- case_bool_decide; [apply IH|]. rewrite IH. by rewrite <- app_assoc.
        -- case_bool_decide; apply IH.
    + case_bool_decide; apply IH.
Qed.

Lemma wellfound_links_loop_keep links job_links seen :
  WellfoundScraper.links_loop links job_links seen
    = job_links ++ keep_new seen (omap wellfound_candidate links).
Proof.
  revert job_links seen. induction links as [|link rest IH]; intros job_links seen.
  - cbn. by rewrite app_nil_r.
  - cbn [WellfoundScraper.links_loop omap list_omap]. unfold wellfound_candidate at 1. cbv zeta.
    destruct (PyStr.contains "/jobs/" _); cbn [negb andb]; [|apply IH].
    destruct (PyStr.nonempty (text link)); cbn [negb andb].
    + destruct (PyStr.any_in WellfoundScraper.target_roles _); cbn [negb keep_new].
      * case_bool_decide; [apply IH|]. rewrite IH. by rewrite <- app_assoc.
      * case_bool_decide; apply IH.
    + case_bool_decide; apply IH.
Qed.

Lemma job_agent_links_loop_keep potential_links valid_links seen :
  JobAgent._extract_job_links_loop potential_links valid_links seen
    = valid_links ++ keep_new seen (omap job_agent_candidate potential_links).
Proof.
  revert valid_links seen.
  induction potential_links as [|link rest IH]; intros valid_links seen.
  - cbn. by rewrite app_nil_r.
  - cbn [JobAgent._extract_job_links_loop omap list_omap]. unfold job_agent_candidate at 1.
    destruct link as [e|]; [|apply IH].
    destruct (JobAgent.we_href e) as [href|]; [|apply IH].
    unfold JobAgent.link_ok.
    destruct (PyStr.nonempty href); cbn [negb andb]; [|apply IH].
    case_bool_decide; cbn [negb andb].
    + destruct (_ && _ && _); cbn [keep_new]; [|apply IH].
      rewrite bool_decide_eq_true_2 by done. apply IH.
    + destruct (5 <=? _); cbn [andb]; [|apply IH].
      destruct (PyStr.contains "jobs/all" href); cbn [negb andb]; [apply IH|].
      destruct (PyStr.nonempty _); cbn [keep_new]; [|apply IH].
      rewrite bool_decide_eq_false_2 by done. rewrite IH. by rewrite <- app_assoc.
Qed.

Lemma split_first_no_sep c s : PyStr.count_char c (PyStr.split_first c s) = 0.
Proof.
  induction s as [|d s IH]; [done|]. cbn [PyStr.split_first].
  destruct (Ascii.eqb c d) eqn:Hcd; [done|]. cbn [PyStr.count_char]. by rewrite Hcd, IH.
Qed.

Lemma split_first_prefix c p s :
  PyStr.count_char c p = 0 → String.prefix p s = true →
  String.prefix p (PyStr.split_first c s) = true.
Proof.
  revert s. induction p as [|a p IH]; intros s Hc Hp.
  { destruct s as [|d s]; [done|]. cbn [PyStr.split_first]. by destruct (Ascii.eqb c d). }
  destruct s as [|d s]; [done|]. cbn [String.prefix] in Hp.
  destruct (ascii_dec a d) as [<-|]; [|done].
  cbn [PyStr.count_char] in Hc. destruct (Ascii.eqb c a) eqn:Hca; [done|].
  cbn [PyStr.split_first]. rewrite Hca. cbn [String.prefix].
  destruct (ascii_dec a a); [|done]. by apply IH.
Qed.

Lemma split_first_http s :
  PyStr.startswith "http" s = true → PyStr.startswith "http" (PyStr.split_first "?" s) = true.
Proof. unfold PyStr.startswith. by apply split_first_prefix. Qed.

Lemma yc_full_url_http href : PyStr.startswith "http" (YcScraper.full_url_of href) = true.
Proof.
  unfold YcScraper.full_url_of. by destruct (PyStr.startswith "http" href) eqn:H.
Qed.

Lemma wellfound_full_url_http href :
  PyStr.startswith "http" (WellfoundScraper.full_url_of href) = true.
Proof.
  unfold WellfoundScraper.full_url_of. by destruct (PyStr.startswith "http" href) eqn:H.
Qed.

(** X12.  The links that the YC adapter returns are, in the order of the page,
    the pairs made of the anchors that pass its tests (a path with [/jobs/]
    and a digit, a title that names a target role and no excluded one),
    each URL once, with the title of the first such anchor; every URL of
    such an anchor is returned; the URLs are absolute and without [?]. *)
Theorem yc_job_links_characterised links :
  YcScraper.job_links_of links = keep_new ∅ (omap yc_candidate links) ∧
  sublist (YcScraper.job_links_of links) (omap yc_candidate links) ∧
  (∀ link title url, link ∈ links → yc_candidate link = Some (title, url) →
     url ∈ (YcScraper.job_links_of links).*2) ∧
  Forall (λ l, PyStr.nonempty l.1 = true ∧ PyStr.startswith "http" l.2 = true ∧
               PyStr.count_char "?" l.2 = 0)
    (YcScraper.job_links_of links).
Proof.
  assert (YcScraper.job_links_of links = keep_new ∅ (omap yc_candidate links)) as Heq
    by apply (yc_links_loop_keep links [] ∅).
  split; [exact Heq|]. rewrite Heq. split; [apply keep_new_sublist|]. split.
  - intros link title url Hlink Hc.
    destruct (keep_new_complete ∅ (omap yc_candidate links) title url) as [H|H]; [|set_solver|done].
    apply list_elem_of_omap. by exists link.
  - apply Forall_forall. intros [title url] Hin.
    apply (λ H, elem_of_sublist _ _ _ H (keep_new_sublist _ _)) in Hin.
    apply list_elem_of_omap in Hin as (link & _ & Hc). unfold yc_candidate in Hc.
    cbv zeta in Hc. destruct (_ && _) eqn:Hok; [|done]. injection Hc as <- <-.
    rewrite !andb_true_iff in Hok. destruct Hok as [[[[[_ _] _] Ht] _] _].
    split; [done|]. split; [apply split_first_http, yc_full_url_http|apply split_first_no_sep].
Qed.

(** X13.  The links that the Wellfound adapter returns are, in the order of
    the page, the pairs made of the anchors that pass its tests ([/jobs/]
    in the [href] and a title that names a target role), each URL once,
    with the title of the first such anchor; every URL of such an anchor is
    returned; the URLs are absolute and without [?]. *)
Theorem wellfound_job_links_characterised links :
  WellfoundScraper.job_links_of links = keep_new ∅ (omap wellfound_candidate links) ∧
  sublist (WellfoundScraper.job_links_of links) (omap wellfound_candidate links) ∧
  (∀ link title url, link ∈ links → wellfound_candidate link = Some (title, url) →
     url ∈ (WellfoundScraper.job_links_of links).*2) ∧
  Forall (λ l, PyStr.nonempty l.1 = true ∧ PyStr.startswith "http" l.2 = true ∧
               PyStr.count_char "?" l.2 = 0)
    (WellfoundScraper.job_links_of links).
Proof.
  assert (WellfoundScraper.job_links_of links = keep_new ∅ (omap wellfound_candidate links))
    as Heq by apply (wellfound_links_loop_keep links [] ∅).
  split; [exact Heq|]. rewrite Heq. split; [apply keep_new_sublist|]. split.
  - intros link title url Hlink Hc.
    destruct (keep_new_complete ∅ (omap wellfound_candidate links) title url) as [H|H];
      [|set_solver|done].
    apply list_elem_of_omap. by exists link.
  - apply Forall_forall. intros [title url] Hin.
    apply (λ H, elem_of_sublist _ _ _ H (keep_new_sublist _ _)) in Hin.
    apply list_elem_of_omap in Hin as (link & _ & Hc). unfold wellfound_candidate in Hc.
    destruct (_ && _) eqn:Hok; [|done]. injection Hc as <- <-.
    rewrite !andb_true_iff in Hok. destruct Hok as [[_ Ht] _].
    split; [done|].
    split; [apply split_first_http, wellfound_full_url_http|apply split_first_no_sep].
Qed.

(** X14.  The links that [_extract_job_links] returns are, in the order of the
    page, the pairs made of the elements that can be read and pass its
    tests, each [href] once; every [href] of such an element is returned;
    a returned title is stripped and not empty, a returned [href] has five
    slashes or more and does not contain [jobs/all]. *)
Theorem job_agent_links_characterised potential_links :
  JobAgent._extract_job_links potential_links
    = keep_new ∅ (omap job_agent_candidate potential_links) ∧
  sublist (JobAgent._extract_job_links potential_links)
    (omap job_agent_candidate potential_links) ∧
  (∀ link title url, link ∈ potential_links → job_agent_candidate link = Some (title, url) →
     url ∈ (JobAgent._extract_job_links potential_links).*2) ∧
  Forall (λ l, PyStr.nonempty l.1 = true ∧ PyStr.strip l.1 = l.1 ∧
               5 ≤ PyStr.count_char "/" l.2 ∧ PyStr.contains "jobs/all" l.2 = false)
    (JobAgent._extract_job_links potential_links).
Proof.
  assert (JobAgent._extract_job_links potential_links
            = keep_new ∅ (omap job_agent_candidate potential_links)) as Heq
    by apply (job_agent_links_loop_keep potential_links [] ∅).
  split; [exact Heq|]. rewrite Heq. split; [apply keep_new_sublist|]. split.
  - intros link title url Hlink Hc.
    destruct (keep_new_complete ∅ (omap job_agent_candidate potential_links) title url)
      as [H|H]; [|set_solver|done].
    apply list_elem_of_omap. by exists link.
  - apply Forall_forall. intros [title url] Hin.
    apply (λ H, elem_of_sublist _ _ _ H (keep_new_sublist _ _)) in Hin.
    apply list_elem_of_omap in Hin as (link & _ & Hc). unfold job_agent_candidate in Hc.
    destruct link as [e|]; [|done]. destruct (JobAgent.we_href e) as [href|]; [|done].
    destruct (_ && _) eqn:Hok; [|done]. injection Hc as <- <-.
    rewrite !andb_true_iff in Hok. destruct Hok as [[[_ Hc5] Hall] Ht].
    split; [done|]. split; [apply strip_idempotent|].
    split; [by apply Nat.leb_le|by apply negb_true_iff].
Qed.

End WithUnicode.

End LinksMore.

(** ** The loaders, again *)

Section LoaderMore.

Context {page : Type} (B : browser page).

(** X15.  The page that the YC loader returns is the start page scrolled to the
    bottom as often as the run scrolls.  A run that does not declare
    convergence uses its whole budget; a run that declares it has read the
    same height after its last scroll as before it; and every earlier
    scroll of a run changed the height. *)
Theorem yc_loader_pages max_scrolls p :
  let r := YcScraper.load_page B max_scrolls p in
  r.1 = Nat.iter (scrolls r.2) (scroll_to_bottom B) p ∧
  (Converged ∉ r.2 → scrolls r.2 = max_scrolls) ∧
  (Converged ∈ r.2 →
     ∃ k, scrolls r.2 = S k ∧
          scroll_height B r.1 = scroll_height B (Nat.iter k (scroll_to_bottom B) p)) ∧
  (∀ k, S k < scrolls r.2 ∨ (S k = scrolls r.2 ∧ Converged ∉ r.2) →
     scroll_height B (Nat.iter (S k) (scroll_to_bottom B) p)
       ≠ scroll_height B (Nat.iter k (scroll_to_bottom B) p)).
Proof. apply yc_scroll_loop_pages. Qed.

(** X16.  The Wellfound loader looks for the button [Show more] once after every
    scroll to the bottom, scrolls to confirm at most once per scroll, and
    uses its whole budget of scrolls when it does not declare
    convergence. *)
Theorem wellfound_loader_budget max_scrolls p :
  let events := (WellfoundScraper.load_page B max_scrolls p).2 in
  length (filter (λ e, e = ShowMoreTried) events) = scrolls events ∧
  length (filter (λ e, e = ConfirmScrolled) events) ≤ scrolls events ∧
  (Converged ∉ events → scrolls events = max_scrolls).
Proof. apply wellfound_scroll_loop_budget. Qed.

End LoaderMore.

(** ** The cleaners, again *)

Section CleanerMore.

Lemma len_app a b : PyStr.len (a +:+ b) = PyStr.len a + PyStr.len b.
Proof.
  induction a as [|c a IH]; [done|].
  rewrite str_app_cons. cbn [PyStr.len]. rewrite IH. lia.
Qed.

Lemma replace_go_len old new skip s :
  PyStr.nonempty old = true → PyStr.len new ≤ PyStr.len old →
  PyStr.len (PyStr.replace_go old new skip s) ≤ PyStr.len (str_drop skip s).
Proof.
  intros Hne Hnew. revert skip. induction s as [|c s IH]; intros skip.
  - by destruct skip.
  - cbn [PyStr.replace_go]. destruct skip as [|k]; [|apply IH].
    destruct (String.prefix old (String c s)) eqn:Hp.
    + apply prefix_spec in Hp as [rest Hrest].
      destruct old as [|o old]; [done|]. rewrite str_app_cons in Hrest.
      injection Hrest as <- ->.
      cbn [String.length]. rewrite Nat.sub_succ, Nat.sub_0_r.
      specialize (IH (String.length old)). rewrite str_drop_app in IH.
      rewrite len_app. cbn [str_drop]. rewrite <- str_app_cons, len_app. lia.
    + specialize (IH 0). rewrite str_drop_0 in IH. cbn [str_drop PyStr.len]. lia.
Qed.

Lemma replace_len old new s :
  PyStr.nonempty old = true → PyStr.len new ≤ PyStr.len old →
  PyStr.len (PyStr.replace old new s) ≤ PyStr.len s.
Proof.
  intros Hne Hnew. unfold PyStr.replace. rewrite Hne.
  pose proof (replace_go_len old new 0 s Hne Hnew) as H. by rewrite str_drop_0 in H.
Qed.

Lemma remove_noise_len new noise s :
  Forall (λ pattern, PyStr.nonempty pattern = true ∧ PyStr.len new ≤ PyStr.len pattern) noise →
  PyStr.len (PageCleaner.remove_noise new noise s) ≤ PyStr.len s.
Proof.
  intros Hnoise. revert s. induction Hnoise as [|pattern rest [Hne Hnew] _ IH]; intros s; [done|].
  cbn [PageCleaner.remove_noise]. etrans; [apply IH|]. by apply replace_len.
Qed.

(** Rewriting the whitespace characters to a space does not lengthen a
    text: each of them is one character. *)
Lemma spaces_to_ascii_len s :
  PyStr.len (PyStr.spaces_to_ascii PyStr.unicode_spaces s) ≤ PyStr.len s.
Proof.
  assert (∀ spaces, Forall (λ x, x ∈ PyStr.unicode_spaces) spaces →
            ∀ s, PyStr.len (PyStr.spaces_to_ascii spaces s) ≤ PyStr.len s) as H.
  { induction 1 as [|x spaces Hx _ IH]; intros t; [done|].
    cbn [PyStr.spaces_to_ascii]. etrans; [apply IH|].
    destruct (unicode_spaces_word x Hx) as (Hne & _ & Hlen). by apply replace_len. }
  apply H. by apply Forall_forall.
Qed.

Lemma join_cons_len w l :
  PyStr.len (PyStr.join " " (w :: l)) ≤ PyStr.len w + 1 + PyStr.len (PyStr.join " " l).
Proof.
  destruct l as [|w' l].
  - change (PyStr.join " " [w]) with w. lia.
  - rewrite join_cons_cons, !len_app. change (PyStr.len " ") with 1. lia.
Qed.

Lemma split_go_join_len word s :
  PyStr.len (PyStr.join " " (PyStr.split_go word s)) ≤ PyStr.len word + PyStr.len s.
Proof.
  revert word. induction s as [|c s IH]; intros word; cbn [PyStr.split_go].
  - destruct (PyStr.nonempty word); [|cbn; lia].
    change (PyStr.join " " [word]) with word. lia.
  - cbn [PyStr.len]. destruct (PyStr.is_ascii_space c) eqn:Hc.
    + rewrite (ascii_space_not_continuation c Hc).
      specialize (IH EmptyString). change (PyStr.len EmptyString) with 0 in IH.
      destruct (PyStr.nonempty word); [|lia].
      etrans; [apply join_cons_len|]. lia.
    + specialize (IH (word +:+ String c EmptyString)). rewrite len_app in IH.
      cbn [PyStr.len] in IH. lia.
Qed.

Lemma clean_len new noise raw_text :
  Forall (λ pattern, PyStr.nonempty pattern = true ∧ PyStr.len new ≤ PyStr.len pattern) noise →
  PyStr.len (PageCleaner.clean new noise raw_text) ≤ PyStr.len raw_text.
Proof.
  intros Hnoise. unfold PageCleaner.clean, PyStr.split.
  etrans; [apply split_go_join_len|]. change (PyStr.len EmptyString) with 0.
  etrans; [apply spaces_to_ascii_len|]. by apply remove_noise_len.
Qed.

Lemma split_go_word word w s :
  no_ascii_space w = true → PyStr.split_go word (w +:+ s) = PyStr.split_go (word +:+ w) s.
Proof.
  revert word. induction w as [|c w IH]; intros word Hw.
  - by rewrite str_app_nil_l, str_app_nil_r.
  - cbn [no_ascii_space] in Hw. apply andb_true_iff in Hw as [Hc Hw]. apply negb_true_iff in Hc.
    rewrite str_app_cons. cbn [PyStr.split_go]. rewrite Hc, IH by done.
    by rewrite str_app_assoc.
Qed.

Lemma split_go_join_words l :
  Forall is_ascii_word l → PyStr.split_go EmptyString (PyStr.join " " l) = l.
Proof.
  induction 1 as [|w l [Hne Hw] Hl IH]; [done|].
  destruct l as [|w' l].
  - change (PyStr.join " " [w]) with w. rewrite <- (str_app_nil_r w) at 1.
    rewrite split_go_word by done. cbn [PyStr.split_go]. rewrite str_app_nil_l. by rewrite Hne.
  - rewrite join_cons_cons, split_go_word by done. rewrite str_app_nil_l.
    change (" " +:+ PyStr.join " " (w' :: l)) with (String " " (PyStr.join " " (w' :: l))).
    cbn [PyStr.split_go]. change (PyStr.is_ascii_space " ") with true. cbv iota.
    rewrite Hne. by rewrite IH.
Qed.

(** A replacement leaves a text in which the pattern does not occur as it
    is. *)
Lemma replace_absent old new s :
  PyStr.nonempty old = true → ¬ occurs_in old s → PyStr.replace old new s = s.
Proof.
  intros Hne Hs. unfold PyStr.replace. rewrite Hne.
  induction s as [|c s IH]; [done|]. cbn [PyStr.replace_go].
  destruct (String.prefix old (String c s)) eqn:Hp; [by apply prefix_occurs in Hp|].
  rewrite IH; [done|]. intros H. by apply Hs, occurs_in_cons.
Qed.

Lemma spaces_to_ascii_absent spaces s :
  Forall (λ x, PyStr.nonempty x = true ∧ ¬ occurs_in x s) spaces →
  PyStr.spaces_to_ascii spaces s = s.
Proof.
  induction 1 as [|x spaces [Hne Hx] _ IH]; [done|].
  cbn [PyStr.spaces_to_ascii]. by rewrite replace_absent.
Qed.

(** Splitting what [join] makes of words gives the words back. *)
Lemma split_join_words l : Forall is_word l → PyStr.split (PyStr.join " " l) = l.
Proof.
  intros Hl. unfold PyStr.split. rewrite spaces_to_ascii_absent.
  - by apply split_go_join_words, is_word_ascii.
  - apply Forall_forall. intros x Hx.
    split; [by apply unicode_spaces_word|]. intros Hocc.
    assert (x = " ") as ->.
    { apply (join_words_spaces l x Hl); [|done]. apply elem_of_app. by right. }
    by destruct (unicode_spaces_word " " Hx) as (_ & ? & _).
Qed.

(** X17.  Neither cleaner lengthens a text: each noise phrase is replaced by
    nothing (YC) or by one space (Wellfound), and a run of whitespace by
    one space.  So a posting whose cleaned text passes the length test of
    a scraper has a raw text of that length at least. *)
Theorem cleaners_never_lengthen raw_text :
  PyStr.len (YcScraper.clean_yc_text raw_text) ≤ PyStr.len raw_text ∧
  PyStr.len (WellfoundScraper.clean_wellfound_text raw_text) ≤ PyStr.len raw_text.
Proof.
  split; apply clean_len; apply Forall_forall; intros pattern Hin;
    repeat (apply elem_of_cons in Hin as [->|Hin]; [split; [reflexivity|vm_compute; lia]|]);
    by apply elem_of_nil in Hin.
Qed.

(** X18.  A cleaned text is a fixed point of the whitespace step of the cleaners:
    its words are the words left after the noise phrases were taken out,
    and splitting and joining it again changes nothing. *)
Theorem clean_normalised new noise raw_text :
  PyStr.split (PageCleaner.clean new noise raw_text)
    = PyStr.split (PageCleaner.remove_noise new noise raw_text) ∧
  PageCleaner.clean new [] (PageCleaner.clean new noise raw_text)
    = PageCleaner.clean new noise raw_text.
Proof.
  assert (PyStr.split (PageCleaner.clean new noise raw_text)
            = PyStr.split (PageCleaner.remove_noise new noise raw_text)) as H
    by apply split_join_words, split_words.
  split; [exact H|]. unfold PageCleaner.clean at 1. cbn [PageCleaner.remove_noise].
  by rewrite H.
Qed.

End CleanerMore.

(** ** The runs of the scrapers *)

Section Runs.

Section WithUnicode.

Context {U : PyStr.Unicode}.

Lemma has_url_false t url : Db.has_url t url = false ↔ url ∉ Db.job_url <$> t.
Proof.
  rewrite <- has_url_spec. destruct (Db.has_url t url); naive_solver.
Qed.

Lemma NoDup_snoc_url t row :
  NoDup (Db.job_url <$> t) → Db.job_url row ∉ Db.job_url <$> t →
  NoDup (Db.job_url <$> (t ++ [row])).
Proof.
  intros Hnd Hnew. rewrite fmap_app. apply NoDup_app. split; [done|].
  split; [|apply NoDup_singleton].
  intros url Hin [->|[]%elem_of_nil]%elem_of_cons. done.
Qed.

Lemma not_elem_of_snoc_url t row url :
  url ∉ Db.job_url <$> (t ++ [row]) → url ∉ Db.job_url <$> t.
Proof. rewrite fmap_app. set_solver. Qed.

Lemma execute_insert_cases fault t query url title description :
  (fault = None ∧ Db.has_url t url = false ∧
   Db.execute_insert fault t query url title description
     = (t ++ [Db.new_row t query url title description], Ok ())) ∨
  (∃ errno, Db.execute_insert fault t query url title description
              = (t, Raise (MySQLError errno))).
Proof.
  unfold Db.execute_insert. destruct fault as [errno|]; [right; by exists errno|].
  destruct (Db.has_url t url); [right; by eexists|by left].
Qed.

Lemma yc_process_link_inv get fault t title url :
  (∃ raw, fault = None ∧ Db.has_url t url = false ∧ get url = Ok (Some raw) ∧
          200 ≤ PyStr.len (YcScraper.clean_yc_text raw) ∧
          YcScraper.process_link get fault t title url
            = (t ++ [Db.new_row t (Some "YC Scraper") url title (YcScraper.clean_yc_text raw)],
               Ok Saved)) ∨
  (∃ line, line ≠ Saved ∧ YcScraper.process_link get fault t title url = (t, Ok line)).
Proof.
  unfold YcScraper.process_link. destruct (get url) as [[raw|]|e] eqn:Hget.
  - cbv zeta. set (clean_text := YcScraper.clean_yc_text raw).
    destruct (PyStr.len clean_text <? 200) eqn:Hlen; [right; by exists TooShort|].
    apply Nat.ltb_ge in Hlen. unfold YcScraper.insert_job.
    destruct (execute_insert_cases fault t (Some "YC Scraper") url title clean_text)
      as [(Hf & Hu & ->)|[errno ->]].
    + left. exists raw. repeat (split; [done|]). reflexivity.
    + right. unfold try_except_mysql, try_except. cbn [mbind result_bind].
      destruct (errno =? 1062)%Z; eexists; (split; [|reflexivity]); done.
  - right. by exists NoContent.
  - right. by exists ProcessingError.
Qed.

Lemma wellfound_process_link_inv get fault t title url :
  (∃ raw, fault = None ∧ Db.has_url t url = false ∧ get url = Ok (Some raw) ∧
          500 ≤ PyStr.len (WellfoundScraper.clean_wellfound_text raw) ∧
          WellfoundScraper.process_link get fault t title url
            = (t ++ [Db.new_row t (Some "Wellfound Scraper") url title
                       (WellfoundScraper.clean_wellfound_text raw)],
               Ok Saved)) ∨
  (∃ line, line ≠ Saved ∧ WellfoundScraper.process_link get fault t title url = (t, Ok line)).
Proof.
  unfold WellfoundScraper.process_link. destruct (get url) as [[raw|]|e] eqn:Hget.
  - cbv zeta. set (clean_text := WellfoundScraper.clean_wellfound_text raw).
    destruct (PyStr.len clean_text <? 500) eqn:Hlen; [right; by exists TooShort|].
    apply Nat.ltb_ge in Hlen. unfold WellfoundScraper.insert_job.
    destruct (execute_insert_cases fault t (Some "Wellfound Scraper") url title clean_text)
      as [(Hf & Hu & ->)|[errno ->]].
    + left. exists raw. repeat (split; [done|]). reflexivity.
    + right. unfold try_except_mysql, try_except. cbn [mbind result_bind].
      destruct (errno =? 1062)%Z; eexists; (split; [|reflexivity]); done.
  - right. by exists NoContent.
  - right. by exists ProcessingError.
Qed.

Lemma stored_by_weaken query least clean get fault link job_links t row0 row :
  stored_by query least clean get fault job_links (t ++ [row0]) row →
  stored_by query least clean get fault (link :: job_links) t row.
Proof.
  intros (raw & H1 & H2 & H3 & H4 & H5 & H6 & H7 & H8). exists raw.
  split; [by apply list_elem_of_further|]. repeat (split; [done|]).
  by eapply not_elem_of_snoc_url.
Qed.

Lemma stored_by_further query least clean get fault link job_links t row :
  stored_by query least clean get fault job_links t row →
  stored_by query least clean get fault (link :: job_links) t row.
Proof.
  intros (raw & H1 & H2). exists raw. split; [by apply list_elem_of_further|done].
Qed.

Lemma yc_process_links_spec get fault job_links t :
  ∃ lines added,
    YcRun.process_links get fault job_links t = (t ++ added, Ok lines) ∧
    length lines = length job_links ∧
    length added = length (filter (λ line, line = Saved) lines) ∧
    Forall (stored_by "YC Scraper" 200 YcScraper.clean_yc_text get fault job_links t) added ∧
    (NoDup (Db.job_url <$> t) → NoDup (Db.job_url <$> (t ++ added))).
Proof.
  revert t. induction job_links as [|[title url] rest IH]; intros t.
  - exists [], []. cbn [YcRun.process_links]. by rewrite app_nil_r.
  - cbn [YcRun.process_links].
    destruct (yc_process_link_inv get (fault url) t title url)
      as [(raw & Hf & Hu & Hget & Hlen & ->)|(line & Hline & ->)].
    + set (row := Db.new_row t (Some "YC Scraper") url title (YcScraper.clean_yc_text raw)).
      destruct (IH (t ++ [row])) as (lines & added & -> & Hl & Ha & Hrows & Hnd).
      exists (Saved :: lines), (row :: added). cbn [mbind result_bind].
      rewrite <- app_assoc. split; [done|]. split; [cbn; by rewrite Hl|].
      rewrite filter_cons_True by done. split; [cbn; by rewrite Ha|]. split.
      * constructor.
        -- exists raw. split; [apply list_elem_of_here|]. repeat (split; [done|]).
           by apply has_url_false.
        -- eapply Forall_impl; [exact Hrows|]. intros r. apply stored_by_weaken.
      * intros Hnd0. rewrite cons_middle, app_assoc. apply Hnd.
        apply NoDup_snoc_url; [done|]. by apply has_url_false.
    + destruct (IH t) as (lines & added & -> & Hl & Ha & Hrows & Hnd).
      exists (line :: lines), added. cbn [mbind result_bind].
      split; [done|]. split; [cbn; by rewrite Hl|].
      rewrite filter_cons_False by done. split; [done|]. split; [|done].
      eapply Forall_impl; [exact Hrows|]. intros r. apply stored_by_further.
Qed.

Lemma wellfound_process_links_spec get fault job_links t :
  ∃ lines added,
    WellfoundRun.process_links get fault job_links t = (t ++ added, Ok lines) ∧
    length lines = length job_links ∧
    length added = length (filter (λ line, line = Saved) lines) ∧
    Forall (stored_by "Wellfound Scraper" 500 WellfoundScraper.clean_wellfound_text
              get fault job_links t) added ∧
    (NoDup (Db.job_url <$> t) → NoDup (Db.job_url <$> (t ++ added))).
Proof.
  revert t. induction job_links as [|[title url] rest IH]; intros t.
  - exists [], []. cbn [WellfoundRun.process_links]. by rewrite app_nil_r.
  - cbn [WellfoundRun.process_links].
    destruct (wellfound_process_link_inv get (fault url) t title url)
      as [(raw & Hf & Hu & Hget & Hlen & ->)|(line & Hline & ->)].
    + set (row := Db.new_row t (Some "Wellfound Scraper") url title
                    (WellfoundScraper.clean_wellfound_text raw)).
      destruct (IH (t ++ [row])) as (lines & added & -> & Hl & Ha & Hrows & Hnd).
      exists (Saved :: lines), (row :: added). cbn [mbind result_bind].
      rewrite <- app_assoc. split; [done|]. split; [cbn; by rewrite Hl|].
      rewrite filter_cons_True by done. split; [cbn; by rewrite Ha|]. split.
      * constructor.
        -- exists raw. split; [apply list_elem_of_here|]. repeat (split; [done|]).
           by apply has_url_false.
        -- eapply Forall_impl; [exact Hrows|]. intros r. apply stored_by_weaken.
      * intros Hnd0. rewrite cons_middle, app_assoc. apply Hnd.
        apply NoDup_snoc_url; [done|]. by apply has_url_false.
    + destruct (IH t) as (lines & added & -> & Hl & Ha & Hrows & Hnd).
      exists (line :: lines), added. cbn [mbind result_bind].
      split; [done|]. split; [cbn; by rewrite Hl|].
      rewrite filter_cons_False by done. split; [done|]. split; [|done].
      eapply Forall_impl; [exact Hrows|]. intros r. apply stored_by_further.
Qed.

(** X19.  A run of the YC scraper ends without an exception whatever the pages
    and the server do.  It prints one line per link it found and adds one
    row per line that says saved, after the rows that were there.  An added
    row belongs to a link whose page could be read, holds the cleaned text
    of the page, which has 200 characters or more, is marked with the
    scraper's name and as not extracted, and has a URL that no earlier row
    had; so distinct URLs stay distinct. *)
Theorem scrape_yc_stores {page} (B : browser page) anchors_of get fault p t :
  let job_links :=
    YcScraper.job_links_of (anchors_of (YcScraper.load_page B YcScraper.MAX_SCROLLS p).1) in
  ∃ lines added,
    YcRun.scrape_yc B anchors_of get fault p t = (t ++ added, Ok lines) ∧
    length lines = length job_links ∧
    length added = length (filter (λ line, line = Saved) lines) ∧
    Forall (stored_by "YC Scraper" 200 YcScraper.clean_yc_text get fault job_links t) added ∧
    (NoDup (Db.job_url <$> t) → NoDup (Db.job_url <$> (t ++ added))).
Proof.
  unfold YcRun.scrape_yc. destruct (YcScraper.load_page B _ p) as [loaded events].
  apply yc_process_links_spec.
Qed.

(** X20.  A run of the Wellfound scraper that finds no browser window after the
    login, or fails to reconnect, stores nothing and prints no line about a
    posting.  Any other run ends without an exception, prints one line per
    link it found and adds one row per line that says saved; an added row
    belongs to a link whose page could be read, holds the cleaned text of
    the page, which has 500 characters or more, is marked with the
    scraper's name and as not extracted, and has a URL that no earlier row
    had. *)
Theorem scrape_wellfound_stores {page} (B : browser page) anchors_of window_handles
    get fault p t :
  let job_links :=
    WellfoundScraper.job_links_of
      (anchors_of (WellfoundScraper.load_page B WellfoundScraper.MAX_SCROLLS p).1) in
  ((∀ handle handles, window_handles ≠ Ok (handle :: handles)) →
     WellfoundRun.scrape_wellfound B anchors_of window_handles get fault p t = (t, Ok [])) ∧
  ((∃ handle handles, window_handles = Ok (handle :: handles)) →
   ∃ lines added,
     WellfoundRun.scrape_wellfound B anchors_of window_handles get fault p t
       = (t ++ added, Ok lines) ∧
     length lines = length job_links ∧
     length added = length (filter (λ line, line = Saved) lines) ∧
     Forall (stored_by "Wellfound Scraper" 500 WellfoundScraper.clean_wellfound_text
               get fault job_links t) added ∧
     (NoDup (Db.job_url <$> t) → NoDup (Db.job_url <$> (t ++ added)))).
Proof.
  cbv zeta. unfold WellfoundRun.scrape_wellfound. split.
  - intros H. destruct window_handles as [[|handle handles]|e]; try done.
    by destruct (H handle handles).
  - intros (handle & handles & ->).
    destruct (WellfoundScraper.load_page B _ p) as [loaded events].
    apply wellfound_process_links_spec.
Qed.

Lemma save_job_cases fault t term url title description :
  (fault = None ∧ Db.has_url t url = false ∧
   JobAgent._save_job_to_db fault t term url title description
     = (t ++ [Db.new_row t None url title description], Ok true)) ∨
  JobAgent._save_job_to_db fault t term url title description = (t, Ok false).
Proof.
  unfold JobAgent._save_job_to_db.
  destruct (execute_insert_cases fault t None url title description)
    as [(Hf & Hu & ->)|[errno ->]].
  - left. by repeat split.
  - right. unfold try_except_mysql. cbn [mbind result_bind]. by destruct (errno =? 1062)%Z.
Qed.

Lemma saved_by_agent_weaken get fault link job_links t row0 row :
  saved_by_agent get fault job_links (t ++ [row0]) row →
  saved_by_agent get fault (link :: job_links) t row.
Proof.
  intros (raw & H1 & H2 & H3 & H4 & H5 & H6 & H7 & H8). exists raw.
  split; [by apply list_elem_of_further|]. repeat (split; [done|]).
  by eapply not_elem_of_snoc_url.
Qed.

Lemma saved_by_agent_further get fault link job_links t row :
  saved_by_agent get fault job_links t row →
  saved_by_agent get fault (link :: job_links) t row.
Proof.
  intros (raw & H1 & H2). exists raw. split; [by apply list_elem_of_further|done].
Qed.

Lemma save_loop_spec get fault term job_links t successful_saves :
  ∃ added lines r,
    RemoteJobScraper.save_loop get fault term job_links t successful_saves
      = (t ++ added, lines, r) ∧
    Forall (saved_by_agent get fault job_links t) added ∧
    (NoDup (Db.job_url <$> t) → NoDup (Db.job_url <$> (t ++ added))) ∧
    Forall posting_line lines ∧
    length added = length (filter (λ line, line = RemoteJobScraper.LineSaved) lines) ∧
    match r with
    | Ok saves =>
      saves = successful_saves + length added ∧ length lines = length job_links ∧
      Forall (λ l, ∀ e, get l.2 ≠ Raise e) job_links
    | Raise e =>
      length lines < length job_links ∧
      ∃ title url, job_links !! length lines = Some (title, url) ∧ get url = Raise e
    end.
Proof.
  revert t successful_saves.
  induction job_links as [|[title url] rest IH]; intros t successful_saves.
  - exists [], [], (Ok successful_saves). cbn [RemoteJobScraper.save_loop].
    rewrite app_nil_r. repeat split; try done; cbn; lia.
  - cbn [RemoteJobScraper.save_loop]. unfold RemoteJobScraper._scrape_job_details.
    destruct (get url) as [[raw|]|e] eqn:Hget; cbn [mbind result_bind].
    + set (description :=
             PyStr.strip (PageCleaner.remove_noise EmptyString RemoteJobScraper.noise_phrases raw)).
      destruct description as [|c d] eqn:Hd.
      * destruct (IH t successful_saves) as (added & lines & r & -> & Hrows & Hnd & Hl & Ha & Hr).
        exists added, (RemoteJobScraper.LineFailed :: lines), r.
        split; [done|]. split.
        { eapply Forall_impl; [exact Hrows|]. intros row. apply saved_by_agent_further. }
        split; [done|]. split; [constructor; [right; by right|done]|].
        rewrite filter_cons_False by done. split; [done|].
        destruct r as [saves|e]; cbn [length].
        -- destruct Hr as (-> & -> & Hget'). repeat split; try done.
           constructor; [|done]. cbn. by rewrite Hget.
        -- destruct Hr as (Hlt & Hat). split; [lia|done].
      * destruct (save_job_cases (fault url) t term url title (String c d))
          as [(Hf & Hu & ->) | ->].
        -- set (row := Db.new_row t None url title (String c d)).
           destruct (IH (t ++ [row]) (S successful_saves))
             as (added & lines & r & -> & Hrows & Hnd & Hl & Ha & Hr).
           exists (row :: added), (RemoteJobScraper.LineSaved :: lines), r.
           rewrite <- app_assoc. split; [done|]. split.
           { constructor.
             - exists raw. split; [apply list_elem_of_here|]. repeat (split; [done|]).
               by apply has_url_false.
             - eapply Forall_impl; [exact Hrows|]. intros r0. apply saved_by_agent_weaken. }
           split.
           { intros Hnd0. rewrite cons_middle, app_assoc. apply Hnd.
             apply NoDup_snoc_url; [done|]. by apply has_url_false. }
           split; [constructor; [by left|done]|].
           rewrite filter_cons_True by done. split; [cbn; by rewrite Ha|].
           destruct r as [saves|e]; cbn [length].
           ++ destruct Hr as (-> & -> & Hget'). repeat split; try lia.
              constructor; [|done]. cbn. by rewrite Hget.
           ++ destruct Hr as (Hlt & Hat). split; [lia|done].
        -- destruct (IH t successful_saves)
             as (added & lines & r & -> & Hrows & Hnd & Hl & Ha & Hr).
           exists added, (RemoteJobScraper.LineDuplicate :: lines), r.
           split; [done|]. split.
           { eapply Forall_impl; [exact Hrows|]. intros row. apply saved_by_agent_further. }
           split; [done|]. split; [constructor; [right; by left|done]|].
           rewrite filter_cons_False by done. split; [done|].
           destruct r as [saves|e]; cbn [length].
           ++ destruct Hr as (-> & -> & Hget'). repeat split; try done.
              constructor; [|done]. cbn. by rewrite Hget.
           ++ destruct Hr as (Hlt & Hat). split; [lia|done].
    + destruct (IH t successful_saves) as (added & lines & r & -> & Hrows & Hnd & Hl & Ha & Hr).
      exists added, (RemoteJobScraper.LineFailed :: lines), r.
      split; [done|]. split.
      { eapply Forall_impl; [exact Hrows|]. intros row. apply saved_by_agent_further. }
      split; [done|]. split; [constructor; [right; by right|done]|].
      rewrite filter_cons_False by done. split; [done|].
      destruct r as [saves|e]; cbn [length].
      * destruct Hr as (-> & -> & Hget'). repeat split; try done.
        constructor; [|done]. cbn. by rewrite Hget.
      * destruct Hr as (Hlt & Hat). split; [lia|done].
    + exists [], [], (Raise e). rewrite app_nil_r. repeat split; try done.
      * cbn. lia.
      * by exists title, url.
Qed.

Lemma posting_lines_not_failed lines :
  Forall posting_line lines → RemoteJobScraper.ScrapingFailed ∉ lines.
Proof.
  intros Hl Hin. rewrite Forall_forall in Hl. by destruct (Hl _ Hin) as [?|[?|?]].
Qed.

(** X21.  A run of [job_agent.py] first prints the search URL built from what was
    typed.  It adds rows after the rows that were there, one per line that
    says saved; an added row belongs to a link of the result page whose
    posting could be read, holds the stripped text of the posting without
    the cookie phrases, which is not empty, carries no search query (the
    search term is not stored) and is marked as not extracted; distinct URLs
    stay distinct.  The run prints that scraping failed exactly when the
    result page could not be read or opening one of the links raises: the
    postings after that link are not processed.  Otherwise it prints one
    line per link and ends with the count of the rows it added out of the
    number of links. *)
Theorem run_outcome typed found get fault t :
  let job_links :=
    match found with
    | Ok potential_links => JobAgent._extract_job_links potential_links
    | Raise _ => []
    end in
  let r := RemoteJobScraper.run typed found get fault t in
  ∃ added,
    r.1 = t ++ added ∧
    Forall (saved_by_agent get fault job_links t) added ∧
    (NoDup (Db.job_url <$> t) → NoDup (Db.job_url <$> r.1)) ∧
    length added = length (filter (λ line, line = RemoteJobScraper.LineSaved) r.2) ∧
    head r.2
      = Some (RemoteJobScraper.Searching
                (RemoteJobScraper._build_search_url (RemoteJobScraper._get_search_filters typed))) ∧
    (RemoteJobScraper.ScrapingFailed ∈ r.2 ↔
       (∃ e, found = Raise e) ∨ Exists (λ l, ∃ e, get l.2 = Raise e) job_links) ∧
    (RemoteJobScraper.ScrapingFailed ∉ r.2 →
       length r.2 = 3 + length job_links ∧
       last r.2 = Some (RemoteJobScraper.Summary (length added) (length job_links))).
Proof.
  cbv zeta. unfold RemoteJobScraper.run. destruct found as [potential_links|e].
  - set (job_links := JobAgent._extract_job_links potential_links).
    destruct (save_loop_spec get fault
                (RemoteJobScraper.search_term (RemoteJobScraper._get_search_filters typed))
                job_links t 0) as (added & lines & r & -> & Hrows & Hnd & Hl & Ha & Hr).
    exists added. cbn [fst snd]. split; [done|]. split; [done|]. split; [done|].
    pose proof (posting_lines_not_failed lines Hl) as Hnf.
    split.
    { rewrite !filter_cons_False by done. rewrite filter_app, length_app, <- Ha.
      destruct r; rewrite filter_cons_False by done; cbn; lia. }
    split; [done|]. destruct r as [saves|e].
    + destruct Hr as (-> & Hlen & Hget). split.
      * split.
        -- intros Hin. exfalso. rewrite !elem_of_cons, elem_of_app in Hin.
           destruct Hin as [?|[?|[?|Hin]]]; try done.
           by apply list_elem_of_singleton in Hin.
        -- intros [[e ?]|Hex]; [done|]. exfalso.
           apply Exists_exists in Hex as (l & Hin & e & He).
           rewrite Forall_forall in Hget. by apply (Hget l Hin e).
      * intros _. cbn [length]. rewrite length_app, Hlen. split; [cbn; lia|].
        rewrite !last_cons, last_snoc. done.
    + destruct Hr as (Hlt & title & url & Hat & He). split.
      * split.
        -- intros _. right. apply Exists_exists. exists (title, url).
           split; [by eapply list_elem_of_lookup_2|by exists e].
        -- intros _. do 2 apply list_elem_of_further. apply elem_of_app. right.
           apply list_elem_of_here.
      * intros H. exfalso. apply H. do 2 apply list_elem_of_further. apply elem_of_app. right.
        apply list_elem_of_here.
  - exists []. cbn [fst snd]. rewrite app_nil_r. split; [done|]. split; [done|].
    split; [done|]. split; [done|]. split; [done|]. split.
    + split; [intros _; left; by exists e|]. intros _. apply list_elem_of_further, list_elem_of_here.
    + intros H. exfalso. apply H. apply list_elem_of_further, list_elem_of_here.
Qed.

End WithUnicode.

End Runs.

(** ** The search of job_agent.py *)

Section Search.

Section WithUnicode.

Context {U : PyStr.Unicode}.

Lemma str_forall_app p a b : str_forall p (a +:+ b) = str_forall p a && str_forall p b.
Proof.
  induction a as [|c a IH]; [done|]. rewrite str_app_cons. cbn [str_forall].
  by rewrite IH, andb_assoc.
Qed.

Lemma quote_char_safe c : str_forall query_safe (PyLib.quote_char c) = true.
Proof. by destruct c as [[] [] [] [] [] [] [] []]; vm_compute. Qed.

Lemma quote_plus_safe s : str_forall query_safe (PyLib.quote_plus s) = true.
Proof.
  induction s as [|c s IH]; [done|]. cbn [PyLib.quote_plus].
  by rewrite str_forall_app, quote_char_safe, IH.
Qed.

Lemma encode_pair_safe k v : str_forall query_safe (PyLib.encode_pair k v) = true.
Proof.
  unfold PyLib.encode_pair. by rewrite !str_forall_app, !quote_plus_safe.
Qed.

Lemma join_amp_safe l :
  Forall (λ s, str_forall query_safe s = true) l →
  str_forall query_safe (PyStr.join "&" l) = true.
Proof.
  induction 1 as [|s l Hs Hl IH]; [done|]. destruct l as [|s' l]; [done|].
  rewrite join_cons_cons, !str_forall_app, Hs, IH. done.
Qed.

Lemma urlencode_safe params : str_forall query_safe (PyLib.urlencode params) = true.
Proof.
  unfold PyLib.urlencode. apply join_amp_safe. apply Forall_forall. intros s Hin.
  apply list_elem_of_In, in_concat in Hin as (l & Hl & Hs).
  apply in_map_iff in Hl as ([k v] & <- & _). unfold PyLib.encode_param in Hs.
  cbn [fst snd] in Hs. destruct v as [v|vs].
  - destruct Hs as [<-|[]]. apply encode_pair_safe.
  - apply in_map_iff in Hs as (v & <- & _). apply encode_pair_safe.
Qed.

Lemma lower_empty s : PyStr.lower s = EmptyString ↔ s = EmptyString.
Proof.
  pose proof (PyStr.lower_nonempty s) as H. split.
  - intros Heq. rewrite Heq in H. by destruct s.
  - intros ->. by destruct (PyStr.lower EmptyString).
Qed.

Lemma read_options_spec options line :
  (RemoteJobScraper.read_options options line = None ↔ PyStr.strip line = EmptyString) ∧
  (∀ v, RemoteJobScraper.read_options options line = Some v →
        Forall (λ item, item ∈ options) v).
Proof.
  unfold RemoteJobScraper.read_options. cbv zeta.
  destruct (PyStr.lower (PyStr.strip line)) as [|c r] eqn:Hl; cbn [PyStr.nonempty].
  - apply (proj1 (lower_empty _)) in Hl. split; [split; [intros _; exact Hl|reflexivity]|]. intros v [=].
  - split.
    + split; [done|]. intros H. apply (proj2 (lower_empty _)) in H. congruence.
    + intros v [= <-]. rewrite map_fmap. apply Forall_fmap, Forall_forall.
      intros item Hin. by apply list_elem_of_filter in Hin as [Hin _].
Qed.

(** X22.  What [_get_search_filters] makes of the five lines typed: the search
    term is stripped; a list of options is set exactly when its line holds
    more than whitespace, and then each of its items is one of the options
    offered for it, whatever was typed. *)
Theorem search_filters_validated typed :
  let f := RemoteJobScraper._get_search_filters typed in
  PyStr.strip (RemoteJobScraper.search_term f) = RemoteJobScraper.search_term f ∧
  (RemoteJobScraper.employment_types f = None
     ↔ PyStr.strip (RemoteJobScraper.typed_employment_types typed) = EmptyString) ∧
  (RemoteJobScraper.locations f = None
     ↔ PyStr.strip (RemoteJobScraper.typed_locations typed) = EmptyString) ∧
  (RemoteJobScraper.seniorities f = None
     ↔ PyStr.strip (RemoteJobScraper.typed_seniorities typed) = EmptyString) ∧
  (∀ v, RemoteJobScraper.employment_types f = Some v →
        Forall (λ item, item ∈ RemoteJobScraper.employment_type_options) v) ∧
  (∀ v, RemoteJobScraper.locations f = Some v →
        Forall (λ item, item ∈ RemoteJobScraper.location_options) v) ∧
  (∀ v, RemoteJobScraper.seniorities f = Some v →
        Forall (λ item, item ∈ RemoteJobScraper.seniority_options) v).
Proof.
  cbv zeta. unfold RemoteJobScraper._get_search_filters.
  cbn [RemoteJobScraper.search_term RemoteJobScraper.employment_types
       RemoteJobScraper.locations RemoteJobScraper.seniorities].
  split; [apply strip_idempotent|].
  repeat split; try apply read_options_spec; by apply read_options_spec.
Qed.

(** X23.  The search URL is the address of the listing, a question mark and a
    query string in which everything that was typed is escaped: it holds
    only letters, digits, [_], [.], [-], [~], [+], [%], [&] and [=].  When
    no filter is set the query string is empty. *)
Theorem build_search_url_escaped f :
  ∃ query_string,
    RemoteJobScraper._build_search_url f
      = RemoteJobScraper.base_url +:+ "?" +:+ query_string ∧
    str_forall query_safe query_string = true ∧
    (RemoteJobScraper.search_params f = [] → query_string = EmptyString).
Proof.
  exists (PyLib.urlencode (RemoteJobScraper.search_params f)).
  split; [done|]. split; [apply urlencode_safe|]. by intros ->.
Qed.

End WithUnicode.

End Search.
